(** * da_engine: the analysis step of an ensemble Kalman filter

    A shallow embedding of [da_engine/da_engine.py] (class [Analysis]:
    [__init__], [update], [EnKF], [Sqrt_KF]).

    Conventions of the embedding.
    - A Python float is an exact real number ([R]).  The only NaN the
      claims depend on (the energy share [0/0] of an all-zero spectrum,
      which compares false with every threshold) is written out in
      [ge_share]; every other division by zero follows [Rdiv].
    - A numpy array of at most two dimensions is its shape together with
      an indexing function ([ndarray]); two arrays are compared inside
      their bounds ([arr_eq]).
    - Every array lives in a store ([heap]); a variable holds [None] or
      a reference ([pyobj]).  Each numpy, BLAS or LAPACK call allocates
      its result (a view counts as a new object: nothing is written
      through one); [np.fill_diagonal] and a masked assignment write in
      place.  Scalars and boolean masks are values, not objects.
    - LAPACK's [dgesvd] and the two random draws ([np.random.randn],
      [ortho_group.rvs]) are inputs of the model: an oracle for the
      decomposition, the drawn samples for the other two.
    - [print] has no effect on the store and is left out. *)

From Stdlib Require Import Reals Lra Lia List String Ascii Bool Arith ZArith.
From Stdlib Require Import FunctionalExtensionality.
Import ListNotations.

Open Scope R_scope.

(** ** Finite sums of reals *)

Fixpoint Rsum (n : nat) (f : nat -> R) : R :=
  match n with
  | O => 0
  | S k => Rsum k f + f k
  end.

(** The product of an [_ x k] and a [k x _] matrix. *)
Definition mmul (k : nat) (f g : nat -> nat -> R) : nat -> nat -> R :=
  fun i j => Rsum k (fun l => f i l * g l j).

(** ** numpy arrays *)

Inductive ndarray : Type :=
| Arr0 (x : R)                              (* shape ()      *)
| Arr1 (n : nat) (v : nat -> R)             (* shape (n,)    *)
| Arr2 (m n : nat) (a : nat -> nat -> R).   (* shape (m, n)  *)

Definition ndim (a : ndarray) : nat :=
  match a with Arr0 _ => 0 | Arr1 _ _ => 1 | Arr2 _ _ _ => 2 end.

Definition shape (a : ndarray) : list nat :=
  match a with
  | Arr0 _ => []
  | Arr1 n _ => [n]
  | Arr2 m n _ => [m; n]
  end.

Definition size (a : ndarray) : nat :=
  match a with
  | Arr0 _ => 1
  | Arr1 n _ => n
  | Arr2 m n _ => (m * n)%nat
  end.

(** The two-dimensional view numpy's broadcasting gives an array: missing
    leading axes have length one. *)
Definition rows2 (a : ndarray) : nat :=
  match a with Arr2 m _ _ => m | _ => 1%nat end.

Definition cols2 (a : ndarray) : nat :=
  match a with Arr0 _ => 1%nat | Arr1 n _ => n | Arr2 _ n _ => n end.

Definition at2 (a : ndarray) (i j : nat) : R :=
  match a with
  | Arr0 x => x
  | Arr1 _ v => v j
  | Arr2 _ _ f => f i j
  end.

(** Row-major (C order) element [k], as [reshape] and [a.flat] see it. *)
Definition flat (a : ndarray) (k : nat) : R :=
  match a with
  | Arr0 x => x
  | Arr1 _ v => v k
  | Arr2 _ n f => f (k / n)%nat (k mod n)%nat
  end.

(** Equality of arrays: same shape, same entries inside the bounds. *)
Definition arr_eq (a b : ndarray) : Prop :=
  shape a = shape b /\
  forall i j, (i < rows2 a)%nat -> (j < cols2 a)%nat -> at2 a i j = at2 b i j.

(** ** Exceptions *)

Inductive exn : Type :=
| AttributeError            (* attribute of None *)
| TypeError                 (* operand None, len() of a 0-d array *)
| ValueError (msg : string) (* raised by the program or by numpy *)
| BlasError.                (* a shape check of the BLAS wrapper failed *)

Inductive res (A : Type) : Type :=
| Val (a : A)
| Exc (e : exn).
Arguments Val {A} a.
Arguments Exc {A} e.

(** ** The store and the monad of the program *)

Definition loc := nat.
Definition heap := list ndarray.

(** A Python variable that holds an array or None. *)
Definition pyobj := option loc.

Definition M (A : Type) : Type := heap -> res A * heap.

Definition ret {A} (a : A) : M A := fun h => (Val a, h).

Definition bind {A B} (c : M A) (f : A -> M B) : M B :=
  fun h =>
    match c h with
    | (Val a, h') => f a h'
    | (Exc e, h') => (Exc e, h')
    end.

Definition raise {A} (e : exn) : M A := fun h => (Exc e, h).

Definition lift {A} (r : res A) : M A := fun h => (r, h).

Declare Scope monad_scope.
Delimit Scope monad_scope with monad.
Notation "x <- c ;; k" := (bind c (fun x => k))
  (at level 61, c at next level, right associativity) : monad_scope.
Notation "c ;;; k" := (bind c (fun _ => k))
  (at level 61, right associativity) : monad_scope.
Open Scope monad_scope.

(** A new array object. *)
Definition alloc (a : ndarray) : M pyobj :=
  fun h => (Val (Some (List.length h)), (h ++ [a])%list).

(** Reading through a reference; [e] is what Python raises on None. *)
Definition deref (e : exn) (o : pyobj) : M ndarray :=
  fun h =>
    match o with
    | None => (Exc e, h)
    | Some l =>
        match nth_error h l with
        | Some a => (Val a, h)
        | None => (Exc e, h)
        end
    end.

Fixpoint replace_nth (h : heap) (l : loc) (a : ndarray) : heap :=
  match h, l with
  | [], _ => []
  | _ :: t, O => a :: t
  | x :: t, S l' => x :: replace_nth t l' a
  end.

(** Writing an array object in place. *)
Definition store (e : exn) (o : pyobj) (a : ndarray) : M unit :=
  fun h =>
    match o with
    | None => (Exc e, h)
    | Some l => if (l <? List.length h)%nat then (Val tt, replace_nth h l a)
                else (Exc e, h)
    end.

(** A call that reads one array and returns a new one. *)
Definition new1 (e : exn) (f : ndarray -> res ndarray) (o : pyobj) : M pyobj :=
  a <- deref e o ;; r <- lift (f a) ;; alloc r.

(** A call that reads two arrays and returns a new one. *)
Definition new2 (e : exn) (f : ndarray -> ndarray -> res ndarray)
    (o1 o2 : pyobj) : M pyobj :=
  a <- deref e o1 ;; b <- deref e o2 ;; r <- lift (f a b) ;; alloc r.

(** ** numpy, element by element *)

(** Broadcasting of one axis: equal lengths, or one of them is 1. *)
Definition bdim (a b : nat) : option nat :=
  if (a =? b)%nat then Some a
  else if (a =? 1)%nat then Some b
  else if (b =? 1)%nat then Some a
  else None.

(** Index into an axis of length [d] of an operand broadcast to length [r]. *)
Definition bidx (d r i : nat) : nat := if (d =? r)%nat then i else 0%nat.

Definition mk_array (nd m n : nat) (f : nat -> nat -> R) : ndarray :=
  match nd with
  | O => Arr0 (f 0%nat 0%nat)
  | S O => Arr1 n (f 0%nat)
  | _ => Arr2 m n f
  end.

(** [a op b] for an elementwise binary operator. *)
Definition broadcast (op : R -> R -> R) (a b : ndarray) : res ndarray :=
  match bdim (rows2 a) (rows2 b), bdim (cols2 a) (cols2 b) with
  | Some m, Some n =>
      Val (mk_array (Nat.max (ndim a) (ndim b)) m n
             (fun i j => op (at2 a (bidx (rows2 a) m i) (bidx (cols2 a) n j))
                            (at2 b (bidx (rows2 b) m i) (bidx (cols2 b) n j))))
  | _, _ => Exc (ValueError "operands could not be broadcast together")
  end.

Definition np_add := broadcast Rplus.
Definition np_sub := broadcast Rminus.
Definition np_mul := broadcast Rmult.

(** [g(a)] elementwise, and the scalar forms [c * a], [c / a], [c - a]. *)
Definition amap (g : R -> R) (a : ndarray) : ndarray :=
  match a with
  | Arr0 x => Arr0 (g x)
  | Arr1 n v => Arr1 n (fun i => g (v i))
  | Arr2 m n f => Arr2 m n (fun i j => g (f i j))
  end.

Definition scalar_mul (c : R) (a : ndarray) : res ndarray := Val (amap (Rmult c) a).
Definition scalar_div (c : R) (a : ndarray) : res ndarray := Val (amap (Rdiv c) a).
Definition scalar_sub (c : R) (a : ndarray) : res ndarray := Val (amap (Rminus c) a).
Definition div_scalar (c : R) (a : ndarray) : res ndarray :=
  Val (amap (fun x => x / c) a).

(** [a.copy()]. *)
Definition np_copy (a : ndarray) : res ndarray := Val a.

(** [np.power(a, 2.0)], [np.power(a, -2.0)] and [np.power(a, 0.5)]. *)
Definition np_power_2 (a : ndarray) : res ndarray := Val (amap (fun x => x * x) a).
Definition np_power_neg2 (a : ndarray) : res ndarray := Val (amap (fun x => / (x * x)) a).
Definition np_power_half (a : ndarray) : res ndarray := Val (amap sqrt a).

(** [np.mean(a, axis=1)] and [a.mean(axis=1)]. *)
Definition np_mean_axis1 (a : ndarray) : res ndarray :=
  match a with
  | Arr2 m n f => Val (Arr1 m (fun i => Rsum n (f i) / INR n))
  | _ => Exc (ValueError "axis 1 is out of bounds")
  end.

(** [np.std(a, axis=1)]: the population standard deviation of each row. *)
Definition np_std_axis1 (a : ndarray) : res ndarray :=
  match a with
  | Arr2 m n f =>
      Val (Arr1 m (fun i =>
             let mu := Rsum n (f i) / INR n in
             sqrt (Rsum n (fun j => (f i j - mu) * (f i j - mu)) / INR n)))
  | _ => Exc (ValueError "axis 1 is out of bounds")
  end.

(** [v[:, np.newaxis]] and [v[np.newaxis, :]] of a vector.  On a matrix
    they give three dimensions, which the program never builds. *)
Definition newaxis_col (a : ndarray) : res ndarray :=
  match a with
  | Arr1 n v => Val (Arr2 n 1 (fun i _ => v i))
  | _ => Exc (ValueError "newaxis: not a vector")
  end.

Definition newaxis_row (a : ndarray) : res ndarray :=
  match a with
  | Arr1 n v => Val (Arr2 1 n (fun _ j => v j))
  | _ => Exc (ValueError "newaxis: not a vector")
  end.

(** [a.reshape(m, 1)]. *)
Definition reshape_col (m : nat) (a : ndarray) : res ndarray :=
  if (size a =? m)%nat then Val (Arr2 m 1 (fun i _ => flat a i))
  else Exc (ValueError "cannot reshape array").

(** [np.squeeze(a)]: the axes of length one are dropped. *)
Definition np_squeeze (a : ndarray) : res ndarray :=
  match a with
  | Arr0 x => Val (Arr0 x)
  | Arr1 n v => if (n =? 1)%nat then Val (Arr0 (v 0%nat)) else Val (Arr1 n v)
  | Arr2 m n f =>
      if (m =? 1)%nat then
        if (n =? 1)%nat then Val (Arr0 (f 0%nat 0%nat)) else Val (Arr1 n (f 0%nat))
      else if (n =? 1)%nat then Val (Arr1 m (fun i => f i 0%nat))
      else Val (Arr2 m n f)
  end.

(** [a.T]. *)
Definition transpose (a : ndarray) : res ndarray :=
  match a with
  | Arr2 m n f => Val (Arr2 n m (fun i j => f j i))
  | _ => Val a
  end.

(** [a[:, 0:p]] of a matrix and [v[0:p]] of a vector. *)
Definition slice_cols (p : nat) (a : ndarray) : res ndarray :=
  match a with
  | Arr2 m n f => Val (Arr2 m (Nat.min p n) f)
  | _ => Exc (ValueError "too many indices for array")
  end.

Definition slice_prefix (p : nat) (a : ndarray) : res ndarray :=
  match a with
  | Arr0 _ => Exc (ValueError "too many indices for array")
  | Arr1 n v => Val (Arr1 (Nat.min p n) v)
  | Arr2 m n f => Val (Arr2 (Nat.min p m) n f)
  end.

(** [len(a)]. *)
Definition len (a : ndarray) : res nat :=
  match a with
  | Arr0 _ => Exc TypeError
  | Arr1 n _ => Val n
  | Arr2 m _ _ => Val m
  end.

(** [m, n = a.shape]: the unpacking fails unless [a] has two dimensions. *)
Definition shape2 (a : ndarray) : res (nat * nat) :=
  match a with
  | Arr2 m n _ => Val (m, n)
  | _ => Exc (ValueError "not enough values to unpack")
  end.

(** [1 in a.shape]. *)
Definition one_in_shape (a : ndarray) : bool :=
  existsb (Nat.eqb 1) (shape a).

(** [np.sum(v)] and the contents of a vector as a list. *)
Definition to_list (a : ndarray) : list R :=
  match a with
  | Arr0 x => [x]
  | Arr1 n v => map v (seq 0 n)
  | Arr2 m n f => map (fun k => f (k / n)%nat (k mod n)%nat) (seq 0 (m * n))
  end.

Definition of_list (l : list R) : ndarray :=
  Arr1 (List.length l) (fun i => nth i l 0).

Definition np_sum (a : ndarray) : R := fold_right Rplus 0 (to_list a).

(** [np.diag(a)] of a matrix. *)
Definition np_diag (a : ndarray) : res ndarray :=
  match a with
  | Arr2 m n f => Val (Arr1 (Nat.min m n) (fun i => f i i))
  | Arr1 n v => Val (Arr2 n n (fun i j => if (i =? j)%nat then v i else 0))
  | Arr0 _ => Exc (ValueError "Input must be 1- or 2-d")
  end.

(** The contents of [a] after [np.fill_diagonal(a, val)], for the square
    [a] and the full-length [val] the program passes. *)
Definition fill_diagonal (a val : ndarray) : res ndarray :=
  match a, val with
  | Arr2 m n f, Arr1 k v =>
      if ((m =? n) && (k =? n))%nat%bool
      then Val (Arr2 m n (fun i j => if (i =? j)%nat then v i else f i j))
      else Exc (ValueError "fill_diagonal: shape mismatch")
  | _, _ => Exc (ValueError "fill_diagonal: array must be at least 2-d")
  end.

(** The contents of [a] after [a[a < 0] = 0]. *)
Definition clip_negative (a : ndarray) : res ndarray :=
  Val (amap (fun x => if Rlt_dec x 0 then 0 else x) a).

(** [np.append(v, np.zeros(k))]. *)
Definition append_zeros (k : nat) (a : ndarray) : res ndarray :=
  let l := to_list a in
  Val (Arr1 (List.length l + k)
         (fun i => if (i <? List.length l)%nat then nth i l 0 else 0)).

(** ** BLAS *)

(** [blas.dgemm(alpha, a, b)] = [alpha * a @ b]. *)
Definition dgemm (alpha : R) (a b : ndarray) : res ndarray :=
  match a, b with
  | Arr2 m k f, Arr2 k' n g =>
      if (k =? k')%nat
      then Val (Arr2 m n (fun i j => alpha * mmul k f g i j))
      else Exc BlasError
  | _, _ => Exc BlasError
  end.

(** [blas.dgemv(alpha, a, x)] = [alpha * a @ x] for a vector [x] at least
    as long as [a] has columns (the wrapper's check).  Other ranks of [x]
    are not modelled: they raise here. *)
Definition dgemv (alpha : R) (a x : ndarray) : res ndarray :=
  match a, x with
  | Arr2 m k f, Arr1 n v =>
      if (k <=? n)%nat
      then Val (Arr1 m (fun i => alpha * Rsum k (fun l => f i l * v l)))
      else Exc BlasError
  | _, _ => Exc BlasError
  end.

(** ** LAPACK: the decomposition is an oracle *)

Record svd_out : Type := {
  svd_u : nat -> nat -> R;     (* m x m *)
  svd_s : nat -> R;            (* min(m, n) singular values *)
  svd_vt : nat -> nat -> R;    (* n x n *)
  svd_info : Z
}.

Definition svd_oracle : Type := nat -> nat -> (nat -> nat -> R) -> svd_out.

(** [u, s, vt, ierr = lap.dgesvd(a)]: three new arrays and a status. *)
Definition lap_dgesvd (dgesvd : svd_oracle) (o : pyobj)
  : M (pyobj * pyobj * pyobj * Z) :=
  a <- deref TypeError o ;;
  match a with
  | Arr2 m n f =>
      let r := dgesvd m n f in
      u <- alloc (Arr2 m m (svd_u r)) ;;
      s <- alloc (Arr1 (Nat.min m n) (svd_s r)) ;;
      vt <- alloc (Arr2 n n (svd_vt r)) ;;
      ret (u, s, vt, svd_info r)
  | _ => raise BlasError
  end.

Notation "' pat <- c ;; k" := (bind c (fun x => match x with pat => k end))
  (at level 61, pat pattern, c at next level, right associativity) : monad_scope.

(** ** Strings *)

(** [str.lower()] on the ASCII letters. *)
Definition lower_ascii (c : ascii) : ascii :=
  let n := nat_of_ascii c in
  if ((65 <=? n) && (n <=? 90))%nat%bool then ascii_of_nat (n + 32) else c.

Fixpoint lower (s : string) : string :=
  match s with
  | EmptyString => EmptyString
  | String c t => String (lower_ascii c) (lower t)
  end.

(** [s in l] for a list of strings. *)
Definition str_in (s : string) (l : list string) : bool :=
  existsb (String.eqb s) l.

(** ** class Analysis *)

Record Analysis : Type := {
  self_K : pyobj;
  self_H : pyobj;
  self_R : pyobj;
  self_E : pyobj;
  self_D : pyobj;
  self_d : pyobj;
  self_truncation : option R;
  self_truncation_percent : R;
  self_verbose : bool;
  self_method : string
}.

(** The statement [ValueError("...")]: the exception object is built and
    dropped; nothing is raised. *)
Definition ValueError_unraised (msg : string) : M unit := ret tt.

Definition when (b : bool) (c : M unit) : M unit := if b then c else ret tt.

Definition is_None (o : pyobj) : bool :=
  match o with None => true | Some _ => false end.

(** [Analysis.__init__] (lines 12-115).  [randn] is the sample that
    [np.random.randn(m1, N1)] draws. *)
Definition __init__ (randn : nat -> nat -> R)
    (K H D d R_ : pyobj) (method : string) (err_std err_perc : option R)
    (E : pyobj) (truncation : option R) (truncation_percent : R)
    (verbose : bool) : M Analysis :=
  (* Get and check the dimensions *)
  Ha <- deref AttributeError H ;;
  '(m1, N1) <- lift (shape2 Ha) ;;
  Ka <- deref AttributeError K ;;
  '(n1, N2) <- lift (shape2 Ka) ;;
  '(d, E) <-
    (if negb (is_None E) then
       Ea <- deref AttributeError E ;;
       '(m2, N3) <- lift (shape2 Ea) ;;
       when (negb (m1 =? m2)%nat)
         (ValueError_unraised
            "    The number of measurements (m) must be the same in H and E") ;;;
       when (negb (N1 =? N2)%nat)
         (ValueError_unraised
            "    The number of realizations (n) must be the same in H and E") ;;;
       ret (d, E)
     else if negb (is_None R_) then
       (* m3, m3 = E.shape, with E None *)
       Ea <- deref AttributeError E ;;
       '(_, m3) <- lift (shape2 Ea) ;;
       when (negb (m1 =? m3)%nat)
         (ValueError_unraised
            "    The number of measurements (m) must be the same in H and R") ;;;
       ret (d, E)
     else
       if is_None d then
         Da <- deref AttributeError D ;;
         '(m4, N4) <- lift (shape2 Da) ;;
         when (negb (m4 =? m1)%nat)
           (ValueError_unraised
              "    The number of measurements (m) must be the same in H and D") ;;;
         when (is_None D)
           (ValueError_unraised
              "    You need to supply d, D, E, or R to compute measurement errors") ;;;
         d <- new1 TypeError np_mean_axis1 D ;;
         t <- new1 AttributeError (reshape_col m1) d ;;
         E <- new2 TypeError np_sub D t ;;
         (* E - E.mean(axis=1).reshape(m1, 1): evaluated, not assigned *)
         t <- new1 AttributeError np_mean_axis1 E ;;
         t <- new1 AttributeError (reshape_col m1) t ;;
         _ <- new2 TypeError np_sub E t ;;
         ret (d, E)
       else
         da <- deref AttributeError d ;;
         d <- (if (one_in_shape da || (ndim da =? 1)%nat)%bool
               then new1 AttributeError (reshape_col m1) d
               else ret d) ;;
         if is_None D then
           match err_std, err_perc with
           | Some sd, _ =>
               rn <- alloc (Arr2 m1 N1 randn) ;;
               E <- new1 TypeError (scalar_mul sd) rn ;;
               ret (d, E)
           | None, Some pc =>
               t <- new1 TypeError np_std_axis1 H ;;
               err_std <- new1 TypeError (scalar_mul pc) t ;;
               rn <- alloc (Arr2 m1 N1 randn) ;;
               E <- new2 TypeError np_mul err_std rn ;;
               ret (d, E)
           | None, None =>
               (* print(" No information is available ...") *)
               ret (d, E)
           end
         else
           E <- new2 TypeError np_sub D d ;;
           (* E - E.mean(axis=1).reshape(m1, 1): evaluated, not assigned *)
           t <- new1 AttributeError np_mean_axis1 E ;;
           t <- new1 AttributeError (reshape_col m1) t ;;
           _ <- new2 TypeError np_sub E t ;;
           ret (d, E)) ;;
  when (negb (str_in (lower method) ["enkf"; "sqrtkf"]%string))
    (ValueError_unraised " Mode is supported") ;;;
  (* generate D *)
  '(d, D) <-
    (if is_None D then
       when (is_None d) (ValueError_unraised "Error : Obs vector is not passed.") ;;;
       when (is_None E)
         (ValueError_unraised "Error: measurements can not be perturbed") ;;;
       da <- deref AttributeError d ;;
       d <- (if one_in_shape da then
               (* while np.rank(d) > 1: d = np.squeeze(d); np.rank is the
                  number of dimensions, and the array has a unit axis, so
                  one pass leaves at most one dimension *)
               if (1 <? ndim da)%nat then new1 TypeError np_squeeze d else ret d
             else ret d) ;;
       da <- deref AttributeError d ;;
       n <- lift (len da) ;;
       d <- new1 AttributeError (reshape_col n) d ;;
       D <- new2 TypeError np_add d E ;;
       ret (d, D)
     else ret (d, D)) ;;
  ret {| self_K := K; self_H := H; self_R := R_; self_E := E; self_D := D;
         self_d := d; self_truncation := truncation;
         self_truncation_percent := truncation_percent;
         self_verbose := verbose; self_method := lower method |}.

(** ** The truncation of the spectrum (lines 150-166 and 200-216) *)

Definition Rgeb (x y : R) : bool := if Rle_dec y x then true else false.
Definition Rltb (x y : R) : bool := if Rlt_dec x y then true else false.

(** One entry of the mask [s_perc >= truncation], where
    [s_perc = s_ / np.sum(s_)].  With a zero sum the quotient of a zero
    entry is NaN, which compares false; that of a positive entry is
    +inf, that of a negative one -inf. *)
Definition ge_share (sums t x : R) : bool :=
  if Req_dec_T sums 0 then Rltb 0 x else Rgeb (x / sums) t.

(** The boolean mask: [s_perc >= truncation] without an explicit
    truncation, [s_ >= truncation] with one. *)
Definition mask (truncation : option R) (truncation_percent : R)
    (s_ : list R) : list bool :=
  match truncation with
  | None =>
      let sums := fold_right Rplus 0 s_ in
      let truncation := truncation_percent / 100 in
      map (ge_share sums truncation) s_
  | Some truncation => map (fun x => Rgeb x truncation) s_
  end.

(** [v[mask]]: the entries of [v] where the mask is True, in order. *)
Fixpoint select (mask : list bool) (v : list R) : list R :=
  match mask, v with
  | b :: mask', x :: v' => if b then x :: select mask' v' else select mask' v'
  | _, _ => []
  end.

Definition retained (truncation : option R) (truncation_percent : R)
    (s_ : list R) : list R :=
  select (mask truncation truncation_percent s_) s_.

(** [s_ = s_[mask]] as a call on the array. *)
Definition mask_select (truncation : option R) (truncation_percent : R)
    (a : ndarray) : res ndarray :=
  match a with
  | Arr1 _ _ => Val (of_list (retained truncation truncation_percent (to_list a)))
  | _ => Exc (ValueError "boolean index did not match indexed array")
  end.

(** From [s_ = np.power(s, 2.0)] to [u[:, 0:p]]: the text is the same in
    [EnKF] and in [Sqrt_KF].  The result is [p], the inverted retained
    energies and the first [p] columns of [u]. *)
Definition truncate (self : Analysis) (u s : pyobj) : M (nat * pyobj * pyobj) :=
  s_ <- new1 TypeError np_power_2 s ;;
  (* sums_ = np.sum(s_) is only printed *)
  s_ <- (match self_truncation self with
         | None =>
             sa <- deref TypeError s_ ;;
             _ <- new1 TypeError (div_scalar (np_sum sa)) s_ ;;     (* s_perc *)
             new1 TypeError
               (mask_select None (self_truncation_percent self)) s_
         | Some t =>
             new1 TypeError (mask_select (Some t) (self_truncation_percent self)) s_
         end) ;;
  sa <- deref TypeError s_ ;;
  p <- lift (len sa) ;;
  s_ <- new1 TypeError (scalar_div 1) s_ ;;
  u <- new1 TypeError (slice_cols p) u ;;
  ret (p, s_, u).

(** ** EnKF (lines 127-175) *)

Definition EnKF (dgesvd : svd_oracle) (self : Analysis) : M pyobj :=
  (* Compute ensemble prior means *)
  let inflation_factor := 1 in
  t <- new1 TypeError np_mean_axis1 (self_H self) ;;
  t <- new1 TypeError newaxis_col t ;;
  H_dash <- new2 TypeError np_sub (self_H self) t ;;
  t <- new1 TypeError (scalar_mul inflation_factor) (self_E self) ;;
  HE <- new2 TypeError np_add H_dash t ;;
  t <- new1 TypeError np_mean_axis1 (self_K self) ;;
  t <- new1 TypeError newaxis_col t ;;
  K_dash <- new2 TypeError np_sub (self_K self) t ;;
  D_dash <- new2 TypeError np_sub (self_D self) (self_H self) ;;
  (* SVD of matrix C *)
  '(u, s, vt, ierr) <- lap_dgesvd dgesvd HE ;;
  when (negb (ierr =? 0)%Z)
    (ValueError_unraised "Sqrt_KF: ierr from call dgesvd = {}") ;;;
  '(p, s_, u) <- truncate self u s ;;
  t <- new1 TypeError newaxis_col s_ ;;
  ut <- new1 TypeError transpose u ;;
  x1 <- new2 TypeError np_mul t ut ;;
  x2 <- new2 TypeError (dgemm 1) x1 D_dash ;;
  x3 <- new2 TypeError (dgemm 1) u x2 ;;
  Ht <- new1 TypeError transpose H_dash ;;
  x4 <- new2 TypeError (dgemm 1) Ht x3 ;;
  t <- new2 TypeError (dgemm 1) K_dash x4 ;;
  Aa <- new2 TypeError np_add (self_K self) t ;;
  ret Aa.

(** ** Sqrt_KF (lines 177-251), in the four steps of its text *)

Record srkf_state : Type := {
  st_N : nat;
  st_H_dash : pyobj;
  st_K_dash : pyobj;
  st_u_ : pyobj;
  st_sig : pyobj;
  st_p : nat;
  st_Ka : pyobj
}.

(** Lines 184-223: anomalies, decomposition, truncation, analysed mean. *)
Definition Sqrt_KF_mean (dgesvd : svd_oracle) (self : Analysis) : M srkf_state :=
  prior_k_mean <- new1 TypeError np_mean_axis1 (self_K self) ;;
  prior_h_mean <- new1 TypeError np_mean_axis1 (self_H self) ;;
  innov <- new2 TypeError np_sub (self_d self) prior_h_mean ;;
  Ka_ <- deref AttributeError (self_K self) ;;
  '(n, N) <- lift (shape2 Ka_) ;;
  t <- new1 TypeError np_mean_axis1 (self_H self) ;;
  t <- new1 TypeError newaxis_col t ;;
  H_dash <- new2 TypeError np_sub (self_H self) t ;;
  HE <- new2 TypeError np_add H_dash (self_E self) ;;
  t <- new1 TypeError np_mean_axis1 (self_K self) ;;
  t <- new1 TypeError newaxis_col t ;;
  K_dash <- new2 TypeError np_sub (self_K self) t ;;
  (* SVD of matrix C *)
  '(u, s, vt, ierr) <- lap_dgesvd dgesvd HE ;;
  when (negb (ierr =? 0)%Z)
    (ValueError_unraised "Sqrt_KF: ierr from call dgesvd = {}") ;;;
  sig <- new1 AttributeError np_copy s ;;
  '(p, s_, u_) <- truncate self u s ;;
  t <- new1 TypeError newaxis_col s_ ;;
  ut <- new1 TypeError transpose u_ ;;
  x1 <- new2 TypeError np_mul t ut ;;
  x2 <- new2 TypeError (dgemv 1) x1 innov ;;
  x3 <- new2 TypeError (dgemv 1) u_ x2 ;;
  Ht <- new1 TypeError transpose H_dash ;;
  x4 <- new2 TypeError (dgemv 1) Ht x3 ;;
  t <- new2 TypeError (dgemv 1) K_dash x4 ;;
  Ka <- new2 TypeError np_add prior_k_mean t ;;
  ret {| st_N := N; st_H_dash := H_dash; st_K_dash := K_dash; st_u_ := u_;
         st_sig := sig; st_p := p; st_Ka := Ka |}.

(** Lines 225-234: the matrix handed to the second decomposition. *)
Definition Sqrt_KF_spread (st : srkf_state) : M pyobj :=
  (* compute C^-1 *)
  t <- new1 TypeError (slice_prefix (st_p st)) (st_sig st) ;;
  sig <- new1 TypeError np_power_neg2 t ;;
  t <- new1 TypeError newaxis_col sig ;;
  ut <- new1 TypeError transpose (st_u_ st) ;;
  x2 <- new2 TypeError np_mul t ut ;;
  c_1 <- new2 TypeError (dgemm 1) (st_u_ st) x2 ;;
  (* I - Y(C^-1)Y *)
  c_1 <- new2 TypeError (dgemm 1) c_1 (st_H_dash st) ;;
  Ht <- new1 TypeError transpose (st_H_dash st) ;;
  c_1 <- new2 TypeError (dgemm 1) Ht c_1 ;;
  t <- new1 TypeError np_diag c_1 ;;
  diag <- new1 TypeError (scalar_sub 1) t ;;
  (* np.fill_diagonal(c_1, diag): in place *)
  a <- deref TypeError c_1 ;;
  v <- deref TypeError diag ;;
  r <- lift (fill_diagonal a v) ;;
  store TypeError c_1 r ;;;
  ret c_1.

(** Lines 236-244: decompose it and build the transform. *)
Definition Sqrt_KF_transform (dgesvd : svd_oracle) (N : nat) (c_1 : pyobj)
  : M pyobj :=
  '(u2, sig2, vt2, ierr) <- lap_dgesvd dgesvd c_1 ;;
  (* sig2[sig2 < 0] = 0: in place *)
  a <- deref TypeError sig2 ;;
  r <- lift (clip_negative a) ;;
  store TypeError sig2 r ;;;
  sig2 <- new1 TypeError np_power_half sig2 ;;
  sa <- deref TypeError sig2 ;;
  p2 <- lift (len sa) ;;
  sig2 <- (if (p2 <? N)%nat
           then new1 TypeError (append_zeros (N - p2)) sig2
           else ret sig2) ;;
  t <- new1 TypeError newaxis_row sig2 ;;
  x2 <- new2 TypeError np_mul u2 t ;;
  new2 TypeError (dgemm 1) x2 vt2.

(** Lines 246-251: perturbations, random rotation, posterior ensemble.
    [theta] is the matrix that [ortho_group.rvs(N)] draws. *)
Definition Sqrt_KF_rotate (theta : nat -> nat -> R) (st : srkf_state)
    (x2 : pyobj) : M pyobj :=
  x2 <- new2 TypeError (dgemm 1) (st_K_dash st) x2 ;;
  theta <- alloc (Arr2 (st_N st) (st_N st) theta) ;;
  tT <- new1 TypeError transpose theta ;;
  x2 <- new2 TypeError (dgemm 1) x2 tT ;;
  t <- new1 TypeError newaxis_col (st_Ka st) ;;
  Aa <- new2 TypeError np_add t x2 ;;
  ret Aa.

Definition Sqrt_KF (dgesvd : svd_oracle) (theta : nat -> nat -> R)
    (self : Analysis) : M pyobj :=
  st <- Sqrt_KF_mean dgesvd self ;;
  c_1 <- Sqrt_KF_spread st ;;
  x2 <- Sqrt_KF_transform dgesvd (st_N st) c_1 ;;
  Sqrt_KF_rotate theta st x2.

(** ** update (lines 117-125) *)

Definition update (dgesvd : svd_oracle) (theta : nat -> nat -> R)
    (self : Analysis) : M pyobj :=
  if String.eqb (self_method self) "enkf" then EnKF dgesvd self
  else if String.eqb (self_method self) "sqrtkf" then Sqrt_KF dgesvd theta self
  else raise (ValueError "Unknown method...").

(** * Vocabulary of the statements *)

(** The variable [o] refers to the array [a] in the store [h]. *)
Definition holds (h : heap) (o : pyobj) (a : ndarray) : Prop :=
  exists l, o = Some l /\ nth_error h l = Some a.

(** Every object of [h] is still there, unchanged, in [h']. *)
Definition preserves (h h' : heap) : Prop :=
  forall l a, nth_error h l = Some a -> nth_error h' l = Some a.

(** [o] refers to an object that did not exist in [h]. *)
Definition fresh (h : heap) (o : pyobj) : Prop :=
  exists l, o = Some l /\ (List.length h <= l)%nat.

(** Every row of a matrix has zero sum, that is, zero mean. *)
Definition row_centred (a : ndarray) : Prop :=
  forall i, (i < rows2 a)%nat -> Rsum (cols2 a) (at2 a i) = 0.

(** ** Concrete inputs *)

Definition zeros (m n : nat) : ndarray := Arr2 m n (fun _ _ => 0).

(** The sample of [np.random.randn] in runs that do not draw it. *)
Definition no_draw : nat -> nat -> R := fun _ _ => 0.

(** K is 1x3, H is 1x2, E is 2x2 and D is 1x2: E has one row too many
    and K one realization too many. *)
Definition mismatched_store : heap :=
  [zeros 1 3; zeros 1 2; zeros 2 2; zeros 1 2].

(** K, H, E and D, all 1x2. *)
Definition consistent_store : heap :=
  [zeros 1 2; zeros 1 2; zeros 1 2; zeros 1 2].

(** K, H, the perturbed observations D = [[1, 3]] and the observation
    d = [0]. *)
Definition D_and_d_store : heap :=
  [zeros 1 2; zeros 1 2;
   Arr2 1 2 (fun _ j => if (j =? 0)%nat then 1 else 3);
   Arr1 1 (fun _ => 0)].

(** ** Truncation *)

(** The squared singular values [np.power(s, 2.0)] and their sum. *)
Definition energies (s : list R) : list R := map (fun x => x * x) s.

Definition total (l : list R) : R := fold_right Rplus 0 l.

(** [p], the number of retained singular values, for the spectrum [s]. *)
Definition kept_count (truncation : option R) (truncation_percent : R)
    (s : list R) : nat :=
  List.length (retained truncation truncation_percent (energies s)).

(** The share of entry [i] alone, and the two cumulative shares an
    ordered spectrum has at [i]: of the entries up to [i], and of the
    entries from [i] on. *)
Definition own_share (s_ : list R) (i : nat) : R := nth i s_ 0 / total s_.

Definition cumulative_share (s_ : list R) (i : nat) : R :=
  total (firstn (S i) s_) / total s_.

Definition tail_share (s_ : list R) (i : nat) : R :=
  total (skipn i s_) / total s_.

(** The test the mask applies to one entry of [s_]. *)
Definition keeps (truncation : option R) (truncation_percent : R)
    (s_ : list R) : R -> bool :=
  match truncation with
  | None => ge_share (total s_) (truncation_percent / 100)
  | Some t => fun x => Rgeb x t
  end.

(** A problem instance whose arrays are the first five objects of the
    store: K, H, E, D and d. *)
Definition instance (method : string) (truncation : option R) : Analysis :=
  {| self_K := Some 0%nat; self_H := Some 1%nat; self_R := None;
     self_E := Some 2%nat; self_D := Some 3%nat; self_d := Some 4%nat;
     self_truncation := truncation; self_truncation_percent := 1 / 100;
     self_verbose := true; self_method := method |}.

(** A 1x1 matrix of left singular vectors and the spectrum [5]. *)
Definition spectrum_store : heap :=
  [Arr2 1 1 (fun _ _ => 1); Arr1 1 (fun _ => 5)].

(** ** Matrices as the formulas of the specification write them *)

(** The anomalies of an ensemble: each row minus its mean over [N] columns. *)
Definition centre (N : nat) (A : nat -> nat -> R) : nat -> nat -> R :=
  fun i j => A i j - Rsum N (A i) / INR N.
Definition mtrans (A : nat -> nat -> R) : nat -> nat -> R := fun i j => A j i.
Definition mdiag (v : nat -> R) : nat -> nat -> R :=
  fun i j => if (i =? j)%nat then v i else 0.
Definition madd (A B : nat -> nat -> R) : nat -> nat -> R := fun i j => A i j + B i j.
Definition msub (A B : nat -> nat -> R) : nat -> nat -> R := fun i j => A i j - B i j.

(** The analysed ensemble of the stochastic filter, product by product:
    Ka = K + K_dash H_dash^T U_p diag(1/S_kept) U_p^T (D - H). *)
Definition EnKF_formula (dgesvd : svd_oracle) (truncation : option R)
    (truncation_percent : R) (m N : nat) (K H D E : nat -> nat -> R)
  : nat -> nat -> R :=
  let H_dash := centre N H in
  let K_dash := centre N K in
  let HE := madd H_dash (fun i j => 1 * E i j) in
  let usv := dgesvd m N HE in
  let S_kept :=
    retained truncation truncation_percent
      (energies (map (svd_s usv) (seq 0 (Nat.min m N)))) in
  let p := List.length S_kept in
  let Up := svd_u usv in
  madd K
    (mmul m
       (mmul p
          (mmul p (mmul m (mmul N K_dash (mtrans H_dash)) Up)
             (mdiag (fun i => 1 / nth i S_kept 0)))
          (mtrans Up))
       (msub D H)).

(** ** The square-root filter *)

Definition mid : nat -> nat -> R := fun i j => if (i =? j)%nat then 1 else 0.

(** [Q] is orthogonal: Q Q^T = Q^T Q = I, on N rows and columns. *)
Definition orthogonal (N : nat) (Q : nat -> nat -> R) : Prop :=
  forall i j, (i < N)%nat -> (j < N)%nat ->
    mmul N Q (mtrans Q) i j = mid i j /\ mmul N (mtrans Q) Q i j = mid i j.

(** What a full decomposition of the m x n matrix [a] is: a = U diag(S)
    Vt with orthogonal U and Vt, and S non-negative and decreasing. *)
Definition svd_valid (m n : nat) (a : nat -> nat -> R) (r : svd_out) : Prop :=
  svd_info r = 0%Z
  /\ orthogonal m (svd_u r)
  /\ orthogonal n (svd_vt r)
  /\ (forall k, (k < Nat.min m n)%nat -> 0 <= svd_s r k)
  /\ (forall k, (S k < Nat.min m n)%nat -> svd_s r (S k) <= svd_s r k)
  /\ forall i j, (i < m)%nat -> (j < n)%nat ->
       a i j = Rsum (Nat.min m n) (fun k => svd_u r i k * svd_s r k * svd_vt r k j).

(** The matrix that [Sqrt_KF] hands to the second decomposition, from
    the anomalies [Hd], the left singular vectors [U] and the singular
    values [S], of which [p] are retained. *)
Definition spread_matrix (m p : nat) (Hd U : nat -> nat -> R) (S : nat -> R)
  : nat -> nat -> R :=
  let A := mmul m (mtrans Hd)
             (mmul m (mmul p U (fun c e => / (S c * S c) * U e c)) Hd) in
  fun i j => if (i =? j)%nat then 1 - A i i else A i j.

(** The formulas of the specification: C^-1 = U_p diag(S^-2) U_p^T and
    M = I - H_dash^T C^-1 H_dash. *)
Definition C_inverse (p : nat) (U : nat -> nat -> R) (S : nat -> R)
  : nat -> nat -> R :=
  mmul p (mmul p U (mdiag (fun c => / (S c * S c)))) (mtrans U).

Definition M_matrix (m p : nat) (Hd U : nat -> nat -> R) (S : nat -> R)
  : nat -> nat -> R :=
  fun i j => mid i j - mmul m (mmul m (mtrans Hd) (C_inverse p U S)) Hd i j.

(** [sig2[sig2 < 0] = 0] on one entry, and the transform
    U2 diag(sqrt(sig2)) Vt2 built from the second decomposition. *)
Definition clip (x : R) : R := if Rlt_dec x 0 then 0 else x.

Definition transform_matrix (N : nat) (U2 Vt2 : nat -> nat -> R)
    (S2 : nat -> R) : nat -> nat -> R :=
  mmul N (fun a b => U2 a b * sqrt (clip (S2 b))) Vt2.

(** The transform that [Sqrt_KF] computes on H (m x N) and E. *)
Definition SRKF_transform (dgesvd : svd_oracle) (truncation : option R)
    (truncation_percent : R) (m N : nat) (H E : nat -> nat -> R)
  : nat -> nat -> R :=
  let Hd := centre N H in
  let usv := dgesvd m N (madd Hd E) in
  let p := List.length
             (retained truncation truncation_percent
                (energies (map (svd_s usv) (seq 0 (Nat.min m N))))) in
  let usv2 := dgesvd N N (spread_matrix m p Hd (svd_u usv) (svd_s usv)) in
  transform_matrix N (svd_u usv2) (svd_vt usv2) (svd_s usv2).

(** The scatter of an ensemble about a centre [c], and its sample
    covariance (about its own mean, with N - 1 in the denominator). *)
Definition scatter (N : nat) (A : nat -> nat -> R) (c : nat -> R)
    (i k : nat) : R :=
  Rsum N (fun j => (A i j - c i) * (A k j - c k)).

Definition row_mean (N : nat) (A : nat -> nat -> R) (i : nat) : R :=
  Rsum N (A i) / INR N.

Definition sample_cov (N : nat) (A : nat -> nat -> R) (i k : nat) : R :=
  scatter N A (row_mean N A) i k / (INR N - 1).

(** ** Concrete inputs of the square-root filter *)

(** The reflection diag(1, -1): orthogonal, and it does not fix the
    vector of ones. *)
Definition flip : nat -> nat -> R :=
  fun i j => if (i =? j)%nat then (if (i =? 1)%nat then -1 else 1) else 0.

(** The exchange of two realizations: orthogonal, and it fixes the
    vector of ones. *)
Definition swap : nat -> nat -> R :=
  fun i j => if (i + j =? 1)%nat then 1 else 0.

(** An oracle that answers U = I, S = (1, 1, ...), Vt = I: a full
    decomposition of every matrix whose first min(m, n) rows are those
    of the identity. *)
Definition unit_oracle : svd_oracle :=
  fun _ _ _ => {| svd_u := mid; svd_s := fun _ => 1; svd_vt := mid;
                  svd_info := 0%Z |}.

(** K = [[1, -1]], H = [[0, 0]], E = [[1, 0]], d = [0] and D = d + E. *)
Definition K_1_m1 : nat -> nat -> R := fun _ j => if (j =? 0)%nat then 1 else -1.
Definition E_1_0 : nat -> nat -> R := fun _ j => if (j =? 0)%nat then 1 else 0.

Definition srkf_store : heap :=
  [Arr2 1 2 K_1_m1; zeros 1 2; Arr2 1 2 E_1_0; Arr2 1 2 E_1_0;
   Arr1 1 (fun _ => 0)].

(** An oracle that answers U = [[1]], S = (5), Vt = [[3/5, 4/5],
    [-4/5, 3/5]]: a full decomposition of [[3, 4]]. *)
Definition Vt_3_4 : nat -> nat -> R :=
  fun i j =>
    match i, j with
    | O, O => 3 / 5
    | O, S O => 4 / 5
    | S O, O => - (4 / 5)
    | S O, S O => 3 / 5
    | _, _ => 0
    end.

Definition oracle_3_4 : svd_oracle :=
  fun _ _ _ => {| svd_u := mid; svd_s := fun _ => 5; svd_vt := Vt_3_4;
                  svd_info := 0%Z |}.

(** K = H = [[1, -1]], E = [[2, 5]], d = [0] and D = d + E; the
    anomalies of H are H itself and H_dash + E = [[3, 4]]. *)
Definition E_2_5 : nat -> nat -> R := fun _ j => if (j =? 0)%nat then 2 else 5.

Definition spread_store : heap :=
  [Arr2 1 2 K_1_m1; Arr2 1 2 K_1_m1; Arr2 1 2 E_2_5; Arr2 1 2 E_2_5;
   Arr1 1 (fun _ => 0)].

(** The state of [Sqrt_KF] before the rotation, with the perturbations
    K_dash = [[1, -1]], the transform T = I and the analysed mean
    Ka = [0] as the first three objects of the store. *)
Definition rotate_state : srkf_state :=
  {| st_N := 2; st_H_dash := None; st_K_dash := Some 0%nat; st_u_ := None;
     st_sig := None; st_p := 0; st_Ka := Some 2%nat |}.

Definition rotate_store : heap :=
  [Arr2 1 2 K_1_m1; Arr2 2 2 mid; Arr1 1 (fun _ => 0)].

(** ** The frame of a computation *)

(** Started in any store that still has the objects of [h0] unchanged,
    [c] leaves them unchanged, and its result satisfies [Q]. *)
Definition framed {A} (h0 : heap) (c : M A) (Q : A -> Prop) : Prop :=
  forall h, preserves h0 h ->
    preserves h0 (snd (c h)) /\ forall a, fst (c h) = Val a -> Q a.

(** No object of [h] is written, and a returned array is an object that
    [h] did not have: it is none of the arrays [h] holds. *)
Definition frame_respected (h : heap) (out : res pyobj * heap) : Prop :=
  preserves h (snd out)
  /\ forall Aa, fst out = Val Aa ->
       fresh h Aa /\ forall x a, holds h x a -> Aa <> x.

(** K and H (1x2), an error covariance R (1x1), D (1x2). *)
Definition covariance_store : heap :=
  [zeros 1 2; zeros 1 2; zeros 1 1; zeros 1 2].

(** ** Further vocabulary: the constructor, the gain, the analysed mean *)

(** The population standard deviation of row [i] of an ensemble, as
    [np.std(A, axis=1)] computes it. *)
Definition row_std (N : nat) (A : nat -> nat -> R) (i : nat) : R :=
  sqrt (Rsum N (fun j => (A i j - row_mean N A i) * (A i j - row_mean N A i))
        / INR N).

(** The gain K_dash H_dash^T U_p diag(1/S_kept) U_p^T, an n x m matrix. *)
Definition gain (m N : nat) (Kd Hd U : nat -> nat -> R) (S_kept : list R)
  : nat -> nat -> R :=
  let p := List.length S_kept in
  mmul p
    (mmul p (mmul m (mmul N Kd (mtrans Hd)) U)
       (mdiag (fun i => 1 / nth i S_kept 0)))
    (mtrans U).

(** The gain that [EnKF] applies, from the decomposition of
    H_dash + 1.0 E. *)
Definition EnKF_gain (dgesvd : svd_oracle) (truncation : option R)
    (truncation_percent : R) (m N : nat) (K H E : nat -> nat -> R)
  : nat -> nat -> R :=
  let Hd := centre N H in
  let usv := dgesvd m N (madd Hd (fun i j => 1 * E i j)) in
  gain m N (centre N K) Hd (svd_u usv)
    (retained truncation truncation_percent
       (energies (map (svd_s usv) (seq 0 (Nat.min m N))))).

(** The analysed mean of [Sqrt_KF], from the decomposition of
    H_dash + E:
    Ka = mean(K) + K_dash H_dash^T U_p diag(1/S_kept) U_p^T (d - mean(H)). *)
Definition SRKF_mean (dgesvd : svd_oracle) (truncation : option R)
    (truncation_percent : R) (m N : nat) (K H E : nat -> nat -> R)
    (d : nat -> R) : nat -> R :=
  let Hd := centre N H in
  let usv := dgesvd m N (madd Hd E) in
  let G := gain m N (centre N K) Hd (svd_u usv)
             (retained truncation truncation_percent
                (energies (map (svd_s usv) (seq 0 (Nat.min m N))))) in
  fun i => row_mean N K i + Rsum m (fun c => G i c * (d c - row_mean N H c)).

(** A problem instance with another prior ensemble, with other perturbed
    observations, and without the observation vector. *)
Definition with_K (self : Analysis) (K : pyobj) : Analysis :=
  {| self_K := K; self_H := self_H self; self_R := self_R self;
     self_E := self_E self; self_D := self_D self; self_d := self_d self;
     self_truncation := self_truncation self;
     self_truncation_percent := self_truncation_percent self;
     self_verbose := self_verbose self; self_method := self_method self |}.

Definition with_D (self : Analysis) (D : pyobj) : Analysis :=
  {| self_K := self_K self; self_H := self_H self; self_R := self_R self;
     self_E := self_E self; self_D := D; self_d := self_d self;
     self_truncation := self_truncation self;
     self_truncation_percent := self_truncation_percent self;
     self_verbose := self_verbose self; self_method := self_method self |}.

Definition without_d (self : Analysis) : Analysis :=
  {| self_K := self_K self; self_H := self_H self; self_R := self_R self;
     self_E := self_E self; self_D := self_D self; self_d := None;
     self_truncation := self_truncation self;
     self_truncation_percent := self_truncation_percent self;
     self_verbose := self_verbose self; self_method := self_method self |}.

(** A spectrum in the order LAPACK returns it: no entry is larger than
    an earlier one. *)
Fixpoint non_increasing (s : list R) : Prop :=
  match s with
  | [] => True
  | x :: t => (forall y, In y t -> y <= x) /\ non_increasing t
  end.

(** ** Further concrete inputs *)

(** K (1x3), H (2x3), an observation vector d of length 2, and a square
    H (2x2). *)
Definition obs_store : heap :=
  [zeros 1 3; zeros 2 3; Arr1 2 (fun _ => 0); zeros 2 2].

(** K, H, E and D, all 1x2 and zero, and d = [0]. *)
Definition zero_store : heap :=
  (consistent_store ++ [Arr1 1 (fun _ => 0)])%list.

(** The store of [spread_store] and a sixth array, K + 1. *)
Definition offset_store : heap :=
  (spread_store ++ [Arr2 1 2 (fun i j => K_1_m1 i j + 1)])%list.

(** * Properties *)

(** ** Sums *)

Lemma Rsum_ext (n : nat) (f g : nat -> R) :
  (forall k, (k < n)%nat -> f k = g k) -> Rsum n f = Rsum n g.
Proof.
  induction n as [|n IH]; intros Hfg; simpl; [reflexivity|].
  rewrite IH by (intros; apply Hfg; lia).
  rewrite Hfg by lia. reflexivity.
Qed.

Lemma Rsum_zero (n : nat) : Rsum n (fun _ => 0) = 0.
Proof. induction n as [|n IH]; simpl; [|rewrite IH]; lra. Qed.

Lemma Rsum_plus (n : nat) (f g : nat -> R) :
  Rsum n (fun k => f k + g k) = Rsum n f + Rsum n g.
Proof. induction n as [|n IH]; simpl; [|rewrite IH]; lra. Qed.

Lemma Rsum_minus (n : nat) (f g : nat -> R) :
  Rsum n (fun k => f k - g k) = Rsum n f - Rsum n g.
Proof. induction n as [|n IH]; simpl; [|rewrite IH]; lra. Qed.

Lemma Rsum_scal_l (n : nat) (c : R) (f : nat -> R) :
  Rsum n (fun k => c * f k) = c * Rsum n f.
Proof. induction n as [|n IH]; simpl; [|rewrite IH]; lra. Qed.

Lemma Rsum_scal_r (n : nat) (c : R) (f : nat -> R) :
  Rsum n (fun k => f k * c) = Rsum n f * c.
Proof. induction n as [|n IH]; simpl; [|rewrite IH]; lra. Qed.

Lemma Rsum_const (n : nat) (c : R) : Rsum n (fun _ => c) = INR n * c.
Proof.
  induction n as [|n IH]; [simpl; lra|].
  rewrite S_INR. simpl. rewrite IH. lra.
Qed.

Lemma Rsum_swap (n m : nat) (f : nat -> nat -> R) :
  Rsum n (fun i => Rsum m (fun j => f i j))
  = Rsum m (fun j => Rsum n (fun i => f i j)).
Proof.
  induction n as [|n IH]; simpl.
  - symmetry. apply Rsum_zero.
  - rewrite IH, <- Rsum_plus. reflexivity.
Qed.

(** A sum against an indicator picks one term. *)
Lemma Rsum_pick (n j : nat) (f : nat -> R) :
  (j < n)%nat ->
  Rsum n (fun k => if (k =? j)%nat then f k else 0) = f j.
Proof.
  induction n as [|n IH]; intros Hj; [lia|]. simpl.
  destruct (Nat.eqb_spec n j) as [->|Hne].
  - rewrite (Rsum_ext j _ (fun _ => 0)).
    + rewrite Rsum_zero. lra.
    + intros k Hk. destruct (Nat.eqb_spec k j); [lia|reflexivity].
  - rewrite IH by lia. lra.
Qed.

(** ** The store *)

Lemma preserves_refl (h : heap) : preserves h h.
Proof. intros l a Hl; exact Hl. Qed.

Lemma preserves_trans (h1 h2 h3 : heap) :
  preserves h1 h2 -> preserves h2 h3 -> preserves h1 h3.
Proof. intros H12 H23 l a Hl. apply H23, H12, Hl. Qed.

Lemma preserves_app (h ext : heap) : preserves h (h ++ ext).
Proof.
  intros l a Hl. rewrite nth_error_app1; [exact Hl|].
  apply nth_error_Some. congruence.
Qed.

Lemma preserves_alloc (h0 h : heap) (a : ndarray) :
  preserves h0 h -> preserves h0 (h ++ [a]).
Proof. intros Hp. eapply preserves_trans; [exact Hp|apply preserves_app]. Qed.

Lemma holds_preserves (h h' : heap) (o : pyobj) (a : ndarray) :
  preserves h h' -> holds h o a -> holds h' o a.
Proof. intros Hp (l & -> & Hl). exists l. split; [reflexivity|apply Hp, Hl]. Qed.

Lemma holds_app (h ext : heap) (o : pyobj) (a : ndarray) :
  holds h o a -> holds (h ++ ext) o a.
Proof. apply holds_preserves, preserves_app. Qed.

Lemma holds_alloc (h : heap) (a : ndarray) :
  holds (h ++ [a]) (Some (List.length h)) a.
Proof.
  exists (List.length h). split; [reflexivity|].
  rewrite nth_error_app2 by lia. rewrite Nat.sub_diag. reflexivity.
Qed.

Lemma nth_error_replace_same (h : heap) (l : loc) (a : ndarray) :
  (l < List.length h)%nat -> nth_error (replace_nth h l a) l = Some a.
Proof.
  revert l; induction h as [|x h IH]; intros [|l] Hl; simpl in *;
    try lia; [reflexivity|]. apply IH. lia.
Qed.

Lemma nth_error_replace_other (h : heap) (l l' : loc) (a : ndarray) :
  l <> l' -> nth_error (replace_nth h l a) l' = nth_error h l'.
Proof.
  revert l l'; induction h as [|x h IH]; intros [|l] [|l'] Hne; simpl;
    try reflexivity; try congruence. apply IH. congruence.
Qed.

(** ** Running the monad *)

Lemma bind_run {A B} (c : M A) (f : A -> M B) (h h1 : heap) (a : A) :
  c h = (Val a, h1) -> bind c f h = f a h1.
Proof. intros Hc. unfold bind. rewrite Hc. reflexivity. Qed.

Lemma deref_run (e : exn) (h : heap) (o : pyobj) (a : ndarray) :
  holds h o a -> deref e o h = (Val a, h).
Proof. intros (l & -> & Hl). unfold deref. rewrite Hl. reflexivity. Qed.

Lemma new1_run (e : exn) (f : ndarray -> res ndarray) (o : pyobj)
    (h : heap) (a r : ndarray) :
  holds h o a -> f a = Val r ->
  new1 e f o h = (Val (Some (List.length h)), h ++ [r]).
Proof.
  intros Ho Hf. unfold new1.
  rewrite (bind_run _ _ _ _ _ (deref_run e _ _ _ Ho)).
  unfold bind, lift. rewrite Hf. reflexivity.
Qed.

Lemma new2_run (e : exn) (f : ndarray -> ndarray -> res ndarray)
    (o1 o2 : pyobj) (h : heap) (a b r : ndarray) :
  holds h o1 a -> holds h o2 b -> f a b = Val r ->
  new2 e f o1 o2 h = (Val (Some (List.length h)), h ++ [r]).
Proof.
  intros H1 H2 Hf. unfold new2.
  rewrite (bind_run _ _ _ _ _ (deref_run e _ _ _ H1)).
  rewrite (bind_run _ _ _ _ _ (deref_run e _ _ _ H2)).
  unfold bind, lift. rewrite Hf. reflexivity.
Qed.

Lemma store_run (e : exn) (h : heap) (l : loc) (a r : ndarray) :
  nth_error h l = Some a ->
  store e (Some l) r h = (Val tt, replace_nth h l r).
Proof.
  intros Hl. unfold store.
  assert (l < List.length h)%nat by (apply nth_error_Some; congruence).
  destruct (Nat.ltb_spec l (List.length h)); [reflexivity|lia].
Qed.

Lemma bind_assoc {A B C} (c : M A) (f : A -> M B) (g : B -> M C) (h : heap) :
  bind (bind c f) g h = bind c (fun x => bind (f x) g) h.
Proof. unfold bind. destruct (c h) as [[a|e] h1]; reflexivity. Qed.

Lemma bdim_refl (n : nat) : bdim n n = Some n.
Proof. unfold bdim. rewrite Nat.eqb_refl. reflexivity. Qed.

Lemma bdim_1_r (n : nat) : bdim n 1 = Some n.
Proof. unfold bdim. destruct (Nat.eqb_spec n 1); [subst|]; reflexivity. Qed.

Lemma bdim_1_l (n : nat) : bdim 1 n = Some n.
Proof. unfold bdim. destruct (Nat.eqb_spec 1 n); [subst|]; reflexivity. Qed.

Lemma preserves_length (h h' : heap) :
  preserves h h' -> (List.length h <= List.length h')%nat.
Proof.
  intros Hp. destruct h as [|x h] using rev_ind; [simpl; lia|].
  assert (Hl : nth_error ((h ++ [x])%list) (List.length h) = Some x).
  { rewrite nth_error_app2 by lia. rewrite Nat.sub_diag. reflexivity. }
  apply Hp in Hl.
  assert (List.length h < List.length h')%nat
    by (apply nth_error_Some; congruence).
  rewrite length_app. simpl. lia.
Qed.

(** One call, with the new store and the new reference left abstract. *)
Lemma new1_step (e : exn) (f : ndarray -> res ndarray) (o : pyobj)
    (h : heap) (a r : ndarray) :
  holds h o a -> f a = Val r ->
  exists l h',
    new1 e f o h = (Val (Some l), h')
    /\ preserves h h' /\ holds h' (Some l) r /\ (List.length h <= l)%nat.
Proof.
  intros Ho Hf. exists (List.length h), (h ++ [r])%list.
  split; [eapply new1_run; eassumption|].
  split; [apply preserves_app|]. split; [apply holds_alloc|lia].
Qed.

Lemma new2_step (e : exn) (f : ndarray -> ndarray -> res ndarray)
    (o1 o2 : pyobj) (h : heap) (a b r : ndarray) :
  holds h o1 a -> holds h o2 b -> f a b = Val r ->
  exists l h',
    new2 e f o1 o2 h = (Val (Some l), h')
    /\ preserves h h' /\ holds h' (Some l) r /\ (List.length h <= l)%nat.
Proof.
  intros H1 H2 Hf. exists (List.length h), (h ++ [r])%list.
  split; [eapply new2_run; eassumption|].
  split; [apply preserves_app|]. split; [apply holds_alloc|lia].
Qed.

Lemma alloc_step (h : heap) (r : ndarray) :
  exists l h',
    alloc r h = (Val (Some l), h')
    /\ preserves h h' /\ holds h' (Some l) r /\ (List.length h <= l)%nat.
Proof.
  exists (List.length h), (h ++ [r])%list.
  split; [reflexivity|].
  split; [apply preserves_app|]. split; [apply holds_alloc|lia].
Qed.

Lemma lap_dgesvd_step (dgesvd : svd_oracle) (h : heap) (o : pyobj)
    (m n : nat) (f : nat -> nat -> R) :
  holds h o (Arr2 m n f) ->
  exists lu ls lv h',
    lap_dgesvd dgesvd o h
    = (Val (Some lu, Some ls, Some lv, svd_info (dgesvd m n f)), h')
    /\ preserves h h'
    /\ holds h' (Some lu) (Arr2 m m (svd_u (dgesvd m n f)))
    /\ holds h' (Some ls) (Arr1 (Nat.min m n) (svd_s (dgesvd m n f)))
    /\ holds h' (Some lv) (Arr2 n n (svd_vt (dgesvd m n f)))
    /\ (List.length h <= lu)%nat /\ (lu < ls)%nat /\ (ls < lv)%nat.
Proof.
  intros Ho. unfold lap_dgesvd.
  rewrite (bind_run _ _ _ _ _ (deref_run _ _ _ _ Ho)).
  do 4 eexists. split; [reflexivity|].
  split; [repeat apply preserves_alloc; apply preserves_refl|].
  split; [do 2 apply holds_app; apply holds_alloc|].
  split; [apply holds_app; apply holds_alloc|].
  split; [apply holds_alloc|].
  rewrite ?length_app. simpl. lia.
Qed.

(** A write in place to an object newer than [h0] keeps [h0], and keeps
    every other object. *)
Lemma store_step (e : exn) (h0 h : heap) (l : loc) (a r : ndarray) :
  holds h (Some l) a -> preserves h0 h -> (List.length h0 <= l)%nat ->
  exists h',
    store e (Some l) r h = (Val tt, h')
    /\ preserves h0 h'
    /\ holds h' (Some l) r
    /\ (forall l' b, l' <> l -> holds h (Some l') b -> holds h' (Some l') b).
Proof.
  intros (l0 & [= <-] & Hl) Hp Hfresh.
  exists (replace_nth h l r).
  assert (Hlt : (l < List.length h)%nat) by (apply nth_error_Some; congruence).
  split; [eapply store_run; eassumption|]. split; [|split].
  - intros l' b Hb.
    assert (l' < List.length h0)%nat by (apply nth_error_Some; congruence).
    rewrite nth_error_replace_other by lia. apply Hp, Hb.
  - exists l. split; [reflexivity|]. apply nth_error_replace_same, Hlt.
  - intros l' b Hne (l1 & [= <-] & Hb). exists l'. split; [reflexivity|].
    rewrite nth_error_replace_other by congruence. exact Hb.
Qed.

Lemma when_run (b : bool) (msg : string) (h : heap) :
  when b (ValueError_unraised msg) h = (Val tt, h).
Proof. destruct b; reflexivity. Qed.

(** Symbolic execution: one call at a time; each call leaves a new
    store, a new reference and the facts that relate them. *)
Ltac solve_holds :=
  solve [ repeat first [ eassumption
                       | (eapply holds_preserves; [eassumption|]) ] ].

Ltac op_simp :=
  unfold np_add, np_sub, np_mul, broadcast, dgemm, dgemv, fill_diagonal,
    bidx, scalar_mul, scalar_div, scalar_sub, div_scalar, np_copy,
    np_power_2, np_power_neg2, np_power_half, np_mean_axis1, newaxis_col,
    newaxis_row, transpose, slice_cols, slice_prefix, np_diag,
    clip_negative, mask_select, append_zeros, len, shape2, of_list,
    reshape_col, np_std_axis1;
  cbn [amap rows2 cols2 ndim at2 Nat.max mk_array size flat];
  repeat match goal with
         | H : (?a <= ?b)%nat |- context [Nat.min ?a ?b] =>
             rewrite (Nat.min_l a b H)
         end;
  rewrite ?Nat.min_id, ?bdim_refl, ?bdim_1_r, ?bdim_1_l, ?Nat.eqb_refl,
    ?Nat.leb_refl;
  cbv beta iota;
  cbn [amap rows2 cols2 ndim at2 Nat.max mk_array andb];
  reflexivity.

Ltac step_new1 :=
  lazymatch goal with
  | |- context [@bind _ _ (new1 ?e ?f ?o) _ ?h] =>
      let r := fresh "r" in
      let Hs := fresh "Hs" in
      let l := fresh "l" in
      let h' := fresh "h" in
      let Hrun := fresh "Hrun" in
      let Hp := fresh "Hp" in
      let Hh := fresh "Hh" in
      let Hl := fresh "Hl" in
      evar (r : ndarray);
      assert (Hs : exists l h',
                 new1 e f o h = (Val (Some l), h')
                 /\ preserves h h' /\ holds h' (Some l) r
                 /\ (List.length h <= l)%nat)
        by (subst r; eapply new1_step; [solve_holds | op_simp]);
      subst r; destruct Hs as (l & h' & Hrun & Hp & Hh & Hl);
      rewrite (bind_run _ _ _ _ _ Hrun); clear Hrun; cbv beta
  end.

Ltac step_new2 :=
  lazymatch goal with
  | |- context [@bind _ _ (new2 ?e ?f ?o1 ?o2) _ ?h] =>
      let r := fresh "r" in
      let Hs := fresh "Hs" in
      let l := fresh "l" in
      let h' := fresh "h" in
      let Hrun := fresh "Hrun" in
      let Hp := fresh "Hp" in
      let Hh := fresh "Hh" in
      let Hl := fresh "Hl" in
      evar (r : ndarray);
      assert (Hs : exists l h',
                 new2 e f o1 o2 h = (Val (Some l), h')
                 /\ preserves h h' /\ holds h' (Some l) r
                 /\ (List.length h <= l)%nat)
        by (subst r; eapply new2_step; [solve_holds | solve_holds | op_simp]);
      subst r; destruct Hs as (l & h' & Hrun & Hp & Hh & Hl);
      rewrite (bind_run _ _ _ _ _ Hrun); clear Hrun; cbv beta
  end.

Ltac step_alloc :=
  lazymatch goal with
  | |- context [@bind _ _ (alloc ?r) _ ?h] =>
      let l := fresh "l" in
      let h' := fresh "h" in
      let Hrun := fresh "Hrun" in
      let Hp := fresh "Hp" in
      let Hh := fresh "Hh" in
      let Hl := fresh "Hl" in
      destruct (alloc_step h r) as (l & h' & Hrun & Hp & Hh & Hl);
      rewrite (bind_run _ _ _ _ _ Hrun); clear Hrun; cbv beta
  end.

Ltac step_svd :=
  lazymatch goal with
  | |- context [@bind _ _ (lap_dgesvd ?dgesvd ?o) _ ?h] =>
      let Hs := fresh "Hs" in
      let lu := fresh "lu" in
      let ls := fresh "ls" in
      let lv := fresh "lv" in
      let h' := fresh "h" in
      let Hrun := fresh "Hrun" in
      let Hp := fresh "Hp" in
      let Hu := fresh "Hu" in
      let Hs_ := fresh "Hsv" in
      let Hv := fresh "Hv" in
      let Hlu := fresh "Hlu" in
      let Hls := fresh "Hls" in
      let Hlv := fresh "Hlv" in
      edestruct (lap_dgesvd_step dgesvd h o)
        as (lu & ls & lv & h' & Hrun & Hp & Hu & Hs_ & Hv & Hlu & Hls & Hlv);
      [solve_holds|];
      rewrite (bind_run _ _ _ _ _ Hrun); clear Hrun; cbv beta iota
  end.

Ltac step_deref :=
  erewrite bind_run by (eapply deref_run; solve_holds); cbv beta.
Ltac step_lift :=
  erewrite bind_run by (unfold lift; f_equal; op_simp); cbv beta iota.
Ltac step_when :=
  erewrite bind_run by (apply when_run); cbv beta.
Ltac run_step :=
  rewrite ?bind_assoc;
  first [ step_new1 | step_new2 | step_svd | step_alloc | step_deref
        | step_lift | step_when ].

Ltac solve_preserves :=
  solve [ repeat first [ apply preserves_refl
                       | (eapply preserves_trans; [eassumption|]) ] ].
Ltac solve_length :=
  repeat match goal with
         | H : preserves _ _ |- _ => apply preserves_length in H
         end; lia.
Ltac solve_fresh :=
  solve [ eexists; split; [reflexivity | solve_length ] ].

Ltac step_store h0 :=
  rewrite ?bind_assoc;
  lazymatch goal with
  | |- context [@bind _ _ (store ?e (Some ?l) ?r) _ ?h1] =>
      let Hst := fresh "Hst" in
      let h' := fresh "h" in
      let Hrun := fresh "Hrun" in
      let Hp := fresh "Hkeep" in
      let Hnew := fresh "Hnew" in
      let Hother := fresh "Hother" in
      assert (Hst : exists h',
                 store e (Some l) r h1 = (Val tt, h')
                 /\ preserves h0 h'
                 /\ holds h' (Some l) r
                 /\ (forall l' b, l' <> l -> holds h1 (Some l') b ->
                                  holds h' (Some l') b))
        by (eapply store_step; [solve_holds | solve_preserves | solve_length]);
      destruct Hst as (h' & Hrun & Hp & Hnew & Hother);
      rewrite (bind_run _ _ _ _ _ Hrun); clear Hrun; cbv beta
  end.

Lemma bind_exc {A B} (c : M A) (f : A -> M B) (h h1 : heap) (e : exn) :
  c h = (Exc e, h1) -> bind c f h = (Exc e, h1).
Proof. intros Hc. unfold bind. rewrite Hc. reflexivity. Qed.

Lemma new2_exc (e e' : exn) (f : ndarray -> ndarray -> res ndarray)
    (o1 o2 : pyobj) (h : heap) (a b : ndarray) :
  holds h o1 a -> holds h o2 b -> f a b = Exc e' ->
  new2 e f o1 o2 h = (Exc e', h).
Proof.
  intros H1 H2 Hf. unfold new2.
  rewrite (bind_run _ _ _ _ _ (deref_run e _ _ _ H1)).
  rewrite (bind_run _ _ _ _ _ (deref_run e _ _ _ H2)).
  unfold bind, lift. rewrite Hf. reflexivity.
Qed.

Lemma holds_eq (h : heap) (o : pyobj) (a b : ndarray) :
  holds h o a -> a = b -> holds h o b.
Proof. intros Ha <-. exact Ha. Qed.

Lemma Rle_div_iff (a b c : R) : 0 < c -> a <= b / c <-> a * c <= b.
Proof.
  intros Hc. assert (H : b / c * c = b) by (field; lra).
  split; intros Hle.
  - rewrite <- H. apply Rmult_le_compat_r; lra.
  - apply Rmult_le_reg_r with c; [lra|]. rewrite H. exact Hle.
Qed.

(** ** The constructor *)

(** C1 (the code does not do it).  The constructor is given an E with
    two rows for an H with one, and a K with three realizations for an H
    with two: it raises nothing, changes nothing and returns the problem
    instance with these arrays. *)
Theorem init_accepts_mismatched_dimensions :
  __init__ no_draw (Some 0%nat) (Some 1%nat) (Some 3%nat) None None "enkf"
    None None (Some 2%nat) None (1 / 100) true mismatched_store
  = (Val {| self_K := Some 0%nat; self_H := Some 1%nat; self_R := None;
            self_E := Some 2%nat; self_D := Some 3%nat; self_d := None;
            self_truncation := None; self_truncation_percent := 1 / 100;
            self_verbose := true; self_method := "enkf" |},
     mismatched_store).
Proof. vm_compute. reflexivity. Qed.

(** C7 (the code does not do it).  With the method "kalman" the
    constructor returns a problem instance; the error is raised only by
    [update], later. *)
Theorem init_accepts_unknown_method :
  exists self,
    __init__ no_draw (Some 0%nat) (Some 1%nat) (Some 3%nat) None None "kalman"
      None None (Some 2%nat) None (1 / 100) true consistent_store
    = (Val self, consistent_store)
    /\ self_method self = "kalman"%string
    /\ forall dgesvd theta,
         update dgesvd theta self consistent_store
         = (Exc (ValueError "Unknown method..."), consistent_store).
Proof.
  eexists. split; [vm_compute; reflexivity|].
  split; [reflexivity|]. intros. reflexivity.
Qed.

(** C8 (the code does not do it).  With D = [[1, 3]] and d = [0] the
    stored E is D - d = [[1, 3]]: its row sums to 4, so it is not
    centred. *)
Theorem init_D_and_d_not_centred :
  exists self h' Ea,
    __init__ no_draw (Some 0%nat) (Some 1%nat) (Some 2%nat) (Some 3%nat) None
      "enkf" None None None None (1 / 100) true D_and_d_store
    = (Val self, h')
    /\ holds h' (self_E self) Ea
    /\ shape Ea = [1%nat; 2%nat]
    /\ Rsum 2 (at2 Ea 0%nat) = 4
    /\ ~ row_centred Ea.
Proof.
  eexists. eexists. eexists.
  split; [vm_compute; reflexivity|].
  split; [eexists; split; reflexivity|].
  split; [reflexivity|].
  assert (Hs : Rsum 2 (fun j => (if (j =? 0)%nat then 1 else 3) - 0) = 4)
    by (simpl; lra).
  split; [exact Hs|].
  intros Hc. specialize (Hc 0%nat ltac:(simpl; lia)).
  simpl in Hc. lra.
Qed.

(** Without d the constructor derives E = D - mean(D), which is centred
    by construction (for an ensemble that is not empty). *)
Lemma init_from_D_centred (randn : nat -> nat -> R) (h : heap)
    (K H D : pyobj) (n m N N' : nat) (Kf Hf Df : nat -> nat -> R)
    (method : string) (err_std err_perc truncation : option R)
    (truncation_percent : R) (verbose : bool) :
  holds h K (Arr2 n N' Kf) -> holds h H (Arr2 m N' Hf) ->
  holds h D (Arr2 m N Df) -> (0 < N)%nat ->
  exists self h' Ef,
    __init__ randn K H D None None method err_std err_perc None truncation
      truncation_percent verbose h = (Val self, h')
    /\ holds h' (self_E self) (Arr2 m N Ef)
    /\ row_centred (Arr2 m N Ef).
Proof.
  intros HK HH HD HN. unfold __init__.
  do 4 run_step. cbn [is_None negb].
  assert (HDn : is_None D = false) by (destruct HD as (l & -> & _); reflexivity).
  rewrite HDn.
  do 10 run_step. do 2 run_step.
  do 3 eexists. split; [reflexivity|]. cbn [self_E].
  split; [solve_holds|].
  intros i Hi. unfold cols2, at2.
  rewrite (Rsum_minus N (Df i) (fun _ => Rsum N (Df i) / INR N)), Rsum_const.
  assert (INR N <> 0) by (apply not_0_INR; lia).
  field. assumption.
Qed.

(** With R and no E the constructor reads [E.shape] of None: it raises
    AttributeError, whatever the shape of R. *)
Lemma init_with_R_raises_AttributeError :
  __init__ no_draw (Some 0%nat) (Some 1%nat) (Some 3%nat) None (Some 2%nat)
    "enkf" None None None None (1 / 100) true covariance_store
  = (Exc AttributeError, covariance_store).
Proof. vm_compute. reflexivity. Qed.


(** ** The truncation of the spectrum *)

Lemma Rgeb_true_iff (x y : R) : Rgeb x y = true <-> y <= x.
Proof. unfold Rgeb. destruct (Rle_dec y x); split; intros; try easy. Qed.

Lemma Rltb_true_iff (x y : R) : Rltb x y = true <-> x < y.
Proof. unfold Rltb. destruct (Rlt_dec x y); split; intros; try easy. Qed.

Lemma select_map (f : R -> bool) (l : list R) :
  select (map f l) l = filter f l.
Proof.
  induction l as [|x l IH]; simpl; [reflexivity|].
  rewrite IH. reflexivity.
Qed.

Lemma retained_filter (tr : option R) (pc : R) (s_ : list R) :
  retained tr pc s_ = filter (keeps tr pc s_) s_.
Proof. unfold retained, mask, keeps. destruct tr; apply select_map. Qed.

Lemma energies_nonneg (s : list R) (x : R) : In x (energies s) -> 0 <= x.
Proof.
  unfold energies. rewrite in_map_iff. intros (y & <- & _). nra.
Qed.

Lemma total_nonneg (l : list R) :
  (forall x, In x l -> 0 <= x) -> 0 <= total l.
Proof.
  induction l as [|a l IH]; intros Hl; simpl; [lra|].
  assert (0 <= a) by (apply Hl; left; reflexivity).
  assert (0 <= total l) by (apply IH; intros; apply Hl; right; assumption).
  lra.
Qed.

Lemma total_zero_all (l : list R) (x : R) :
  (forall y, In y l -> 0 <= y) -> total l = 0 -> In x l -> x = 0.
Proof.
  induction l as [|a l IH]; intros Hl Ht Hx; [contradiction|].
  simpl in Ht.
  assert (0 <= a) by (apply Hl; left; reflexivity).
  assert (0 <= total l) by (apply total_nonneg; intros; apply Hl; right; assumption).
  destruct Hx as [<-|Hx]; [lra|].
  apply IH; [intros; apply Hl; right; assumption|lra|exact Hx].
Qed.

(** On squared singular values the masked comparison of the share says:
    the sum is not zero and the entry's own share reaches the cutoff. *)
Lemma ge_share_energy (s : list R) (t x : R) :
  In x (energies s) ->
  ge_share (total (energies s)) t x = true
  <-> total (energies s) <> 0 /\ t <= x / total (energies s).
Proof.
  intros Hx. unfold ge_share.
  destruct (Req_dec_T (total (energies s)) 0) as [Hz|Hnz].
  - assert (x = 0) by (eapply total_zero_all; eauto using energies_nonneg).
    subst x. rewrite Rltb_true_iff. split; [lra|tauto].
  - rewrite Rgeb_true_iff. tauto.
Qed.

Lemma filter_length_mono (f g : R -> bool) (l : list R) :
  (forall x, In x l -> f x = true -> g x = true) ->
  (List.length (filter f l) <= List.length (filter g l))%nat.
Proof.
  induction l as [|a l IH]; intros Hfg; simpl; [lia|].
  assert (IH' : (List.length (filter f l) <= List.length (filter g l))%nat)
    by (apply IH; intros; apply Hfg; [right|]; assumption).
  destruct (f a) eqn:Hf.
  - rewrite (Hfg a (or_introl eq_refl) Hf). simpl. lia.
  - destruct (g a); simpl; lia.
Qed.

Lemma filter_length_pos (f : R -> bool) (l : list R) (x : R) :
  In x l -> f x = true -> (1 <= List.length (filter f l))%nat.
Proof.
  intros Hx Hf.
  assert (Hin : In x (filter f l)) by (apply filter_In; split; assumption).
  destruct (filter f l); [contradiction|simpl; lia].
Qed.

(** Some entry of a non-empty list is at least the average. *)
Lemma total_le_max (l : list R) :
  l <> [] -> exists x, In x l /\ total l <= INR (List.length l) * x.
Proof.
  induction l as [|a l IH]; intros Hne; [congruence|].
  destruct l as [|b l].
  - exists a. split; [left; reflexivity|]. simpl. lra.
  - destruct IH as (x & Hx & Hle); [congruence|].
    change (total (a :: b :: l)) with (a + total (b :: l)).
    change (List.length (a :: b :: l)) with (S (List.length (b :: l))).
    rewrite S_INR.
    assert (Hk : 0 <= INR (List.length (b :: l))) by apply pos_INR.
    destruct (Rle_dec a x) as [Hax|Hax].
    + exists x. split; [right; exact Hx|]. nra.
    + exists a. split; [left; reflexivity|]. nra.
Qed.

Lemma energies_total_pos (s : list R) (x : R) :
  In x s -> x <> 0 -> 0 < total (energies s).
Proof.
  induction s as [|a s IH]; intros Hx Hnz; [contradiction|].
  simpl.
  assert (0 <= total (energies s))
    by (apply total_nonneg; intros; eapply energies_nonneg; eauto).
  destruct Hx as [->|Hx].
  - assert (0 < x * x) by nra. lra.
  - specialize (IH Hx Hnz). nra.
Qed.

(** C9, as amended.  Raising the threshold never raises [p], for the
    explicit threshold and for the percentage; [p >= 1] as soon as one
    squared singular value reaches the threshold, which the default
    0.01% guarantees for a spectrum of at most 10000 values that are not
    all zero. *)
Theorem truncation_monotone (s : list R) (t1 t2 pc1 pc2 : R) :
  t1 <= t2 -> pc1 <= pc2 ->
  (kept_count (Some t2) pc1 s <= kept_count (Some t1) pc1 s)%nat
  /\ (kept_count None pc2 s <= kept_count None pc1 s)%nat
  /\ ((exists x, In x (energies s) /\ t1 <= x) ->
      (1 <= kept_count (Some t1) pc1 s)%nat)
  /\ ((exists x, In x (energies s) /\ total (energies s) <> 0
                 /\ pc1 / 100 <= x / total (energies s)) ->
      (1 <= kept_count None pc1 s)%nat)
  /\ ((exists x, In x s /\ x <> 0) -> INR (List.length s) <= 10000 ->
      (1 <= kept_count None (1 / 100) s)%nat).
Proof.
  intros Ht Hpc. unfold kept_count. rewrite !retained_filter.
  repeat split.
  - apply filter_length_mono. intros x _. simpl.
    rewrite !Rgeb_true_iff. lra.
  - apply filter_length_mono. intros x Hx. simpl.
    rewrite !ge_share_energy by exact Hx.
    intros [Hnz Hle]. split; [exact Hnz|]. lra.
  - intros (x & Hx & Hle). apply (filter_length_pos _ _ x Hx).
    simpl. apply Rgeb_true_iff, Hle.
  - intros (x & Hx & Hnz & Hle). apply (filter_length_pos _ _ x Hx).
    simpl. apply ge_share_energy; [exact Hx|]. split; assumption.
  - intros (x & Hx & Hnz) Hlen.
    assert (Hpos : 0 < total (energies s)) by (eapply energies_total_pos; eauto).
    destruct (total_le_max (energies s)) as (e & He & Hmax).
    { destruct s; [contradiction|discriminate]. }
    unfold energies in Hmax at 2. rewrite length_map in Hmax.
    apply (filter_length_pos _ _ e He). simpl.
    apply ge_share_energy; [exact He|]. split; [lra|].
    assert (0 <= e) by (eapply energies_nonneg; eauto).
    apply Rmult_le_reg_r with (r := total (energies s)); [exact Hpos|].
    unfold Rdiv at 3. rewrite Rmult_assoc, Rinv_l by lra. nra.
Qed.

Lemma truncation_monotone_witness :
  Nat.le (kept_count (Some 2) 1 [1; 2]) (kept_count (Some 1) 1 [1; 2])
  /\ Nat.le 1 (kept_count None (1 / 100) [1; 2]).
Proof.
  destruct (truncation_monotone [1; 2] 1 2 1 2 ltac:(lra) ltac:(lra))
    as (H1 & _ & _ & _ & H5).
  split; [exact H1|].
  apply H5; [exists 1; split; [left; reflexivity|lra]|simpl; lra].
Defined.

(** C9 as stated fails: the spectrum [1] has a non-zero singular value,
    and neither the explicit threshold 2 nor the percentage 200 retains
    anything. *)
Lemma large_threshold_keeps_nothing :
  In 1 [1] /\ 1 <> 0
  /\ kept_count (Some 2) (1 / 100) [1] = 0%nat
  /\ kept_count None 200 [1] = 0%nat.
Proof.
  split; [left; reflexivity|]. split; [lra|].
  unfold kept_count. rewrite !retained_filter. simpl.
  unfold Rgeb, ge_share, Rltb, Rgeb.
  destruct (Rle_dec 2 (1 * 1)); [lra|].
  destruct (Req_dec_T (1 * 1 + 0) 0); [lra|].
  destruct (Rle_dec (200 / 100) (1 * 1 / (1 * 1 + 0))) as [Hle|]; [|split; reflexivity].
  exfalso. replace (1 * 1 / (1 * 1 + 0)) with 1 in Hle by (field; lra). lra.
Qed.

Lemma ge_share_pos (sums t x : R) :
  0 < sums -> ge_share sums t x = true <-> t * sums <= x.
Proof.
  intros Hs. unfold ge_share. destruct (Req_dec_T sums 0); [lra|].
  rewrite Rgeb_true_iff. apply Rle_div_iff. exact Hs.
Qed.

Lemma retained_length (tr : option R) (pc : R) (l : list R) :
  (List.length (retained tr pc l) <= List.length l)%nat.
Proof. rewrite retained_filter. apply filter_length_le. Qed.

Lemma kept_le_min (tr : option R) (pc : R) (sv : nat -> R) (k : nat) :
  (List.length (retained tr pc (energies (map sv (seq 0 k)))) <= k)%nat.
Proof.
  etransitivity; [apply retained_length|].
  unfold energies. rewrite !length_map, length_seq. lia.
Qed.

(** What the shared block leaves in the store. *)
Lemma truncate_run (self : Analysis) (h : heap) (u s : pyobj) (m m' k : nat)
    (U : nat -> nat -> R) (sv : nat -> R) :
  holds h u (Arr2 m m' U) -> holds h s (Arr1 k sv) ->
  let kept :=
    retained (self_truncation self) (self_truncation_percent self)
      (energies (map sv (seq 0 k))) in
  exists s_ u_ h',
    truncate self u s h = (Val (List.length kept, s_, u_), h')
    /\ preserves h h' /\ fresh h s_ /\ fresh h u_
    /\ holds h' s_ (Arr1 (List.length kept) (fun i => 1 / nth i kept 0))
    /\ holds h' u_ (Arr2 m (Nat.min (List.length kept) m') U).
Proof.
  intros Hu Hs kept. subst kept. unfold energies. rewrite map_map.
  unfold truncate. run_step.
  destruct (self_truncation self) as [t|] eqn:Htr.
  - do 5 run_step.
    do 3 eexists. split; [reflexivity|].
    split; [solve_preserves|]. split; [solve_fresh|]. split; [solve_fresh|].
    split; solve_holds.
  - do 7 run_step.
    do 3 eexists. split; [reflexivity|].
    split; [solve_preserves|]. split; [solve_fresh|]. split; [solve_fresh|].
    split; solve_holds.
Qed.

(** C4, as amended.  In the block that [EnKF] and [Sqrt_KF] share, a
    squared singular value is retained exactly when its own share of the
    total energy reaches [truncation_percent / 100] (no truncation
    given), or when it reaches the explicit truncation; [p] is the
    number of retained values, and the first [p] columns of [u] are
    kept. *)
Theorem truncate_retains_by_own_share (self : Analysis) (h : heap)
    (u s : pyobj) (m k : nat) (U : nat -> nat -> R) (sv : nat -> R) :
  holds h u (Arr2 m m U) -> holds h s (Arr1 k sv) ->
  let s2 := energies (map sv (seq 0 k)) in
  let keep := keeps (self_truncation self) (self_truncation_percent self) s2 in
  let p := List.length (filter keep s2) in
  (forall x, In x s2 ->
     (keep x = true <->
      match self_truncation self with
      | None => total s2 <> 0
                /\ self_truncation_percent self / 100 <= x / total s2
      | Some t => t <= x
      end))
  /\ exists s_ u_ h',
       truncate self u s h = (Val (p, s_, u_), h')
       /\ holds h' s_ (Arr1 p (fun i => 1 / nth i (filter keep s2) 0))
       /\ holds h' u_ (Arr2 m (Nat.min p m) U).
Proof.
  intros Hu Hs s2 keep p. split.
  - intros x Hx. unfold keep, keeps.
    destruct (self_truncation self) as [t|].
    + apply Rgeb_true_iff.
    + apply ge_share_energy. exact Hx.
  - destruct (truncate_run self h u s m m k U sv Hu Hs)
      as (s_ & u_ & h' & Hrun & _ & _ & _ & Hs_ & Hu_).
    fold s2 in Hrun, Hs_, Hu_. rewrite retained_filter in Hrun, Hs_, Hu_.
    exists s_, u_, h'. repeat split; assumption.
Qed.

Lemma truncate_retains_by_own_share_witness :
  exists p s_ u_ h',
    truncate (instance "enkf" None) (Some 0%nat) (Some 1%nat) spectrum_store
    = (Val (p, s_, u_), h').
Proof.
  destruct (truncate_retains_by_own_share (instance "enkf" None) spectrum_store
              (Some 0%nat) (Some 1%nat) 1 1 (fun _ _ => 1) (fun _ => 5))
    as (_ & s_ & u_ & h' & Hrun & _).
  - exists 0%nat. split; reflexivity.
  - exists 1%nat. split; reflexivity.
  - eexists. exists s_, u_, h'. exact Hrun.
Defined.

(** C4 as stated fails.  For the singular values 1, 1/125, 1/125 and the
    default 0.01% the mask drops the second value, whose own share of
    the energy is below the cutoff, although its cumulative share
    (counted from the front or from the back) is above it; one value is
    retained. *)
Lemma share_is_not_cumulative :
  let s_ := energies [1; 1 / 125; 1 / 125] in
  nth 1 (mask None (1 / 100) s_) true = false
  /\ own_share s_ 1 < 1 / 100 / 100
  /\ 1 / 100 / 100 <= cumulative_share s_ 1
  /\ 1 / 100 / 100 <= tail_share s_ 1
  /\ kept_count None (1 / 100) [1; 1 / 125; 1 / 125] = 1%nat.
Proof.
  cbv zeta.
  assert (Hpos : 0 < total (energies [1; 1 / 125; 1 / 125])) by (simpl; lra).
  assert (Hdrop : ge_share (total (energies [1; 1 / 125; 1 / 125]))
                    (1 / 100 / 100) (1 / 125 * (1 / 125)) = false).
  { apply not_true_is_false. rewrite ge_share_pos by exact Hpos. simpl. lra. }
  assert (Hkeep : ge_share (total (energies [1; 1 / 125; 1 / 125]))
                    (1 / 100 / 100) (1 * 1) = true).
  { rewrite ge_share_pos by exact Hpos. simpl. lra. }
  split; [exact Hdrop|].
  split.
  { apply Rnot_le_lt. intros Hle. unfold own_share in Hle.
    apply (proj1 (Rle_div_iff _ _ _ Hpos)) in Hle. simpl in Hle. lra. }
  split; [apply Rle_div_iff; [exact Hpos|simpl; lra]|].
  split; [apply Rle_div_iff; [exact Hpos|simpl; lra]|].
  unfold kept_count. rewrite retained_filter.
  unfold keeps. cbn [energies map filter].
  change (1 * 1 :: 1 / 125 * (1 / 125) :: 1 / 125 * (1 / 125) :: nil)
    with (energies [1; 1 / 125; 1 / 125]).
  rewrite Hkeep, Hdrop. reflexivity.
Qed.

(** ** EnKF *)

Lemma mmul_ext (k : nat) (A A' B B' : nat -> nat -> R) (i j : nat) :
  (forall l, (l < k)%nat -> A i l = A' i l) ->
  (forall l, (l < k)%nat -> B l j = B' l j) ->
  mmul k A B i j = mmul k A' B' i j.
Proof.
  intros HA HB. unfold mmul. apply Rsum_ext. intros l Hl.
  rewrite HA, HB by exact Hl. reflexivity.
Qed.

Lemma mmul_assoc (k1 k2 : nat) (A B C : nat -> nat -> R) :
  mmul k2 (mmul k1 A B) C = mmul k1 A (mmul k2 B C).
Proof.
  apply functional_extensionality; intros i.
  apply functional_extensionality; intros j. unfold mmul.
  rewrite (Rsum_ext k2 _ (fun l => Rsum k1 (fun l' => A i l' * B l' l * C l j))).
  2:{ intros l _. rewrite <- Rsum_scal_r. reflexivity. }
  rewrite Rsum_swap. apply Rsum_ext. intros l' _.
  rewrite <- Rsum_scal_l. apply Rsum_ext. intros l _. lra.
Qed.

Lemma scal1_fun (F : nat -> nat -> R) : (fun a b => 1 * F a b) = F.
Proof.
  apply functional_extensionality; intros i.
  apply functional_extensionality; intros j. lra.
Qed.

Lemma mdiag_mul_l (p : nat) (dv : nat -> R) (A : nat -> nat -> R) (c e : nat) :
  (c < p)%nat -> mmul p (mdiag dv) A c e = dv c * A c e.
Proof.
  intros Hc. unfold mmul, mdiag.
  rewrite (Rsum_ext p _ (fun l => if (l =? c)%nat then dv l * A l e else 0)).
  - apply Rsum_pick. exact Hc.
  - intros l _. rewrite Nat.eqb_sym.
    destruct (Nat.eqb_spec l c); [subst; reflexivity|lra].
Qed.

Lemma enkf_chain (m N p : nat) (K Kd Hd U Dd : nat -> nat -> R)
    (dv : nat -> R) (i j : nat) :
  K i j
  + 1 * mmul N Kd
          (fun a b =>
             1 * mmul m (mtrans Hd)
                   (fun a b =>
                      1 * mmul p U
                            (fun a b =>
                               1 * mmul m (fun c e => dv c * U e c) Dd a b)
                            a b)
                   a b)
          i j
  = madd K
      (mmul m
         (mmul p (mmul p (mmul m (mmul N Kd (mtrans Hd)) U) (mdiag dv))
            (mtrans U))
         Dd) i j.
Proof.
  unfold madd. f_equal. rewrite Rmult_1_l.
  rewrite (scal1_fun (mmul m (fun c e => dv c * U e c) Dd)).
  rewrite (scal1_fun (mmul p U (mmul m (fun c e => dv c * U e c) Dd))).
  rewrite (scal1_fun (mmul m (mtrans Hd) _)).
  rewrite !mmul_assoc.
  apply mmul_ext; [reflexivity|]. intros a _.
  apply mmul_ext; [reflexivity|]. intros b _.
  apply mmul_ext; [reflexivity|]. intros c Hc.
  rewrite <- mmul_assoc.
  apply mmul_ext; [|reflexivity]. intros e _.
  rewrite mdiag_mul_l by exact Hc. reflexivity.
Qed.

(** C3.  On a problem instance with K (n x N), H, D and E (m x N),
    [EnKF] returns a new n x N array that equals, entry by entry,
    K + K_dash H_dash^T U_p diag(1/S_kept) U_p^T (D - H), where U and S
    come from the decomposition of HE = H_dash + 1.0 E and S_kept are
    the retained squared singular values. *)
Theorem EnKF_formula_correct (dgesvd : svd_oracle) (self : Analysis) (h : heap)
    (n m N : nat) (Kf Hf Df Ef : nat -> nat -> R) :
  holds h (self_K self) (Arr2 n N Kf) ->
  holds h (self_H self) (Arr2 m N Hf) ->
  holds h (self_D self) (Arr2 m N Df) ->
  holds h (self_E self) (Arr2 m N Ef) ->
  exists Aa h' Ka,
    EnKF dgesvd self h = (Val Aa, h')
    /\ holds h' Aa Ka
    /\ arr_eq Ka
         (Arr2 n N
            (EnKF_formula dgesvd (self_truncation self)
               (self_truncation_percent self) m N Kf Hf Df Ef)).
Proof.
  intros HK HH HD HE. unfold EnKF.
  do 11 run_step.
  rewrite ?bind_assoc.
  match goal with |- context [@bind _ _ (truncate self ?u ?s) _ ?h] =>
    edestruct (truncate_run self h u s) as (s_ & u_ & h' & Hrun & Hp' & _ & _ & Hs_ & Hu_);
      [solve_holds | solve_holds | ] end.
  rewrite (bind_run _ _ _ _ _ Hrun); clear Hrun; cbv beta iota.
  match type of Hs_ with context [List.length ?k] => set (kept := k) in * end.
  assert (Hkm : (List.length kept <= m)%nat).
  { subst kept. etransitivity; [apply retained_length|].
    unfold energies. rewrite !length_map, length_seq. lia. }
  rewrite (Nat.min_l _ _ Hkm) in Hu_.
  do 9 run_step.
  do 3 eexists. split; [reflexivity|]. split; [solve_holds|].
  split; [reflexivity|]. intros i j _ _.
  cbn [at2]. unfold EnKF_formula. fold kept.
  apply (enkf_chain m N (List.length kept) Kf (centre N Kf) (centre N Hf)).
Qed.

Lemma EnKF_formula_correct_witness :
  exists Aa h' Ka,
    EnKF oracle_3_4 (instance "enkf" None) spread_store = (Val Aa, h')
    /\ holds h' Aa Ka
    /\ arr_eq Ka
         (Arr2 1 2
            (EnKF_formula oracle_3_4 None (1 / 100) 1 2
               K_1_m1 K_1_m1 E_2_5 E_2_5)).
Proof.
  apply (EnKF_formula_correct oracle_3_4 (instance "enkf" None)
           spread_store 1 1 2).
  - exists 0%nat. split; reflexivity.
  - exists 1%nat. split; reflexivity.
  - exists 3%nat. split; reflexivity.
  - exists 2%nat. split; reflexivity.
Defined.

(** After the constructor has accepted the mismatched arrays, [update]
    decomposes H_dash + E (broadcast to 2x2) before the first matrix
    product fails: the left singular vectors are in the store when the
    BLAS error is raised. *)
Lemma update_decomposes_mismatched (dgesvd : svd_oracle)
    (theta : nat -> nat -> R) :
  let self := {| self_K := Some 0%nat; self_H := Some 1%nat; self_R := None;
                 self_E := Some 2%nat; self_D := Some 3%nat; self_d := None;
                 self_truncation := None; self_truncation_percent := 1 / 100;
                 self_verbose := true; self_method := "enkf" |} in
  exists h' l HE,
    update dgesvd theta self mismatched_store = (Exc BlasError, h')
    /\ nth_error h' l = Some (Arr2 2 2 (svd_u (dgesvd 2%nat 2%nat HE)))
    /\ (List.length mismatched_store <= l)%nat.
Proof.
  intros self.
  assert (HK : holds mismatched_store (self_K self) (Arr2 1 3 (fun _ _ => 0)))
    by (eexists; split; reflexivity).
  assert (HH : holds mismatched_store (self_H self) (Arr2 1 2 (fun _ _ => 0)))
    by (eexists; split; reflexivity).
  assert (HE : holds mismatched_store (self_E self) (Arr2 2 2 (fun _ _ => 0)))
    by (eexists; split; reflexivity).
  assert (HD : holds mismatched_store (self_D self) (Arr2 1 2 (fun _ _ => 0)))
    by (eexists; split; reflexivity).
  change (update dgesvd theta self) with (EnKF dgesvd self).
  generalize dependent mismatched_store. intros h HK HH HE HD.
  unfold EnKF.
  do 11 run_step.
  rewrite ?bind_assoc.
  match goal with
  | |- context [@bind _ _ (truncate self ?u ?s) _ ?h] =>
      edestruct (truncate_run self h u s)
        as (s_ & u_ & h' & Hrun & Hp' & _ & _ & Hs_ & Hu_);
      [solve_holds | solve_holds | ]
  end.
  rewrite (bind_run _ _ _ _ _ Hrun); clear Hrun; cbv beta iota.
  match type of Hs_ with context [List.length ?k] => set (kept := k) in * end.
  assert (Hkm : (List.length kept <= 2)%nat).
  { subst kept. etransitivity; [apply kept_le_min|]. simpl. lia. }
  rewrite (Nat.min_l _ _ Hkm) in Hu_.
  do 3 run_step.
  rewrite ?bind_assoc.
  erewrite bind_exc
    by (eapply new2_exc; [solve_holds | solve_holds | reflexivity]).
  do 3 eexists. split; [reflexivity|].
  match goal with
  | |- nth_error ?hF _ = _ /\ _ =>
      eassert (Hfin : holds hF (Some lu) (Arr2 2 2 (svd_u (dgesvd 2%nat 2%nat _))))
        by solve_holds
  end.
  destruct Hfin as (l' & [= <-] & Hfin). split; [exact Hfin|solve_length].
Qed.

(** ** Sqrt_KF, step by step *)

Ltac fun_ext2 :=
  f_equal;
  apply functional_extensionality; intros ?i;
  apply functional_extensionality; intros ?j.

Lemma Sqrt_KF_mean_run (dgesvd : svd_oracle) (self : Analysis) (h : heap)
    (n m N : nat) (Kf Hf Ef : nat -> nat -> R) (dv : nat -> R) :
  holds h (self_K self) (Arr2 n N Kf) ->
  holds h (self_H self) (Arr2 m N Hf) ->
  holds h (self_E self) (Arr2 m N Ef) ->
  holds h (self_d self) (Arr1 m dv) ->
  let usv := dgesvd m N (madd (centre N Hf) Ef) in
  let p := List.length
             (retained (self_truncation self) (self_truncation_percent self)
                (energies (map (svd_s usv) (seq 0 (Nat.min m N))))) in
  exists st h' ka,
    Sqrt_KF_mean dgesvd self h = (Val st, h')
    /\ preserves h h'
    /\ st_N st = N /\ st_p st = p
    /\ holds h' (st_H_dash st) (Arr2 m N (centre N Hf))
    /\ holds h' (st_K_dash st) (Arr2 n N (centre N Kf))
    /\ holds h' (st_u_ st) (Arr2 m p (svd_u usv))
    /\ holds h' (st_sig st) (Arr1 (Nat.min m N) (svd_s usv))
    /\ holds h' (st_Ka st) (Arr1 n ka).
Proof.
  intros HK HH HE Hd usv p. unfold Sqrt_KF_mean.
  do 15 run_step.
  rewrite ?bind_assoc.
  match goal with
  | |- context [@bind _ _ (truncate self ?u ?s) _ ?h] =>
      edestruct (truncate_run self h u s)
        as (s_ & u_ & h' & Hrun & Hp' & _ & _ & Hs_ & Hu_);
      [solve_holds | solve_holds | ]
  end.
  rewrite (bind_run _ _ _ _ _ Hrun); clear Hrun; cbv beta iota.
  fold usv in Hs_, Hu_.
  change (List.length (retained _ _ _)) with p in Hs_, Hu_.
  assert (Hpm : (p <= m)%nat).
  { etransitivity; [apply kept_le_min|]. lia. }
  rewrite (Nat.min_l _ _ Hpm) in Hu_.
  do 9 run_step.
  do 3 eexists. split; [reflexivity|].
  cbn [st_N st_p st_H_dash st_K_dash st_u_ st_sig st_Ka].
  split; [solve_preserves|]. split; [reflexivity|]. split; [reflexivity|].
  repeat split; solve_holds.
Qed.

Lemma Sqrt_KF_spread_run (st : srkf_state) (h : heap) (m N p : nat)
    (Hd U : nat -> nat -> R) (S : nat -> R) :
  st_p st = p ->
  (p <= Nat.min m N)%nat ->
  holds h (st_H_dash st) (Arr2 m N Hd) ->
  holds h (st_u_ st) (Arr2 m p U) ->
  holds h (st_sig st) (Arr1 (Nat.min m N) S) ->
  exists c_1 h',
    Sqrt_KF_spread st h = (Val c_1, h')
    /\ preserves h h' /\ fresh h c_1
    /\ holds h' c_1 (Arr2 N N (spread_matrix m p Hd U S)).
Proof.
  intros Hst Hp HH Hu Hs. unfold Sqrt_KF_spread. rewrite Hst.
  do 14 run_step.
  step_store h.
  do 2 eexists. split; [reflexivity|]. split; [assumption|].
  split; [solve_fresh|].
  eapply holds_eq; [eassumption|].
  rewrite !scal1_fun. fun_ext2.
  unfold spread_matrix, mtrans. cbv zeta.
  destruct (i =? j)%nat; rewrite ?Rmult_1_l; reflexivity.
Qed.

Lemma Sqrt_KF_transform_run (dgesvd : svd_oracle) (h : heap) (N : nat)
    (c_1 : pyobj) (X : nat -> nat -> R) :
  holds h c_1 (Arr2 N N X) ->
  let usv := dgesvd N N X in
  exists x2 h',
    Sqrt_KF_transform dgesvd N c_1 h = (Val x2, h')
    /\ preserves h h' /\ fresh h x2
    /\ holds h' x2
         (Arr2 N N (transform_matrix N (svd_u usv) (svd_vt usv) (svd_s usv))).
Proof.
  intros Hc usv. unfold Sqrt_KF_transform.
  do 3 run_step.
  step_store h.
  match goal with
  | Hother : forall l' b, l' <> ?ls -> _ -> _ |- _ =>
      assert (Hu' := Hother lu _ ltac:(lia) Hu);
      assert (Hv' := Hother lv _ ltac:(lia) Hv)
  end.
  do 3 run_step.
  rewrite Nat.ltb_irrefl.
  do 3 run_step.
  edestruct new2_step as (lT & hT & Hrun & HpT & HhT & HlT);
    [| | | rewrite Hrun; clear Hrun]; [solve_holds | solve_holds | op_simp |].
  do 2 eexists. split; [reflexivity|]. split; [solve_preserves|].
  split; [solve_fresh|].
  eapply holds_eq; [eassumption|].
  rewrite scal1_fun. reflexivity.
Qed.

Lemma Sqrt_KF_rotate_run (theta : nat -> nat -> R) (st : srkf_state)
    (x2 : pyobj) (h : heap) (n N : nat) (Kd T : nat -> nat -> R)
    (ka : nat -> R) :
  st_N st = N ->
  holds h (st_K_dash st) (Arr2 n N Kd) ->
  holds h x2 (Arr2 N N T) ->
  holds h (st_Ka st) (Arr1 n ka) ->
  exists Aa h',
    Sqrt_KF_rotate theta st x2 h = (Val Aa, h')
    /\ preserves h h' /\ fresh h Aa
    /\ holds h' Aa
         (Arr2 n N
            (fun i j => ka i + mmul N (mmul N Kd T) (mtrans theta) i j)).
Proof.
  intros HN HK HT Hka. unfold Sqrt_KF_rotate. rewrite HN.
  do 6 run_step.
  do 2 eexists. split; [reflexivity|]. split; [solve_preserves|].
  split; [solve_fresh|].
  eapply holds_eq; [solve_holds|].
  rewrite !scal1_fun. fun_ext2.
  unfold mtrans. rewrite ?Rmult_1_l. reflexivity.
Qed.

(** The whole of [Sqrt_KF]: the analysed mean [ka] and the perturbations
    before the rotation do not depend on the draw [theta]. *)
Lemma Sqrt_KF_run (dgesvd : svd_oracle) (self : Analysis) (h : heap)
    (n m N : nat) (Kf Hf Ef : nat -> nat -> R) (dv : nat -> R) :
  holds h (self_K self) (Arr2 n N Kf) ->
  holds h (self_H self) (Arr2 m N Hf) ->
  holds h (self_E self) (Arr2 m N Ef) ->
  holds h (self_d self) (Arr1 m dv) ->
  let T := SRKF_transform dgesvd (self_truncation self)
             (self_truncation_percent self) m N Hf Ef in
  exists st h0 ka,
    Sqrt_KF_mean dgesvd self h = (Val st, h0)
    /\ holds h0 (st_Ka st) (Arr1 n ka)
    /\ forall theta,
         exists Aa h',
           Sqrt_KF dgesvd theta self h = (Val Aa, h')
           /\ preserves h h' /\ fresh h Aa
           /\ holds h' Aa
                (Arr2 n N
                   (fun i j =>
                      ka i + mmul N (mmul N (centre N Kf) T) (mtrans theta) i j)).
Proof.
  intros HK HH HE Hd T.
  destruct (Sqrt_KF_mean_run dgesvd self h n m N Kf Hf Ef dv HK HH HE Hd)
    as (st & h0 & ka & Hmean & Hp0 & HN & Hp & HHd & HKd & Hu & Hsig & Hka).
  cbv zeta in Hp, Hu, Hsig.
  exists st, h0, ka. split; [exact Hmean|]. split; [exact Hka|].
  intros theta. unfold Sqrt_KF.
  rewrite (bind_run _ _ _ _ _ Hmean).
  destruct (Sqrt_KF_spread_run st h0 m N _ _ _ _ Hp
              ltac:(apply kept_le_min) HHd Hu Hsig)
    as (c_1 & h1 & Hspread & Hp1 & _ & Hc1).
  rewrite (bind_run _ _ _ _ _ Hspread).
  destruct (Sqrt_KF_transform_run dgesvd h1 N c_1 _ Hc1)
    as (x2 & h2 & Htrans & Hp2 & _ & Hx2).
  cbv zeta in Hx2. rewrite HN.
  rewrite (bind_run _ _ _ _ _ Htrans).
  destruct (Sqrt_KF_rotate_run theta st x2 h2 n N (centre N Kf) _ ka HN
              ltac:(solve_holds) Hx2 ltac:(solve_holds))
    as (Aa & h3 & Hrot & Hp3 & HAa & HA).
  exists Aa, h3. split; [exact Hrot|]. split; [solve_preserves|].
  split.
  - destruct HAa as (l & -> & Hl). exists l. split; [reflexivity|].
    solve_length.
  - exact HA.
Qed.

(** ** Matrix algebra of the rotation *)

Lemma mtrans_mmul (k : nat) (A B : nat -> nat -> R) :
  mtrans (mmul k A B) = mmul k (mtrans B) (mtrans A).
Proof.
  apply functional_extensionality; intros i.
  apply functional_extensionality; intros j.
  unfold mtrans, mmul. apply Rsum_ext. intros l _. lra.
Qed.

Lemma mmul_mid_l (N : nat) (A : nat -> nat -> R) (i j : nat) :
  (i < N)%nat -> mmul N mid A i j = A i j.
Proof.
  intros Hi. unfold mmul, mid.
  rewrite (Rsum_ext N _ (fun l => if (l =? i)%nat then A l j else 0)).
  - apply (Rsum_pick N i (fun l => A l j)). exact Hi.
  - intros l _. rewrite Nat.eqb_sym.
    destruct (Nat.eqb_spec l i); [subst|]; lra.
Qed.

Lemma Rsum_mid (N k : nat) : (k < N)%nat -> Rsum N (mid k) = 1.
Proof.
  intros Hk. unfold mid.
  rewrite (Rsum_ext N _ (fun l => if (l =? k)%nat then 1 else 0)).
  - apply (Rsum_pick N k (fun _ => 1)). exact Hk.
  - intros l _. rewrite Nat.eqb_sym. reflexivity.
Qed.

Section Rotation.

Variable N : nat.
Variable Q : nat -> nat -> R.
Hypothesis Q_orthogonal : orthogonal N Q.

(** An orthogonal matrix whose rows sum to one has columns that sum
    to one. *)
Lemma orthogonal_column_sums (k : nat) :
  (forall i, (i < N)%nat -> Rsum N (Q i) = 1) ->
  (k < N)%nat -> Rsum N (fun j => Q j k) = 1.
Proof.
  intros Hrow Hk.
  rewrite (Rsum_ext N _ (fun j => Rsum N (fun l => Q j k * Q j l))).
  2:{ intros j Hj. rewrite Rsum_scal_l, (Hrow j Hj). lra. }
  rewrite Rsum_swap.
  rewrite (Rsum_ext N _ (mid k)); [apply Rsum_mid; exact Hk|].
  intros l Hl. destruct (Q_orthogonal k l Hk Hl) as [_ H2]. exact H2.
Qed.

(** The scatter of X Q^T is that of X. *)
Lemma rotation_scatter (X : nat -> nat -> R) (i k : nat) :
  Rsum N (fun j => mmul N X (mtrans Q) i j * mmul N X (mtrans Q) k j)
  = Rsum N (fun j => X i j * X k j).
Proof.
  change (Rsum N (fun j => mmul N X (mtrans Q) i j * mmul N X (mtrans Q) k j))
    with (mmul N (mmul N X (mtrans Q)) (mtrans (mmul N X (mtrans Q))) i k).
  change (Rsum N (fun j => X i j * X k j)) with (mmul N X (mtrans X) i k).
  rewrite mtrans_mmul, mmul_assoc, <- (mmul_assoc N N (mtrans Q)).
  apply mmul_ext; [reflexivity|]. intros l Hl.
  rewrite <- (mmul_mid_l N (mtrans X) l k Hl).
  apply mmul_ext; [|reflexivity]. intros l' Hl'.
  destruct (Q_orthogonal l l' Hl Hl') as [_ H2]. exact H2.
Qed.

End Rotation.

(** The row sums of X Q^T are those of X, when the columns of Q sum to
    one. *)
Lemma rotation_row_sums (N : nat) (X Q : nat -> nat -> R) (i : nat) :
  (forall k, (k < N)%nat -> Rsum N (fun j => Q j k) = 1) ->
  Rsum N (mmul N X (mtrans Q) i) = Rsum N (X i).
Proof.
  intros Hcol. unfold mmul, mtrans.
  rewrite Rsum_swap. apply Rsum_ext. intros l Hl.
  rewrite Rsum_scal_l, (Hcol l Hl). lra.
Qed.

(** ** The rotation and the ensemble mean *)

Ltac entries2 :=
  intros i j Hi Hj;
  destruct i as [|[|i]]; destruct j as [|[|j]]; try lia.

Lemma orthogonal_mid_2 : orthogonal 2 mid.
Proof. entries2; split; unfold mmul, mtrans, mid; simpl; lra. Qed.

Lemma orthogonal_flip : orthogonal 2 flip.
Proof. entries2; split; unfold mmul, mtrans, flip, mid; simpl; lra. Qed.

Lemma clip_1 : clip 1 = 1.
Proof. unfold clip. destruct (Rlt_dec 1 0); lra. Qed.

(** C5, as amended.  For an orthogonal theta whose rows sum to one (it
    fixes the vector of ones), the row sums of T theta^T are those of T,
    and the posterior perturbations K_dash T theta^T that [Sqrt_KF]
    adds to the analysed mean have the row sums, hence the ensemble
    mean, of K_dash T. *)
Theorem rotation_keeps_mean_if_ones_fixed (n N : nat)
    (theta : nat -> nat -> R) :
  orthogonal N theta ->
  (forall i, (i < N)%nat -> Rsum N (theta i) = 1) ->
  (forall T : nat -> nat -> R,
     exists tT P,
       transpose (Arr2 N N theta) = Val tT
       /\ dgemm 1 (Arr2 N N T) tT = Val (Arr2 N N P)
       /\ forall i, (i < N)%nat -> Rsum N (P i) = Rsum N (T i))
  /\ (forall (st : srkf_state) (x2 : pyobj) (h : heap)
             (Kd T : nat -> nat -> R) (ka : nat -> R),
        st_N st = N ->
        holds h (st_K_dash st) (Arr2 n N Kd) ->
        holds h x2 (Arr2 N N T) ->
        holds h (st_Ka st) (Arr1 n ka) ->
        exists Aa h' A,
          Sqrt_KF_rotate theta st x2 h = (Val Aa, h')
          /\ holds h' Aa (Arr2 n N A)
          /\ forall i, (i < n)%nat ->
               Rsum N (fun j => A i j - ka i) = Rsum N (mmul N Kd T i)).
Proof.
  intros Horth Hrow.
  assert (Hcol : forall k, (k < N)%nat -> Rsum N (fun j => theta j k) = 1)
    by (intros k Hk; apply orthogonal_column_sums; assumption).
  split.
  - intros T. do 2 eexists. split; [reflexivity|].
    unfold dgemm. rewrite Nat.eqb_refl. split; [reflexivity|].
    intros i _. cbv beta.
    rewrite (Rsum_ext N _ (mmul N T (mtrans theta) i))
      by (intros; unfold mtrans; lra).
    apply rotation_row_sums, Hcol.
  - intros st x2 h Kd T ka HN HK HT Hka.
    destruct (Sqrt_KF_rotate_run theta st x2 h n N Kd T ka HN HK HT Hka)
      as (Aa & h' & Hrun & _ & _ & HA).
    do 3 eexists. split; [exact Hrun|]. split; [exact HA|].
    intros i _. cbv beta.
    rewrite (Rsum_ext N _ (mmul N (mmul N Kd T) (mtrans theta) i))
      by (intros; lra).
    apply rotation_row_sums, Hcol.
Qed.

Lemma orthogonal_swap : orthogonal 2 swap.
Proof. entries2; split; unfold mmul, mtrans, swap, mid; simpl; lra. Qed.

Lemma rotation_keeps_mean_if_ones_fixed_witness :
  exists Aa h' A,
    Sqrt_KF_rotate swap rotate_state (Some 1%nat) rotate_store = (Val Aa, h')
    /\ holds h' Aa (Arr2 1 2 A)
    /\ forall i, (i < 1)%nat ->
         Rsum 2 (fun j => A i j - 0) = Rsum 2 (mmul 2 K_1_m1 mid i).
Proof.
  destruct (rotation_keeps_mean_if_ones_fixed 1 2 swap orthogonal_swap)
    as [_ Hrot].
  - intros i Hi. destruct i as [|[|i]]; try lia; unfold swap; simpl; lra.
  - apply (Hrot rotate_state (Some 1%nat) rotate_store K_1_m1 mid (fun _ => 0)).
    + reflexivity.
    + exists 0%nat. split; reflexivity.
    + exists 1%nat. split; reflexivity.
    + exists 2%nat. split; reflexivity.
Defined.

(** C5 as stated fails.  The reflection diag(1, -1) is orthogonal; the
    second row of I diag(1, -1)^T sums to -1, that of I to 1; and the
    perturbations [[1, -1]] of [Sqrt_KF], of mean zero, become [[1, 1]],
    of mean one. *)
Lemma rotation_changes_row_sums :
  orthogonal 2 flip
  /\ (exists tT P,
        transpose (Arr2 2 2 flip) = Val tT
        /\ dgemm 1 (Arr2 2 2 mid) tT = Val (Arr2 2 2 P)
        /\ Rsum 2 (P 1%nat) = -1 /\ Rsum 2 (mid 1%nat) = 1)
  /\ (exists Aa h' A,
        Sqrt_KF_rotate flip rotate_state (Some 1%nat) rotate_store
        = (Val Aa, h')
        /\ holds h' Aa (Arr2 1 2 A)
        /\ Rsum 2 (fun j => A 0%nat j - 0) = 2
        /\ Rsum 2 (mmul 2 K_1_m1 mid 0%nat) = 0).
Proof.
  split; [exact orthogonal_flip|]. split.
  - do 2 eexists. split; [reflexivity|]. split; [reflexivity|].
    unfold mmul, flip, mid. simpl. split; lra.
  - destruct (Sqrt_KF_rotate_run flip rotate_state (Some 1%nat) rotate_store
                1 2 K_1_m1 mid (fun _ => 0))
      as (Aa & h' & Hrun & _ & _ & HA).
    + reflexivity.
    + exists 0%nat. split; reflexivity.
    + exists 1%nat. split; reflexivity.
    + exists 2%nat. split; reflexivity.
    + do 3 eexists. split; [exact Hrun|]. split; [exact HA|].
      unfold mmul, mtrans, flip, mid, K_1_m1. simpl. split; lra.
Qed.

(** ** The rotation and the covariance *)

(** C6, as amended.  On one problem instance, whatever orthogonal
    matrices theta1 and theta2 are drawn, [Sqrt_KF] returns two
    ensembles with the same scatter about the analysed mean Ka that
    [Sqrt_KF] computes: (Aa - Ka)(Aa - Ka)^T does not depend on the
    draw. *)
Theorem rotation_keeps_scatter_about_analysed_mean (dgesvd : svd_oracle)
    (self : Analysis) (h : heap) (n m N : nat)
    (Kf Hf Ef : nat -> nat -> R) (dv : nat -> R)
    (theta1 theta2 : nat -> nat -> R) :
  holds h (self_K self) (Arr2 n N Kf) ->
  holds h (self_H self) (Arr2 m N Hf) ->
  holds h (self_E self) (Arr2 m N Ef) ->
  holds h (self_d self) (Arr1 m dv) ->
  orthogonal N theta1 -> orthogonal N theta2 ->
  exists st h0 ka o1 h1 A1 o2 h2 A2,
    Sqrt_KF_mean dgesvd self h = (Val st, h0)
    /\ holds h0 (st_Ka st) (Arr1 n ka)
    /\ Sqrt_KF dgesvd theta1 self h = (Val o1, h1)
    /\ holds h1 o1 (Arr2 n N A1)
    /\ Sqrt_KF dgesvd theta2 self h = (Val o2, h2)
    /\ holds h2 o2 (Arr2 n N A2)
    /\ forall i k, (i < n)%nat -> (k < n)%nat ->
         scatter N A1 ka i k = scatter N A2 ka i k.
Proof.
  intros HK HH HE Hd H1 H2.
  destruct (Sqrt_KF_run dgesvd self h n m N Kf Hf Ef dv HK HH HE Hd)
    as (st & h0 & ka & Hmean & Hka & Hrun).
  destruct (Hrun theta1) as (o1 & h1 & Hr1 & _ & _ & HA1).
  destruct (Hrun theta2) as (o2 & h2 & Hr2 & _ & _ & HA2).
  exists st, h0, ka. do 6 eexists.
  split; [exact Hmean|]. split; [exact Hka|].
  split; [exact Hr1|]. split; [exact HA1|].
  split; [exact Hr2|]. split; [exact HA2|].
  intros i k _ _. unfold scatter.
  set (X := mmul N (centre N Kf) _).
  transitivity (Rsum N (fun j => X i j * X k j)).
  - rewrite <- (rotation_scatter N theta1 H1 X i k).
    apply Rsum_ext. intros j _. lra.
  - rewrite <- (rotation_scatter N theta2 H2 X i k).
    apply Rsum_ext. intros j _. lra.
Qed.

Lemma srkf_store_holds :
  holds srkf_store (self_K (instance "sqrtkf" None)) (Arr2 1 2 K_1_m1)
  /\ holds srkf_store (self_H (instance "sqrtkf" None)) (Arr2 1 2 (fun _ _ => 0))
  /\ holds srkf_store (self_E (instance "sqrtkf" None)) (Arr2 1 2 E_1_0)
  /\ holds srkf_store (self_d (instance "sqrtkf" None)) (Arr1 1 (fun _ => 0)).
Proof.
  repeat split; eexists; split; reflexivity.
Qed.

Lemma rotation_keeps_scatter_about_analysed_mean_witness :
  exists st h0 ka o1 h1 A1 o2 h2 A2,
    Sqrt_KF_mean unit_oracle (instance "sqrtkf" None) srkf_store = (Val st, h0)
    /\ holds h0 (st_Ka st) (Arr1 1 ka)
    /\ Sqrt_KF unit_oracle mid (instance "sqrtkf" None) srkf_store = (Val o1, h1)
    /\ holds h1 o1 (Arr2 1 2 A1)
    /\ Sqrt_KF unit_oracle flip (instance "sqrtkf" None) srkf_store = (Val o2, h2)
    /\ holds h2 o2 (Arr2 1 2 A2)
    /\ forall i k, (i < 1)%nat -> (k < 1)%nat ->
         scatter 2 A1 ka i k = scatter 2 A2 ka i k.
Proof.
  destruct srkf_store_holds as (HK & HH & HE & Hd).
  exact (rotation_keeps_scatter_about_analysed_mean unit_oracle
           (instance "sqrtkf" None) srkf_store 1 1 2 _ _ _ _ mid flip
           HK HH HE Hd orthogonal_mid_2 orthogonal_flip).
Defined.

(** C6 as stated fails.  With K = [[1, -1]], H = [[0, 0]], E = [[1, 0]]
    and d = [0], and an oracle whose two answers are full decompositions
    of the two matrices decomposed, the draws I and diag(1, -1), both
    orthogonal, give posterior ensembles of sample variance 2 and 0. *)
Lemma rotation_changes_sample_covariance :
  orthogonal 2 mid /\ orthogonal 2 flip
  /\ (let HE := madd (centre 2 (fun _ _ => 0)) E_1_0 in
      let usv := unit_oracle 1%nat 2%nat HE in
      let p := kept_count None (1 / 100) [1] in
      let X := spread_matrix 1 p (centre 2 (fun _ _ => 0)) (svd_u usv)
                 (svd_s usv) in
      svd_valid 1 2 HE usv /\ svd_valid 2 2 X (unit_oracle 2%nat 2%nat X))
  /\ exists o1 h1 A1 o2 h2 A2,
       Sqrt_KF unit_oracle mid (instance "sqrtkf" None) srkf_store = (Val o1, h1)
       /\ holds h1 o1 (Arr2 1 2 A1)
       /\ Sqrt_KF unit_oracle flip (instance "sqrtkf" None) srkf_store
          = (Val o2, h2)
       /\ holds h2 o2 (Arr2 1 2 A2)
       /\ sample_cov 2 A1 0 0 = 2 /\ sample_cov 2 A2 0 0 = 0.
Proof.
  split; [exact orthogonal_mid_2|]. split; [exact orthogonal_flip|]. split.
  - cbv zeta. split.
    + split; [reflexivity|]. split.
      { intros i j Hi Hj. destruct i as [|i], j as [|j]; try lia.
        split; unfold mmul, mtrans; simpl; unfold mid; simpl; lra. }
      split; [exact orthogonal_mid_2|].
      split; [intros; simpl; lra|]. split; [intros; simpl; lra|].
      intros i j Hi Hj. destruct i as [|i]; [|lia].
      destruct j as [|[|j]]; try lia;
        unfold madd, centre, E_1_0; simpl; unfold mid; simpl; lra.
    + split; [reflexivity|]. split; [exact orthogonal_mid_2|].
      split; [exact orthogonal_mid_2|].
      split; [intros; simpl; lra|]. split; [intros; simpl; lra|].
      entries2; unfold spread_matrix, mmul, mtrans, centre; simpl;
        unfold mid; simpl; lra.
  - destruct srkf_store_holds as (HK & HH & HE & Hd).
    destruct (Sqrt_KF_run unit_oracle (instance "sqrtkf" None) srkf_store
                1 1 2 _ _ _ _ HK HH HE Hd)
      as (st & h0 & ka & _ & _ & Hrun).
    destruct (Hrun mid) as (o1 & h1 & Hr1 & _ & _ & HA1).
    destruct (Hrun flip) as (o2 & h2 & Hr2 & _ & _ & HA2).
    do 6 eexists.
    split; [exact Hr1|]. split; [exact HA1|].
    split; [exact Hr2|]. split; [exact HA2|].
    unfold sample_cov, scatter, row_mean, SRKF_transform, transform_matrix,
      unit_oracle, mmul, mtrans, centre, K_1_m1, mid, flip.
    cbn [svd_u svd_s svd_vt]. simpl. rewrite clip_1, sqrt_1.
    split; field.
Qed.

(** ** The matrix that is decomposed *)

Lemma kept_count_single (x pc : R) :
  0 < x -> pc / 100 <= 1 -> kept_count None pc [x] = 1%nat.
Proof.
  intros Hx Hpc. unfold kept_count. rewrite retained_filter.
  unfold keeps. cbn [energies map filter].
  assert (Hpos : 0 < total (energies [x])) by (simpl; nra).
  change (x * x :: nil) with (energies [x]).
  assert (Hk : ge_share (total (energies [x])) (pc / 100) (x * x) = true).
  { apply ge_share_pos; [exact Hpos|]. simpl. nra. }
  rewrite Hk. reflexivity.
Qed.

(** Off the diagonal the decomposed matrix is the opposite of the
    matrix M = I - H_dash^T C^-1 H_dash; on the diagonal they agree. *)
Lemma spread_matrix_vs_M (m p N : nat) (Hd U : nat -> nat -> R)
    (S : nat -> R) (i j : nat) :
  spread_matrix m p Hd U S i j
  = if (i =? j)%nat then M_matrix m p Hd U S i j
    else - M_matrix m p Hd U S i j.
Proof.
  assert (HA : forall a b,
             mmul m (mtrans Hd)
               (mmul m (mmul p U (fun c e => / (S c * S c) * U e c)) Hd) a b
             = mmul m (mmul m (mtrans Hd) (C_inverse p U S)) Hd a b).
  { intros a b. rewrite (mmul_assoc m m (mtrans Hd) (C_inverse p U S) Hd).
    unfold C_inverse.
    apply mmul_ext; [reflexivity|]. intros l _.
    apply mmul_ext; [|reflexivity]. intros l' _.
    rewrite (mmul_assoc p p U).
    apply mmul_ext; [reflexivity|]. intros c Hc.
    rewrite mdiag_mul_l by exact Hc. reflexivity. }
  unfold spread_matrix, M_matrix, mid. cbv zeta. rewrite !HA.
  destruct (Nat.eqb_spec i j) as [->|Hne]; lra.
Qed.

Lemma orthogonal_mtrans (N : nat) (Q : nat -> nat -> R) :
  orthogonal N Q -> orthogonal N (mtrans Q).
Proof.
  intros HQ i j Hi Hj. destruct (HQ i j Hi Hj) as [H1 H2].
  split; [exact H2|exact H1].
Qed.

Lemma clip_nonneg (x : R) : 0 <= clip x.
Proof. unfold clip. destruct (Rlt_dec x 0); lra. Qed.

(** What the transform of [Sqrt_KF] squares to: with the second
    decomposition U2 diag(S2) Vt2 and an orthogonal Vt2,
    T T^T = U2 diag(max(S2, 0)) U2^T. *)
Lemma transform_gram (N : nat) (U2 Vt2 : nat -> nat -> R) (S2 : nat -> R)
    (i k : nat) :
  orthogonal N Vt2 ->
  mmul N (transform_matrix N U2 Vt2 S2)
    (mtrans (transform_matrix N U2 Vt2 S2)) i k
  = Rsum N (fun b => U2 i b * clip (S2 b) * U2 k b).
Proof.
  intros HV. unfold transform_matrix.
  set (W := fun a b => U2 a b * sqrt (clip (S2 b))).
  change (mmul N (mmul N W Vt2) (mtrans (mmul N W Vt2)) i k)
    with (Rsum N (fun j => mmul N W (mtrans (mtrans Vt2)) i j
                           * mmul N W (mtrans (mtrans Vt2)) k j)).
  rewrite (rotation_scatter N (mtrans Vt2) (orthogonal_mtrans N Vt2 HV)).
  apply Rsum_ext. intros b _. unfold W.
  transitivity (U2 i b * (sqrt (clip (S2 b)) * sqrt (clip (S2 b))) * U2 k b);
    [lra|].
  rewrite sqrt_sqrt by apply clip_nonneg. reflexivity.
Qed.

Lemma spread_store_holds :
  holds spread_store (self_K (instance "sqrtkf" None)) (Arr2 1 2 K_1_m1)
  /\ holds spread_store (self_H (instance "sqrtkf" None)) (Arr2 1 2 K_1_m1)
  /\ holds spread_store (self_E (instance "sqrtkf" None)) (Arr2 1 2 E_2_5)
  /\ holds spread_store (self_d (instance "sqrtkf" None)) (Arr1 1 (fun _ => 0)).
Proof.
  repeat split; eexists; split; reflexivity.
Qed.

(** C2 (the code does not do it).  With H = [[1, -1]] and E = [[2, 5]],
    so that H_dash + E = [[3, 4]] = [1] [5] [[3/5, 4/5], [-4/5, 3/5]],
    the matrix that [Sqrt_KF] hands to the second decomposition has
    -1/25 off the diagonal, where M = I - H_dash^T C^-1 H_dash has
    +1/25. *)
Theorem Sqrt_KF_decomposes_other_matrix :
  let Hd := centre 2 K_1_m1 in
  let HE := madd Hd E_2_5 in
  let usv := oracle_3_4 1%nat 2%nat HE in
  svd_valid 1 2 HE usv
  /\ exists st h1 c_1 h2 X,
       Sqrt_KF_mean oracle_3_4 (instance "sqrtkf" None) spread_store
       = (Val st, h1)
       /\ Sqrt_KF_spread st h1 = (Val c_1, h2)
       /\ holds h2 c_1 (Arr2 2 2 X)
       /\ X 0%nat 1%nat = - (1 / 25)
       /\ M_matrix 1 (st_p st) Hd (svd_u usv) (svd_s usv) 0 1 = 1 / 25.
Proof.
  cbv zeta. split.
  - split; [reflexivity|]. split.
    { intros i j Hi Hj. destruct i as [|i], j as [|j]; try lia.
      split; unfold mmul, mtrans; simpl; unfold mid; simpl; lra. }
    split.
    { entries2; split; unfold mmul, mtrans; simpl; unfold Vt_3_4, mid;
        simpl; lra. }
    split; [intros; simpl; lra|]. split; [intros; simpl; lra|].
    intros i j Hi Hj. destruct i as [|i]; [|lia].
    destruct j as [|[|j]]; try lia;
      unfold madd, centre, K_1_m1, E_2_5; simpl; unfold mid; simpl; lra.
  - destruct spread_store_holds as (HK & HH & HE & Hd).
    destruct (Sqrt_KF_mean_run oracle_3_4 (instance "sqrtkf" None)
                spread_store 1 1 2 _ _ _ _ HK HH HE Hd)
      as (st & h1 & ka & Hmean & _ & _ & Hp & HHd & _ & Hu & Hsig & _).
    cbv zeta in Hp, Hu, Hsig.
    change (List.length _) with (kept_count None (1 / 100) [5]) in Hp, Hu.
    rewrite kept_count_single in Hp, Hu by lra.
    destruct (Sqrt_KF_spread_run st h1 1 2 1 _ _ _ Hp ltac:(simpl; lia)
                HHd Hu Hsig)
      as (c_1 & h2 & Hspread & _ & _ & Hc1).
    exists st, h1, c_1, h2. eexists.
    split; [exact Hmean|]. split; [exact Hspread|]. split; [exact Hc1|].
    rewrite spread_matrix_vs_M by exact 2%nat. cbn [Nat.eqb]. rewrite Hp.
    assert (HM : M_matrix 1 1 (centre 2 K_1_m1)
                   (svd_u (oracle_3_4 1%nat 2%nat (madd (centre 2 K_1_m1) E_2_5)))
                   (svd_s (oracle_3_4 1%nat 2%nat (madd (centre 2 K_1_m1) E_2_5)))
                   0 1 = 1 / 25).
    { unfold M_matrix, C_inverse, mmul, mtrans, mdiag, centre, K_1_m1.
      simpl. unfold mid. simpl. field. }
    rewrite HM. split; lra.
Qed.

(** ** The frame: what the update writes *)

Section Frame.

(** The store at the start of the call. *)
Variable h0 : heap.

Lemma framed_ret {A} (a : A) (Q : A -> Prop) :
  Q a -> framed h0 (ret a) Q.
Proof. intros HQ h Hp. split; [exact Hp|]. intros b [= <-]. exact HQ. Qed.

Lemma framed_raise {A} (e : exn) (Q : A -> Prop) :
  framed h0 (raise e) Q.
Proof. intros h Hp. split; [exact Hp|]. intros b [=]. Qed.

Lemma framed_lift {A} (r : res A) :
  framed h0 (lift r) (fun _ => True).
Proof. intros h Hp. split; [exact Hp|]. intros; exact I. Qed.

Lemma framed_weaken {A} (c : M A) (Q Q' : A -> Prop) :
  framed h0 c Q -> (forall a, Q a -> Q' a) -> framed h0 c Q'.
Proof.
  intros Hc HQ h Hp. destruct (Hc h Hp) as [H1 H2].
  split; [exact H1|]. intros a Ha. apply HQ, H2, Ha.
Qed.

Lemma framed_bind {A B} (c : M A) (f : A -> M B)
    (Q : A -> Prop) (Q' : B -> Prop) :
  framed h0 c Q -> (forall a, Q a -> framed h0 (f a) Q') ->
  framed h0 (bind c f) Q'.
Proof.
  intros Hc Hf h Hp. unfold bind.
  destruct (Hc h Hp) as [H1 H2].
  destruct (c h) as [[a|e] h1]; simpl in *.
  - apply (Hf a (H2 a eq_refl) h1 H1).
  - split; [exact H1|]. intros b [=].
Qed.

Lemma framed_deref (e : exn) (o : pyobj) :
  framed h0 (deref e o) (fun _ => True).
Proof.
  intros h Hp. unfold deref.
  destruct o as [l|]; [destruct (nth_error h l)|]; simpl;
    (split; [exact Hp|intros; exact I]).
Qed.

Lemma framed_alloc (a : ndarray) :
  framed h0 (alloc a) (fresh h0).
Proof.
  intros h Hp. unfold alloc. simpl. split.
  - apply preserves_alloc, Hp.
  - intros o [= <-]. exists (List.length h). split; [reflexivity|].
    apply preserves_length, Hp.
Qed.

Lemma framed_store (e : exn) (o : pyobj) (a : ndarray) :
  fresh h0 o -> framed h0 (store e o a) (fun _ => True).
Proof.
  intros (l & -> & Hl) h Hp. unfold store.
  destruct (l <? List.length h)%nat; simpl;
    (split; [|intros; exact I]); [|exact Hp].
  intros l' b Hb.
  assert (l' < List.length h0)%nat by (apply nth_error_Some; congruence).
  rewrite nth_error_replace_other by lia. apply Hp, Hb.
Qed.

Lemma framed_new1 (e : exn) (f : ndarray -> res ndarray)
    (o : pyobj) :
  framed h0 (new1 e f o) (fresh h0).
Proof.
  unfold new1.
  eapply framed_bind; [apply framed_deref|]. intros a _.
  eapply framed_bind; [apply framed_lift|]. intros r _.
  apply framed_alloc.
Qed.

Lemma framed_new2 (e : exn)
    (f : ndarray -> ndarray -> res ndarray) (o1 o2 : pyobj) :
  framed h0 (new2 e f o1 o2) (fresh h0).
Proof.
  unfold new2.
  eapply framed_bind; [apply framed_deref|]. intros a _.
  eapply framed_bind; [apply framed_deref|]. intros b _.
  eapply framed_bind; [apply framed_lift|]. intros r _.
  apply framed_alloc.
Qed.

Lemma framed_when (b : bool) (msg : string) :
  framed h0 (when b (ValueError_unraised msg)) (fun _ => True).
Proof. destruct b; apply framed_ret; exact I. Qed.

Lemma framed_lap_dgesvd (dgesvd : svd_oracle) (o : pyobj) :
  framed h0 (lap_dgesvd dgesvd o)
    (fun '(u, s, vt, _) => fresh h0 u /\ fresh h0 s /\ fresh h0 vt).
Proof.
  unfold lap_dgesvd.
  eapply framed_bind; [apply framed_deref|]. intros a _.
  destruct a; try apply framed_raise.
  eapply framed_bind; [apply framed_alloc|]. intros u Hu.
  eapply framed_bind; [apply framed_alloc|]. intros s Hs.
  eapply framed_bind; [apply framed_alloc|]. intros vt Hvt.
  apply framed_ret. auto.
Qed.

(** One call of the program text, whatever it is. *)
Ltac frame_step :=
  first
    [ apply framed_new1 | apply framed_new2 | apply framed_alloc
    | apply framed_lap_dgesvd | apply framed_when
    | (eapply framed_weaken; [apply framed_deref | intros; exact I])
    | (eapply framed_weaken; [apply framed_lift | intros; exact I])
    | apply framed_deref | apply framed_lift ].

Ltac frame_auto :=
  repeat first
    [ (eapply framed_bind; [solve [frame_step] | intros])
    | match goal with
      | x : (_ * _)%type |- _ => destruct x
      | H : _ /\ _ |- _ => destruct H
      end ].

Lemma framed_truncate (self : Analysis) (u s : pyobj) :
  framed h0 (truncate self u s) (fun _ => True).
Proof.
  unfold truncate. frame_auto.
  eapply framed_bind.
  { destruct (self_truncation self); [frame_step|].
    frame_auto. frame_step. }
  intros. frame_auto. apply framed_ret. exact I.
Qed.

Lemma framed_EnKF (dgesvd : svd_oracle) (self : Analysis) :
  framed h0 (EnKF dgesvd self) (fresh h0).
Proof.
  unfold EnKF. frame_auto.
  eapply framed_bind; [apply framed_truncate|]. intros [[kp ks] ku] _.
  frame_auto. apply framed_ret. assumption.
Qed.

Lemma framed_Sqrt_KF_mean (dgesvd : svd_oracle) (self : Analysis) :
  framed h0 (Sqrt_KF_mean dgesvd self) (fun _ => True).
Proof.
  unfold Sqrt_KF_mean. frame_auto.
  eapply framed_bind; [apply framed_truncate|]. intros [[kp ks] ku] _.
  frame_auto. apply framed_ret. exact I.
Qed.

Lemma framed_Sqrt_KF_spread (st : srkf_state) :
  framed h0 (Sqrt_KF_spread st) (fun _ => True).
Proof.
  unfold Sqrt_KF_spread. frame_auto.
  eapply framed_bind; [apply framed_store; assumption|]. intros _ _.
  apply framed_ret. exact I.
Qed.

Lemma framed_Sqrt_KF_transform (dgesvd : svd_oracle) (N : nat)
    (c_1 : pyobj) :
  framed h0 (Sqrt_KF_transform dgesvd N c_1) (fun _ => True).
Proof.
  unfold Sqrt_KF_transform. frame_auto.
  eapply framed_bind; [apply framed_store; assumption|]. intros _ _.
  frame_auto.
  eapply framed_bind.
  { destruct (_ <? _)%nat; [frame_step|apply framed_ret; assumption]. }
  intros. frame_auto.
  eapply framed_weaken; [frame_step|]. intros; exact I.
Qed.

Lemma framed_Sqrt_KF_rotate (theta : nat -> nat -> R)
    (st : srkf_state) (x2 : pyobj) :
  framed h0 (Sqrt_KF_rotate theta st x2) (fresh h0).
Proof.
  unfold Sqrt_KF_rotate. frame_auto. apply framed_ret. assumption.
Qed.

Lemma framed_Sqrt_KF (dgesvd : svd_oracle)
    (theta : nat -> nat -> R) (self : Analysis) :
  framed h0 (Sqrt_KF dgesvd theta self) (fresh h0).
Proof.
  unfold Sqrt_KF.
  eapply framed_bind; [apply framed_Sqrt_KF_mean|]. intros st _.
  eapply framed_bind; [apply framed_Sqrt_KF_spread|]. intros c_1 _.
  eapply framed_bind; [apply framed_Sqrt_KF_transform|]. intros x2 _.
  apply framed_Sqrt_KF_rotate.
Qed.

Lemma framed_update (dgesvd : svd_oracle)
    (theta : nat -> nat -> R) (self : Analysis) :
  framed h0 (update dgesvd theta self) (fresh h0).
Proof.
  unfold update.
  destruct (String.eqb _ _); [apply framed_EnKF|].
  destruct (String.eqb _ _); [apply framed_Sqrt_KF|apply framed_raise].
Qed.

End Frame.

Lemma fresh_not_held (h : heap) (o x : pyobj) (a : ndarray) :
  fresh h o -> holds h x a -> o <> x.
Proof.
  intros (l & -> & Hl) (l' & -> & Ha) [= ->].
  assert (l' < List.length h)%nat by (apply nth_error_Some; congruence).
  lia.
Qed.

Lemma framed_respected (h : heap) (c : M pyobj) :
  framed h c (fresh h) -> frame_respected h (c h).
Proof.
  intros Hc. destruct (Hc h (preserves_refl h)) as [Hp HQ].
  split; [exact Hp|]. intros Aa Ha. split; [apply HQ, Ha|].
  intros x a Hx. eapply fresh_not_held; [apply HQ, Ha|exact Hx].
Qed.

(** C10.  In every store and for every problem instance, [update],
    [EnKF] and [Sqrt_KF] leave every array that existed before the call
    unchanged, entry for entry (the stored K, H, D, d, E and R among
    them), whether they return or raise; the posterior they return is a
    new array, distinct from every array of the store before the call. *)
Theorem update_respects_frame (dgesvd : svd_oracle)
    (theta : nat -> nat -> R) (self : Analysis) (h : heap) :
  frame_respected h (update dgesvd theta self h)
  /\ frame_respected h (EnKF dgesvd self h)
  /\ frame_respected h (Sqrt_KF dgesvd theta self h).
Proof.
  split; [|split]; apply framed_respected.
  - apply framed_update.
  - apply framed_EnKF.
  - apply framed_Sqrt_KF.
Qed.

Lemma update_respects_frame_witness :
  frame_respected spread_store
    (update oracle_3_4 flip (instance "sqrtkf" None) spread_store).
Proof.
  exact (proj1 (update_respects_frame oracle_3_4 flip
                  (instance "sqrtkf" None) spread_store)).
Defined.

(** * Further properties of the code *)

(** ** Calls that raise *)

Lemma new1_exc (e e' : exn) (f : ndarray -> res ndarray) (o : pyobj)
    (h : heap) (a : ndarray) :
  holds h o a -> f a = Exc e' -> new1 e f o h = (Exc e', h).
Proof.
  intros Ho Hf. unfold new1.
  rewrite (bind_run _ _ _ _ _ (deref_run e _ _ _ Ho)).
  unfold bind, lift. rewrite Hf. reflexivity.
Qed.

Lemma new2_None_r (e : exn) (f : ndarray -> ndarray -> res ndarray)
    (o : pyobj) (h : heap) (a : ndarray) :
  holds h o a -> new2 e f o None h = (Exc e, h).
Proof.
  intros Ho. unfold new2.
  rewrite (bind_run _ _ _ _ _ (deref_run e _ _ _ Ho)). reflexivity.
Qed.

Lemma holds_some (h : heap) (o : pyobj) (a : ndarray) :
  holds h o a -> is_None o = false.
Proof. intros (l & -> & _). reflexivity. Qed.

Lemma bind_ret {A B} (a : A) (f : A -> M B) (h : heap) :
  bind (ret a) f h = f a h.
Proof. reflexivity. Qed.

Ltac step_ret := rewrite ?bind_assoc; rewrite bind_ret; cbv beta iota.

(** [np.squeeze] of a column that is not 1x1. *)
Lemma squeeze_column (m : nat) (v : nat -> nat -> R) :
  m <> 1%nat -> np_squeeze (Arr2 m 1 v) = Val (Arr1 m (fun i => v i 0%nat)).
Proof.
  intros Hm. unfold np_squeeze.
  destruct (Nat.eqb_spec m 1); [contradiction|]. reflexivity.
Qed.

Ltac step_squeeze Hm :=
  rewrite ?bind_assoc;
  let l := fresh "l" in
  let h' := fresh "h" in
  let Hrun := fresh "Hrun" in
  let Hp := fresh "Hp" in
  let Hh := fresh "Hh" in
  let Hl := fresh "Hl" in
  edestruct new1_step as (l & h' & Hrun & Hp & Hh & Hl);
    [| apply squeeze_column; exact Hm
     | rewrite (bind_run _ _ _ _ _ Hrun); clear Hrun ];
    [solve_holds|]; cbv beta.

(** [d.reshape(m1, 1)] is taken for every one-dimensional d. *)
Lemma vector_is_reshaped (m : nat) (dv : nat -> R) :
  (one_in_shape (Arr1 m dv) || (ndim (Arr1 m dv) =? 1)%nat)%bool = true.
Proof. cbn. apply orb_true_r. Qed.

Ltac in_store := eexists; split; reflexivity.

(** ** The constructor: what it writes and what it stores *)

Ltac init_step :=
  first
    [ apply framed_new1 | apply framed_new2 | apply framed_alloc
    | apply framed_when
    | (eapply framed_weaken; [apply framed_deref | intros; exact I])
    | (eapply framed_weaken; [apply framed_lift | intros; exact I]) ].

Ltac init_bind := eapply framed_bind; [solve [init_step] | intros].

Ltac init_auto :=
  repeat first
    [ init_bind
    | match goal with
      | x : (_ * _)%type |- _ => destruct x
      | H : _ /\ _ |- _ => destruct H
      end ].

Ltac init_branch :=
  first [ (apply framed_ret; exact I)
        | (eapply framed_weaken; [init_step | intros; exact I]) ].

Section InitFrame.

(** The store at the start of the call. *)
Variable h0 : heap.

Lemma framed_deref_some (e : exn) (o : pyobj) :
  framed h0 (deref e o) (fun _ => o <> None).
Proof.
  intros h Hp. unfold deref.
  destruct o as [l|]; [destruct (nth_error h l)|]; simpl;
    (split; [exact Hp|]); intros a Ha; congruence.
Qed.

Lemma framed_new2_some (e : exn) (f : ndarray -> ndarray -> res ndarray)
    (o1 o2 : pyobj) :
  framed h0 (new2 e f o1 o2) (fun r => fresh h0 r /\ o2 <> None).
Proof.
  unfold new2.
  eapply framed_bind; [apply framed_deref|]. intros a _.
  eapply framed_bind; [apply framed_deref_some|]. intros b Hb.
  eapply framed_bind; [apply framed_lift|]. intros r _.
  eapply framed_weaken; [apply framed_alloc|]. intros x Hx. split; assumption.
Qed.

Lemma fresh_some (o : pyobj) : fresh h0 o -> o <> None.
Proof. intros (l & -> & _). discriminate. Qed.

(** Every path of the constructor: nothing of [h0] is written; the
    instance holds K, H, R and the options as they were passed, the
    method in lower case, and an E and a D that are not None. *)
Lemma framed___init__ (randn : nat -> nat -> R)
    (K H D d R_ : pyobj) (method : string) (err_std err_perc : option R)
    (E : pyobj) (truncation : option R) (truncation_percent : R)
    (verbose : bool) :
  framed h0
    (__init__ randn K H D d R_ method err_std err_perc E truncation
       truncation_percent verbose)
    (fun self =>
       self_K self = K /\ self_H self = H /\ self_R self = R_
       /\ self_truncation self = truncation
       /\ self_truncation_percent self = truncation_percent
       /\ self_verbose self = verbose
       /\ self_method self = lower method
       /\ self_E self <> None /\ self_D self <> None
       /\ (E <> None -> self_E self = E)
       /\ (D <> None -> self_D self = D)
       /\ (E <> None -> D <> None -> self_d self = d)).
Proof.
  unfold __init__. init_auto.
  eapply framed_bind with
    (Q := fun '(d', E') => (E <> None -> E' = E /\ d' = d)
                           /\ (E' <> None \/ D = None)).
  { destruct E as [lE|]; cbn [is_None negb].
    - init_auto. apply framed_ret. split; [auto|left; discriminate].
    - destruct R_ as [lR|]; cbn [is_None negb].
      + eapply framed_bind; [apply framed_deref_some|]. intros ? Hc. congruence.
      + destruct d as [ld|]; cbn [is_None].
        * init_auto.
          eapply framed_bind with (Q := fun _ => True).
          { match goal with
            | |- context [if ?b then _ else _] => destruct b
            end; init_branch. }
          intros d' _.
          destruct D as [lD|]; cbn [is_None].
          -- init_auto. apply framed_ret.
             split; [congruence|]. left. eapply fresh_some; eassumption.
          -- destruct err_std as [sd|]; [|destruct err_perc as [pc|]].
             ++ init_auto. apply framed_ret.
                split; [congruence|]. left. eapply fresh_some; eassumption.
             ++ init_auto. apply framed_ret.
                split; [congruence|]. left. eapply fresh_some; eassumption.
             ++ apply framed_ret. split; [congruence|]. right; reflexivity.
        * init_auto. apply framed_ret.
          split; [congruence|]. left. eapply fresh_some; eassumption. }
  intros [d' E'] [HE HED].
  init_auto.
  eapply framed_bind with
    (Q := fun '(d'', D') =>
            D' <> None /\ E' <> None /\ (D <> None -> D' = D /\ d'' = d')).
  { destruct D as [lD|]; cbn [is_None].
    - apply framed_ret. split; [discriminate|]. split; [|auto].
      destruct HED; congruence.
    - init_auto.
      eapply framed_bind with (Q := fun _ => True).
      { match goal with
        | |- context [one_in_shape ?x] =>
            destruct (one_in_shape x); [destruct (1 <? ndim x)%nat|]
        end; init_branch. }
      intros d1 _.
      do 3 init_bind.
      eapply framed_bind; [apply framed_new2_some|]. intros D' [HD' HE'].
      apply framed_ret. split; [eapply fresh_some; eassumption|].
      split; [assumption|congruence]. }
  intros [d'' D'] (HD' & HE' & HDD).
  apply framed_ret. cbn.
  repeat split; try assumption; try reflexivity.
  - intros HEn. apply HE, HEn.
  - intros HDn. apply HDD, HDn.
  - intros HEn HDn. destruct (HDD HDn) as [_ ->]. apply HE, HEn.
Qed.

End InitFrame.

(** X1.  Whatever it is given, and whether it returns or raises, the
    constructor leaves every array of the store unchanged: [reshape]
    and [squeeze] of d, the derived E and the generated D are new
    objects.  The instance it returns holds K, H, R, the truncation
    options and the verbosity exactly as they were passed. *)
Theorem init_keeps_callers_arrays (randn : nat -> nat -> R)
    (K H D d R_ : pyobj) (method : string) (err_std err_perc : option R)
    (E : pyobj) (truncation : option R) (truncation_percent : R)
    (verbose : bool) (h : heap) :
  let out := __init__ randn K H D d R_ method err_std err_perc E truncation
               truncation_percent verbose h in
  preserves h (snd out)
  /\ forall self, fst out = Val self ->
       self_K self = K /\ self_H self = H /\ self_R self = R_
       /\ self_truncation self = truncation
       /\ self_truncation_percent self = truncation_percent
       /\ self_verbose self = verbose.
Proof.
  cbv zeta.
  destruct (framed___init__ h randn K H D d R_ method err_std err_perc E
              truncation truncation_percent verbose h (preserves_refl h))
    as [Hp HQ].
  split; [exact Hp|]. intros self Hs.
  destruct (HQ self Hs) as (H1 & H2 & H3 & H4 & H5 & H6 & _).
  repeat split; assumption.
Qed.

(** X2.  An instance that the constructor returns always has an E and
    a D: neither attribute is None, on any path.  An E or a D that was
    passed is stored as the same object, and with both passed d is
    stored as it was passed. *)
Theorem init_resolves_E_and_D (randn : nat -> nat -> R)
    (K H D d R_ : pyobj) (method : string) (err_std err_perc : option R)
    (E : pyobj) (truncation : option R) (truncation_percent : R)
    (verbose : bool) (h h' : heap) (self : Analysis) :
  __init__ randn K H D d R_ method err_std err_perc E truncation
    truncation_percent verbose h = (Val self, h') ->
  self_E self <> None /\ self_D self <> None
  /\ (E <> None -> self_E self = E)
  /\ (D <> None -> self_D self = D)
  /\ (E <> None -> D <> None -> self_d self = d).
Proof.
  intros Hrun.
  destruct (framed___init__ h randn K H D d R_ method err_std err_perc E
              truncation truncation_percent verbose h (preserves_refl h))
    as [_ HQ].
  rewrite Hrun in HQ.
  destruct (HQ self eq_refl)
    as (_ & _ & _ & _ & _ & _ & _ & HE & HD & H1 & H2 & H3).
  repeat split; assumption.
Qed.

Lemma init_resolves_E_and_D_witness :
  self_E (without_d (instance "enkf" None)) = Some 2%nat
  /\ self_D (without_d (instance "enkf" None)) = Some 3%nat.
Proof.
  assert (Hrun : __init__ no_draw (Some 0%nat) (Some 1%nat) (Some 3%nat) None
                   None "enkf" None None (Some 2%nat) None (1 / 100) true
                   consistent_store
                 = (Val (without_d (instance "enkf" None)), consistent_store))
    by (vm_compute; reflexivity).
  destruct (init_resolves_E_and_D _ _ _ _ _ _ _ _ _ _ _ _ _ _ _ _ Hrun)
    as (_ & _ & HE & HD & _).
  split; [apply HE; discriminate|apply HD; discriminate].
Defined.

(** X3.  With K and H but none of E, R, d and D, the constructor raises
    AttributeError and allocates nothing: it reads [D.shape] of None
    (line 60) before it reaches its own test [D is None] (line 63). *)
Theorem init_without_data_raises_AttributeError (randn : nat -> nat -> R)
    (h : heap) (K H : pyobj) (n N m N' : nat) (Kf Hf : nat -> nat -> R)
    (method : string) (err_std err_perc truncation : option R)
    (truncation_percent : R) (verbose : bool) :
  holds h K (Arr2 n N Kf) -> holds h H (Arr2 m N' Hf) ->
  __init__ randn K H None None None method err_std err_perc None truncation
    truncation_percent verbose h = (Exc AttributeError, h).
Proof.
  intros HK HH. unfold __init__.
  do 4 run_step. cbn [is_None negb].
  rewrite ?bind_assoc. reflexivity.
Qed.

Lemma init_without_data_raises_AttributeError_witness :
  __init__ no_draw (Some 0%nat) (Some 1%nat) None None None "enkf" None None
    None None (1 / 100) true consistent_store
  = (Exc AttributeError, consistent_store).
Proof.
  apply (init_without_data_raises_AttributeError no_draw consistent_store
           (Some 0%nat) (Some 1%nat) 1 2 1 2 (fun _ _ => 0) (fun _ _ => 0));
    in_store.
Defined.

(** X4.  With E but neither D nor d, the constructor raises
    AttributeError and allocates nothing: the ValueError of line 95 is
    built and dropped, and [d.shape] of None is read at line 98. *)
Theorem init_without_D_and_d_raises_AttributeError (randn : nat -> nat -> R)
    (h : heap) (K H E R_ : pyobj) (n N m N' m2 N3 : nat)
    (Kf Hf Ef : nat -> nat -> R)
    (method : string) (err_std err_perc truncation : option R)
    (truncation_percent : R) (verbose : bool) :
  holds h K (Arr2 n N Kf) -> holds h H (Arr2 m N' Hf) ->
  holds h E (Arr2 m2 N3 Ef) ->
  __init__ randn K H None None R_ method err_std err_perc E truncation
    truncation_percent verbose h = (Exc AttributeError, h).
Proof.
  intros HK HH HE. unfold __init__.
  do 4 run_step. rewrite (holds_some _ _ _ HE). cbn [is_None negb].
  do 4 run_step. step_ret.
  do 3 run_step. reflexivity.
Qed.

Lemma init_without_D_and_d_raises_AttributeError_witness :
  __init__ no_draw (Some 0%nat) (Some 1%nat) None None None "enkf" None None
    (Some 2%nat) None (1 / 100) true consistent_store
  = (Exc AttributeError, consistent_store).
Proof.
  apply (init_without_D_and_d_raises_AttributeError no_draw consistent_store
           (Some 0%nat) (Some 1%nat) (Some 2%nat) None 1 2 1 2 1 2
           (fun _ _ => 0) (fun _ _ => 0) (fun _ _ => 0));
    in_store.
Defined.

(** X5.  With an error covariance R and no E, the constructor raises
    AttributeError and allocates nothing, whatever R, d and D are: the
    branch for R reads [E.shape] of None (line 50). *)
Theorem init_with_R_and_no_E_raises_AttributeError (randn : nat -> nat -> R)
    (h : heap) (K H D d R_ : pyobj) (n N m N' : nat) (Kf Hf : nat -> nat -> R)
    (method : string) (err_std err_perc truncation : option R)
    (truncation_percent : R) (verbose : bool) :
  holds h K (Arr2 n N Kf) -> holds h H (Arr2 m N' Hf) ->
  R_ <> None ->
  __init__ randn K H D d R_ method err_std err_perc None truncation
    truncation_percent verbose h = (Exc AttributeError, h).
Proof.
  intros HK HH HR. unfold __init__.
  do 4 run_step. cbn [is_None negb].
  destruct R_ as [lR|]; [|contradiction]. cbn [is_None negb].
  rewrite ?bind_assoc. reflexivity.
Qed.

Lemma init_with_R_and_no_E_raises_AttributeError_witness :
  __init__ no_draw (Some 0%nat) (Some 1%nat) None None (Some 2%nat)
    "sqrtkf" None None None None (1 / 100) true covariance_store
  = (Exc AttributeError, covariance_store).
Proof.
  apply (init_with_R_and_no_E_raises_AttributeError no_draw covariance_store
           (Some 0%nat) (Some 1%nat) None None (Some 2%nat) 1 2 1 2
           (fun _ _ => 0) (fun _ _ => 0));
    [in_store | in_store | discriminate].
Defined.

(** X6.  With an observation vector d but no D, E, R, err_std or
    err_perc, the constructor raises TypeError: E stays None, the
    ValueError of line 97 is built and dropped, and the failure comes
    from [len(d)] of the squeezed 0-d array (one observation) or from
    [d + E] with E None (line 103).  The arrays of the caller are
    unchanged. *)
Theorem init_without_error_information_raises_TypeError
    (randn : nat -> nat -> R) (h : heap) (K H d : pyobj) (n N m N' : nat)
    (Kf Hf : nat -> nat -> R) (dv : nat -> R)
    (method : string) (truncation : option R)
    (truncation_percent : R) (verbose : bool) :
  holds h K (Arr2 n N Kf) -> holds h H (Arr2 m N' Hf) ->
  holds h d (Arr1 m dv) ->
  exists h',
    __init__ randn K H None d None method None None None truncation
      truncation_percent verbose h = (Exc TypeError, h')
    /\ preserves h h'.
Proof.
  intros HK HH Hd. unfold __init__.
  do 4 run_step. cbn [is_None negb].
  rewrite (holds_some _ _ _ Hd).
  run_step. rewrite vector_is_reshaped.
  run_step. step_ret. run_step. cbn [is_None]. do 3 run_step.
  cbn [one_in_shape shape existsb Nat.eqb orb ndim Nat.ltb Nat.leb].
  rewrite orb_true_r.
  destruct (Nat.eq_dec m 1) as [->|Hm].
  - run_step. run_step.
    rewrite ?bind_assoc. eexists. split; [reflexivity|solve_preserves].
  - step_squeeze Hm.
    do 3 run_step.
    rewrite ?bind_assoc.
    erewrite bind_exc by (eapply new2_None_r; solve_holds).
    eexists. split; [reflexivity|solve_preserves].
Qed.

Lemma init_without_error_information_raises_TypeError_witness :
  exists h',
    __init__ no_draw (Some 0%nat) (Some 1%nat) None (Some 3%nat) None "enkf"
      None None None None (1 / 100) true D_and_d_store = (Exc TypeError, h')
    /\ preserves D_and_d_store h'.
Proof.
  apply (init_without_error_information_raises_TypeError no_draw
           D_and_d_store (Some 0%nat) (Some 1%nat) (Some 3%nat) 1 2 1 2
           (fun _ _ => 0) (fun _ _ => 0) (fun _ => 0));
    in_store.
Defined.

(** X7.  With a single observation (H has one row, d one entry) and no
    D, E or R, the constructor raises TypeError whatever error
    information it is given: d is reshaped to 1x1 (line 74), squeezed
    to a 0-d array (line 100, [np.rank] being the number of
    dimensions), and [len(d)] fails (line 101). *)
Theorem init_single_observation_raises_TypeError
    (randn : nat -> nat -> R) (h : heap) (K H d : pyobj) (n N N' : nat)
    (Kf Hf : nat -> nat -> R) (dv : nat -> R)
    (method : string) (err_std err_perc truncation : option R)
    (truncation_percent : R) (verbose : bool) :
  holds h K (Arr2 n N Kf) -> holds h H (Arr2 1 N' Hf) ->
  holds h d (Arr1 1 dv) ->
  exists h',
    __init__ randn K H None d None method err_std err_perc None truncation
      truncation_percent verbose h = (Exc TypeError, h')
    /\ preserves h h'.
Proof.
  intros HK HH Hd. unfold __init__.
  do 4 run_step. cbn [is_None negb].
  rewrite (holds_some _ _ _ Hd).
  run_step.
  cbn [one_in_shape shape existsb Nat.eqb orb ndim].
  run_step. cbn [is_None].
  destruct err_std as [sd|]; [|destruct err_perc as [pc|]].
  - do 2 run_step. step_ret. do 4 run_step.
    cbn [one_in_shape shape existsb Nat.eqb orb ndim Nat.ltb Nat.leb].
    do 2 run_step. rewrite ?bind_assoc.
    eexists. split; [reflexivity|solve_preserves].
  - do 4 run_step. step_ret. do 4 run_step.
    cbn [one_in_shape shape existsb Nat.eqb orb ndim Nat.ltb Nat.leb].
    do 2 run_step. rewrite ?bind_assoc.
    eexists. split; [reflexivity|solve_preserves].
  - step_ret. do 4 run_step.
    cbn [one_in_shape shape existsb Nat.eqb orb ndim Nat.ltb Nat.leb].
    do 2 run_step. rewrite ?bind_assoc.
    eexists. split; [reflexivity|solve_preserves].
Qed.

Lemma init_single_observation_raises_TypeError_witness :
  exists h',
    __init__ no_draw (Some 0%nat) (Some 1%nat) None (Some 3%nat) None "enkf"
      (Some 1) None None None (1 / 100) true D_and_d_store
    = (Exc TypeError, h')
    /\ preserves D_and_d_store h'.
Proof.
  apply (init_single_observation_raises_TypeError no_draw D_and_d_store
           (Some 0%nat) (Some 1%nat) (Some 3%nat) 1 2 2
           (fun _ _ => 0) (fun _ _ => 0) (fun _ => 0));
    in_store.
Defined.

(** X8.  With an observation vector d of m entries (m not 1), an H of
    m rows and N columns and err_std, and no D, E or R, the constructor
    returns an instance with E = err_std * randn(m, N), with d as an
    m x 1 column and with D = d + E, entry (i, j) being
    d[i] + err_std * randn[i, j]. *)
Theorem init_perturbs_observations
    (randn : nat -> nat -> R) (h : heap) (K H d : pyobj) (n N m N' : nat)
    (Kf Hf : nat -> nat -> R) (dv : nat -> R) (sd : R)
    (method : string) (err_perc truncation : option R)
    (truncation_percent : R) (verbose : bool) :
  holds h K (Arr2 n N Kf) -> holds h H (Arr2 m N' Hf) ->
  holds h d (Arr1 m dv) -> m <> 1%nat ->
  exists self h',
    __init__ randn K H None d None method (Some sd) err_perc None truncation
      truncation_percent verbose h = (Val self, h')
    /\ preserves h h'
    /\ holds h' (self_E self) (Arr2 m N' (fun i j => sd * randn i j))
    /\ holds h' (self_D self) (Arr2 m N' (fun i j => dv i + sd * randn i j))
    /\ holds h' (self_d self) (Arr2 m 1 (fun i _ => dv i)).
Proof.
  intros HK HH Hd Hm. unfold __init__.
  do 4 run_step. cbn [is_None negb].
  rewrite (holds_some _ _ _ Hd).
  run_step. rewrite vector_is_reshaped.
  run_step. cbn [is_None].
  do 2 run_step. step_ret. do 4 run_step.
  cbn [one_in_shape shape existsb Nat.eqb orb ndim Nat.ltb Nat.leb].
  rewrite orb_true_r.
  step_squeeze Hm.
  do 4 run_step. step_ret.
  do 2 eexists. split; [reflexivity|]. cbn [self_E self_D self_d].
  split; [solve_preserves|].
  split; [solve_holds|]. split; solve_holds.
Qed.

Lemma init_perturbs_observations_witness :
  exists self h',
    __init__ no_draw (Some 0%nat) (Some 1%nat) None (Some 2%nat) None "enkf"
      (Some 1) None None None (1 / 100) true obs_store = (Val self, h')
    /\ preserves obs_store h'
    /\ holds h' (self_E self) (Arr2 2 3 (fun i j => 1 * no_draw i j))
    /\ holds h' (self_D self) (Arr2 2 3 (fun i j => 0 + 1 * no_draw i j))
    /\ holds h' (self_d self) (Arr2 2 1 (fun i _ => 0)).
Proof.
  apply (init_perturbs_observations no_draw obs_store
           (Some 0%nat) (Some 1%nat) (Some 2%nat) 1 3 2 3
           (fun _ _ => 0) (fun _ _ => 0) (fun _ => 0) 1);
    [in_store | in_store | in_store | discriminate].
Defined.

(** X9.  With err_perc and no err_std, D, E or R, the constructor
    multiplies the vector err_perc * std(H, axis=1), of length m, with
    the m x N sample: numpy aligns the vector with the columns, so for
    an H with m rows and N columns, m and N different and neither equal
    to 1, the constructor raises numpy's ValueError (line 82). *)
Theorem init_err_perc_needs_square_H
    (randn : nat -> nat -> R) (h : heap) (K H d : pyobj) (n N m N' : nat)
    (Kf Hf : nat -> nat -> R) (dv : nat -> R) (pc : R)
    (method : string) (truncation : option R)
    (truncation_percent : R) (verbose : bool) :
  holds h K (Arr2 n N Kf) -> holds h H (Arr2 m N' Hf) ->
  holds h d (Arr1 m dv) ->
  m <> N' -> m <> 1%nat -> N' <> 1%nat ->
  exists msg h',
    __init__ randn K H None d None method None (Some pc) None truncation
      truncation_percent verbose h
    = (Exc (ValueError msg), h')
    /\ preserves h h'.
Proof.
  intros HK HH Hd HmN Hm HN. unfold __init__.
  do 4 run_step. cbn [is_None negb].
  rewrite (holds_some _ _ _ Hd).
  run_step. rewrite vector_is_reshaped.
  run_step. cbn [is_None].
  do 3 run_step. rewrite ?bind_assoc.
  erewrite bind_exc.
  2:{ eapply new2_exc; [solve_holds|solve_holds|].
      unfold np_mul, broadcast. cbn [rows2 cols2]. rewrite bdim_1_l.
      unfold bdim.
      destruct (Nat.eqb_spec m N'); [contradiction|].
      destruct (Nat.eqb_spec m 1); [contradiction|].
      destruct (Nat.eqb_spec N' 1); [contradiction|]. reflexivity. }
  do 2 eexists. split; [reflexivity|solve_preserves].
Qed.

Lemma init_err_perc_needs_square_H_witness :
  exists msg h',
    __init__ no_draw (Some 0%nat) (Some 1%nat) None (Some 2%nat) None "enkf"
      None (Some 1) None None (1 / 100) true obs_store
    = (Exc (ValueError msg), h')
    /\ preserves obs_store h'.
Proof.
  apply (init_err_perc_needs_square_H no_draw obs_store
           (Some 0%nat) (Some 1%nat) (Some 2%nat) 1 3 2 3
           (fun _ _ => 0) (fun _ _ => 0) (fun _ => 0) 1);
    [in_store | in_store | in_store | discriminate | discriminate
    | discriminate].
Defined.

(** X10.  With err_perc and a square H (m rows and m columns, m not 1),
    the constructor returns an instance whose E has entry (i, j) equal
    to err_perc * std(H[j, :]) * randn[i, j]: the error of measurement
    i in realization j is scaled by the standard deviation of the
    predictions of measurement j, the column index. *)
Theorem init_err_perc_scales_by_column
    (randn : nat -> nat -> R) (h : heap) (K H d : pyobj) (n N m : nat)
    (Kf Hf : nat -> nat -> R) (dv : nat -> R) (pc : R)
    (method : string) (truncation : option R)
    (truncation_percent : R) (verbose : bool) :
  holds h K (Arr2 n N Kf) -> holds h H (Arr2 m m Hf) ->
  holds h d (Arr1 m dv) -> m <> 1%nat ->
  exists self h',
    __init__ randn K H None d None method None (Some pc) None truncation
      truncation_percent verbose h = (Val self, h')
    /\ holds h' (self_E self)
         (Arr2 m m (fun i j => pc * row_std m Hf j * randn i j)).
Proof.
  intros HK HH Hd Hm. unfold __init__.
  do 4 run_step. cbn [is_None negb].
  rewrite (holds_some _ _ _ Hd).
  run_step. rewrite vector_is_reshaped.
  run_step. cbn [is_None].
  do 4 run_step. step_ret. do 4 run_step.
  cbn [one_in_shape shape existsb Nat.eqb orb ndim Nat.ltb Nat.leb].
  rewrite orb_true_r.
  step_squeeze Hm.
  do 4 run_step. step_ret.
  do 2 eexists. split; [reflexivity|]. cbn [self_E self_D self_d].
  solve_holds.
Qed.

Lemma init_err_perc_scales_by_column_witness :
  exists self h',
    __init__ no_draw (Some 0%nat) (Some 3%nat) None (Some 2%nat) None "enkf"
      None (Some 1) None None (1 / 100) true obs_store = (Val self, h')
    /\ holds h' (self_E self)
         (Arr2 2 2
            (fun i j => 1 * row_std 2 (fun _ _ => 0) j * no_draw i j)).
Proof.
  apply (init_err_perc_scales_by_column no_draw obs_store
           (Some 0%nat) (Some 3%nat) (Some 2%nat) 1 3 2
           (fun _ _ => 0) (fun _ _ => 0) (fun _ => 0) 1);
    [in_store | in_store | in_store | discriminate].
Defined.

(** X11.  With D alone (no d, E, R) and a D whose number of rows
    differs from that of H, the constructor raises numpy's ValueError:
    the mean of D over the realizations cannot be reshaped to (m, 1)
    (line 68).  The ValueError that line 62 builds is not raised. *)
Theorem init_rejects_D_with_other_rows
    (randn : nat -> nat -> R) (h : heap) (K H D : pyobj)
    (n N m N' m4 N4 : nat) (Kf Hf Df : nat -> nat -> R)
    (method : string) (err_std err_perc truncation : option R)
    (truncation_percent : R) (verbose : bool) :
  holds h K (Arr2 n N Kf) -> holds h H (Arr2 m N' Hf) ->
  holds h D (Arr2 m4 N4 Df) -> m4 <> m ->
  exists msg h',
    __init__ randn K H D None None method err_std err_perc None truncation
      truncation_percent verbose h
    = (Exc (ValueError msg), h')
    /\ preserves h h'.
Proof.
  intros HK HH HD Hm. unfold __init__.
  do 4 run_step. cbn [is_None negb].
  do 5 run_step. rewrite ?bind_assoc.
  erewrite bind_exc.
  2:{ eapply new1_exc; [solve_holds|].
      unfold reshape_col. cbn [size].
      destruct (Nat.eqb_spec m4 m); [contradiction|]. reflexivity. }
  do 2 eexists. split; [reflexivity|solve_preserves].
Qed.

Lemma init_rejects_D_with_other_rows_witness :
  exists msg h',
    __init__ no_draw (Some 0%nat) (Some 1%nat) (Some 2%nat) None None "enkf"
      None None None None (1 / 100) true mismatched_store
    = (Exc (ValueError msg), h')
    /\ preserves mismatched_store h'.
Proof.
  apply (init_rejects_D_with_other_rows no_draw mismatched_store
           (Some 0%nat) (Some 1%nat) (Some 2%nat) 1 3 1 2 2 2
           (fun _ _ => 0) (fun _ _ => 0) (fun _ => fun _ => 0));
    [in_store | in_store | in_store | discriminate].
Defined.

(** X12.  With D alone (no d, E, R) and a D with as many rows as H,
    the constructor returns an instance that keeps D itself, takes d
    to be the mean of D over the realizations (a vector of length m)
    and E to be D minus that mean, row by row. *)
Theorem init_derives_d_and_E_from_D
    (randn : nat -> nat -> R) (h : heap) (K H D : pyobj) (n N m N' N4 : nat)
    (Kf Hf Df : nat -> nat -> R)
    (method : string) (err_std err_perc truncation : option R)
    (truncation_percent : R) (verbose : bool) :
  holds h K (Arr2 n N Kf) -> holds h H (Arr2 m N' Hf) ->
  holds h D (Arr2 m N4 Df) ->
  exists self h',
    __init__ randn K H D None None method err_std err_perc None truncation
      truncation_percent verbose h = (Val self, h')
    /\ preserves h h'
    /\ self_D self = D
    /\ holds h' (self_d self) (Arr1 m (row_mean N4 Df))
    /\ holds h' (self_E self) (Arr2 m N4 (centre N4 Df)).
Proof.
  intros HK HH HD. unfold __init__.
  do 4 run_step. cbn [is_None negb].
  do 10 run_step. step_ret. run_step.
  rewrite (holds_some _ _ _ HD). cbv iota. step_ret.
  do 2 eexists. split; [reflexivity|]. cbn [self_E self_D self_d].
  split; [solve_preserves|]. split; [reflexivity|].
  split; solve_holds.
Qed.

Lemma init_derives_d_and_E_from_D_witness :
  exists self h',
    __init__ no_draw (Some 0%nat) (Some 1%nat) (Some 3%nat) None None "enkf"
      None None None None (1 / 100) true consistent_store = (Val self, h')
    /\ preserves consistent_store h'
    /\ self_D self = Some 3%nat
    /\ holds h' (self_d self) (Arr1 1 (row_mean 2 (fun _ _ => 0)))
    /\ holds h' (self_E self) (Arr2 1 2 (centre 2 (fun _ _ => 0))).
Proof.
  apply (init_derives_d_and_E_from_D no_draw consistent_store
           (Some 0%nat) (Some 1%nat) (Some 3%nat) 1 2 1 2 2
           (fun _ _ => 0) (fun _ _ => 0) (fun _ _ => 0));
    in_store.
Defined.

(** X13.  With E and a one-dimensional d (as many entries as E has
    rows) and no D, the constructor returns an instance that keeps E
    itself, holds d as a column and D = d + E: entry (i, j) of D is
    d[i] + E[i, j] (lines 93-103).  A single observation is accepted
    here, d being one-dimensional already. *)
Theorem init_builds_D_from_d_and_E
    (randn : nat -> nat -> R) (h : heap) (K H E d R_ : pyobj)
    (n N m N' m2 N3 : nat) (Kf Hf Ef : nat -> nat -> R) (dv : nat -> R)
    (method : string) (err_std err_perc truncation : option R)
    (truncation_percent : R) (verbose : bool) :
  holds h K (Arr2 n N Kf) -> holds h H (Arr2 m N' Hf) ->
  holds h E (Arr2 m2 N3 Ef) -> holds h d (Arr1 m2 dv) ->
  exists self h',
    __init__ randn K H None d R_ method err_std err_perc E truncation
      truncation_percent verbose h = (Val self, h')
    /\ preserves h h'
    /\ self_E self = E
    /\ holds h' (self_d self) (Arr2 m2 1 (fun i _ => dv i))
    /\ holds h' (self_D self) (Arr2 m2 N3 (fun i j => dv i + Ef i j)).
Proof.
  intros HK HH HE Hd. unfold __init__.
  do 4 run_step. rewrite (holds_some _ _ _ HE). cbn [is_None negb].
  do 4 run_step. step_ret. do 4 run_step.
  assert (Hsq : (if one_in_shape (Arr1 m2 dv)
                 then if (1 <? ndim (Arr1 m2 dv))%nat
                      then new1 TypeError np_squeeze d else ret d
                 else ret d) = ret d).
  { destruct (one_in_shape (Arr1 m2 dv)); reflexivity. }
  rewrite Hsq. step_ret. do 4 run_step. step_ret.
  do 2 eexists. split; [reflexivity|]. cbn [self_E self_D self_d].
  split; [solve_preserves|]. split; [reflexivity|].
  split; solve_holds.
Qed.

Lemma init_builds_D_from_d_and_E_witness :
  exists self h',
    __init__ no_draw (Some 0%nat) (Some 1%nat) None (Some 4%nat) None "enkf"
      None None (Some 2%nat) None (1 / 100) true spread_store
    = (Val self, h')
    /\ preserves spread_store h'
    /\ self_E self = Some 2%nat
    /\ holds h' (self_d self) (Arr2 1 1 (fun i _ => 0))
    /\ holds h' (self_D self) (Arr2 1 2 (fun i j => 0 + E_2_5 i j)).
Proof.
  apply (init_builds_D_from_d_and_E no_draw spread_store
           (Some 0%nat) (Some 1%nat) (Some 2%nat) (Some 4%nat) None
           1 2 1 2 1 2 K_1_m1 K_1_m1 E_2_5 (fun _ => 0));
    in_store.
Defined.

(** X14.  The constructor stores the method in lower case, so [update]
    dispatches on the lower-cased name: an instance built with a method
    whose lower case is "enkf" runs [EnKF], one whose lower case is
    "sqrtkf" runs [Sqrt_KF], and with any other method [update] raises
    ValueError and leaves the store as it is. *)
Theorem update_dispatches_on_lowercased_method (randn : nat -> nat -> R)
    (K H D d R_ : pyobj) (method : string) (err_std err_perc : option R)
    (E : pyobj) (truncation : option R) (truncation_percent : R)
    (verbose : bool) (h h' : heap) (self : Analysis)
    (dgesvd : svd_oracle) (theta : nat -> nat -> R) :
  __init__ randn K H D d R_ method err_std err_perc E truncation
    truncation_percent verbose h = (Val self, h') ->
  (lower method = "enkf"%string ->
   update dgesvd theta self = EnKF dgesvd self)
  /\ (lower method = "sqrtkf"%string ->
      update dgesvd theta self = Sqrt_KF dgesvd theta self)
  /\ (lower method <> "enkf"%string -> lower method <> "sqrtkf"%string ->
      forall h2, update dgesvd theta self h2
                 = (Exc (ValueError "Unknown method..."), h2)).
Proof.
  intros Hrun.
  destruct (framed___init__ h randn K H D d R_ method err_std err_perc E
              truncation truncation_percent verbose h (preserves_refl h))
    as [_ HQ].
  rewrite Hrun in HQ.
  destruct (HQ self eq_refl) as (_ & _ & _ & _ & _ & _ & Hm & _).
  unfold update. rewrite Hm. repeat split.
  - intros ->. reflexivity.
  - intros ->. reflexivity.
  - intros H1 H2 h2.
    destruct (String.eqb_spec (lower method) "enkf"); [contradiction|].
    destruct (String.eqb_spec (lower method) "sqrtkf"); [contradiction|].
    reflexivity.
Qed.

Lemma update_dispatches_on_lowercased_method_witness :
  update unit_oracle mid (without_d (instance "sqrtkf" None))
  = Sqrt_KF unit_oracle mid (without_d (instance "sqrtkf" None)).
Proof.
  assert (Hrun : __init__ no_draw (Some 0%nat) (Some 1%nat) (Some 3%nat) None
                   None "SqrtKF" None None (Some 2%nat) None (1 / 100) true
                   consistent_store
                 = (Val (without_d (instance "sqrtkf" None)),
                    consistent_store))
    by (vm_compute; reflexivity).
  apply (proj1 (proj2 (update_dispatches_on_lowercased_method _ _ _ _ _ _ _ _
                         _ _ _ _ _ _ _ _ unit_oracle mid Hrun))).
  reflexivity.
Defined.

(** ** The truncation: positivity, order, the zero spectrum *)

Lemma keeps_positive (tr : option R) (pc : R) (s : list R) (x : R) :
  match tr with Some t => 0 < t | None => 0 < pc end ->
  In x (energies s) ->
  keeps tr pc (energies s) x = true -> 0 < x.
Proof.
  intros Hpos Hx Hk. unfold keeps in Hk. destruct tr as [t|].
  - apply Rgeb_true_iff in Hk. lra.
  - apply ge_share_energy in Hk; [|exact Hx]. destruct Hk as [Hnz Hle].
    assert (H0 : 0 <= x) by (eapply energies_nonneg; eauto).
    assert (Ht : 0 <= total (energies s))
      by (apply total_nonneg; intros; eapply energies_nonneg; eauto).
    destruct (Req_dec x 0) as [->|Hne]; [|lra].
    exfalso. unfold Rdiv in Hle. rewrite Rmult_0_l in Hle. lra.
Qed.

(** X15.  In the block that [EnKF] and [Sqrt_KF] share, with a positive
    truncation (or, without one, a positive truncation_percent), every
    retained squared singular value is positive: [s_ = 1.0 / s_]
    divides by no zero, and every entry of the inverted array is
    positive. *)
Theorem truncate_inverts_positive_energies (self : Analysis) (h : heap)
    (u s : pyobj) (m k : nat) (U : nat -> nat -> R) (sv : nat -> R) :
  holds h u (Arr2 m m U) -> holds h s (Arr1 k sv) ->
  match self_truncation self with
  | Some t => 0 < t
  | None => 0 < self_truncation_percent self
  end ->
  exists p s_ u_ h' inv,
    truncate self u s h = (Val (p, s_, u_), h')
    /\ holds h' s_ (Arr1 p inv)
    /\ forall i, (i < p)%nat ->
         exists x, In x (energies (map sv (seq 0 k)))
                   /\ 0 < x /\ inv i = 1 / x /\ 0 < inv i.
Proof.
  intros Hu Hs Hpos.
  destruct (truncate_run self h u s m m k U sv Hu Hs)
    as (s_ & u_ & h' & Hrun & _ & _ & _ & Hs_ & _).
  cbv zeta in Hrun, Hs_. rewrite retained_filter in Hrun, Hs_.
  do 2 eexists. exists u_, h'. eexists.
  split; [exact Hrun|]. split; [exact Hs_|].
  intros i Hi.
  match type of Hi with (_ < List.length ?l)%nat => set (kept := l) in * end.
  exists (nth i kept 0).
  assert (Hin : In (nth i kept 0) kept) by (apply nth_In; exact Hi).
  apply filter_In in Hin. destruct Hin as [Hin Hk].
  assert (Hx := keeps_positive _ _ _ _ Hpos Hin Hk).
  split; [exact Hin|]. split; [exact Hx|]. split; [reflexivity|].
  apply Rdiv_lt_0_compat; lra.
Qed.

Lemma truncate_inverts_positive_energies_witness :
  exists p s_ u_ h' inv,
    truncate (instance "enkf" None) (Some 0%nat) (Some 1%nat) spectrum_store
    = (Val (p, s_, u_), h')
    /\ holds h' s_ (Arr1 p inv)
    /\ forall i, (i < p)%nat ->
         exists x, In x (energies (map (fun _ => 5) (seq 0 1)))
                   /\ 0 < x /\ inv i = 1 / x /\ 0 < inv i.
Proof.
  apply (truncate_inverts_positive_energies (instance "enkf" None)
           spectrum_store (Some 0%nat) (Some 1%nat) 1 1
           (fun _ _ => 1) (fun _ => 5));
    [in_store | in_store | simpl; lra].
Defined.

Lemma keeps_monotone (tr : option R) (pc : R) (l : list R) (x y : R) :
  0 <= total l -> x <= y ->
  keeps tr pc l x = true -> keeps tr pc l y = true.
Proof.
  intros Ht Hxy. unfold keeps. destruct tr as [t|].
  - rewrite !Rgeb_true_iff. lra.
  - unfold ge_share. destruct (Req_dec_T (total l) 0) as [Hz|Hnz].
    + rewrite !Rltb_true_iff. lra.
    + rewrite !Rgeb_true_iff. intros Hle.
      apply Rle_trans with (x / total l); [exact Hle|].
      unfold Rdiv. apply Rmult_le_compat_r; [|exact Hxy].
      apply Rlt_le, Rinv_0_lt_compat. lra.
Qed.

Lemma filter_nil_all (f : R -> bool) (l : list R) :
  (forall x, In x l -> f x = false) -> filter f l = [].
Proof.
  induction l as [|a l IH]; intros Hf; simpl; [reflexivity|].
  rewrite (Hf a (or_introl eq_refl)). apply IH.
  intros x Hx. apply Hf. right. exact Hx.
Qed.

Lemma filter_prefix (f : R -> bool) (l : list R) :
  non_increasing l ->
  (forall x y, x <= y -> f x = true -> f y = true) ->
  filter f l = firstn (List.length (filter f l)) l.
Proof.
  intros Hs Hf. induction l as [|a l IH]; [reflexivity|].
  destruct Hs as [Ha Hs]. simpl.
  destruct (f a) eqn:Hfa.
  - simpl. f_equal. apply IH. exact Hs.
  - rewrite filter_nil_all; [reflexivity|].
    intros x Hx. destruct (f x) eqn:Hfx; [|reflexivity].
    rewrite (Hf x a (Ha x Hx) Hfx) in Hfa. discriminate.
Qed.

Lemma energies_non_increasing (s : list R) :
  (forall x, In x s -> 0 <= x) -> non_increasing s ->
  non_increasing (energies s).
Proof.
  induction s as [|a s IH]; intros Hpos Hs; [exact I|].
  destruct Hs as [Ha Hs]. simpl. split.
  - intros y Hy. fold (energies s) in Hy. unfold energies in Hy.
    apply in_map_iff in Hy. destruct Hy as (z & <- & Hz).
    assert (0 <= z) by (apply Hpos; right; exact Hz).
    assert (z <= a) by (apply Ha, Hz). nra.
  - apply IH; [|exact Hs]. intros x Hx. apply Hpos. right. exact Hx.
Qed.

(** X16.  For singular values that are non-negative and in
    non-increasing order, as LAPACK returns them, the retained squared
    values are the first [p] squared values: the mask selects a prefix,
    so the first [p] columns of [u] that [u[:, 0:p]] keeps are the
    singular vectors of the retained values. *)
Theorem retained_is_a_prefix (tr : option R) (pc : R) (s : list R) :
  (forall x, In x s -> 0 <= x) -> non_increasing s ->
  retained tr pc (energies s)
  = firstn (kept_count tr pc s) (energies s).
Proof.
  intros Hpos Hs. unfold kept_count. rewrite retained_filter.
  apply filter_prefix.
  - apply energies_non_increasing; assumption.
  - intros x y. apply keeps_monotone.
    apply total_nonneg. intros z Hz. eapply energies_nonneg; eauto.
Qed.

Lemma retained_is_a_prefix_witness :
  retained (Some 2) (1 / 100) (energies [2; 1])
  = firstn (kept_count (Some 2) (1 / 100) [2; 1]) (energies [2; 1]).
Proof.
  apply (retained_is_a_prefix (Some 2) (1 / 100) [2; 1]).
  - intros x [<-|[<-|[]]]; lra.
  - simpl. repeat split; intros y Hy; [destruct Hy as [<-|[]]; lra|destruct Hy].
Defined.

(** X17.  When every singular value is zero, the percentage rule
    retains nothing, whatever truncation_percent is (each share is 0/0,
    which compares false); an explicit truncation that is not positive
    retains every value, the zeros included. *)
Theorem zero_spectrum_keeps_nothing (pc t : R) (s : list R) :
  (forall x, In x s -> x = 0) ->
  kept_count None pc s = 0%nat
  /\ (t <= 0 -> kept_count (Some t) pc s = List.length s).
Proof.
  intros Hz. unfold kept_count. rewrite !retained_filter.
  assert (He : forall x, In x (energies s) -> x = 0).
  { intros x Hx. unfold energies in Hx. apply in_map_iff in Hx.
    destruct Hx as (y & <- & Hy). rewrite (Hz y Hy). lra. }
  assert (Ht : total (energies s) = 0).
  { clear Hz. induction (energies s) as [|a l IH]; [reflexivity|].
    simpl. rewrite (He a (or_introl eq_refl)), IH; [lra|].
    intros x Hx. apply He. right. exact Hx. }
  split.
  - rewrite filter_nil_all; [reflexivity|].
    intros x Hx. unfold keeps, ge_share. rewrite Ht.
    destruct (Req_dec_T 0 0) as [_|Hne]; [|contradiction].
    rewrite (He x Hx). apply not_true_is_false.
    rewrite Rltb_true_iff. lra.
  - intros Hle.
    assert (Hall : filter (keeps (Some t) pc (energies s)) (energies s)
                   = energies s).
    { apply forallb_filter_id. apply forallb_forall. intros x Hx.
      unfold keeps. apply Rgeb_true_iff. rewrite (He x Hx). exact Hle. }
    rewrite Hall. unfold energies. apply length_map.
Qed.

Lemma zero_spectrum_keeps_nothing_witness :
  kept_count None 1 [0; 0] = 0%nat
  /\ (- 1 <= 0 -> kept_count (Some (- 1)) 1 [0; 0] = 2%nat).
Proof.
  apply (zero_spectrum_keeps_nothing 1 (- 1) [0; 0]).
  intros x [<-|[<-|[]]]; reflexivity.
Defined.

(** ** EnKF: the update as a gain applied to the innovations *)

(** What [EnKF] returns: K + G (D - H) with the gain G. *)
Lemma EnKF_run (dgesvd : svd_oracle) (self : Analysis) (h : heap)
    (n m N : nat) (Kf Hf Df Ef : nat -> nat -> R) :
  holds h (self_K self) (Arr2 n N Kf) ->
  holds h (self_H self) (Arr2 m N Hf) ->
  holds h (self_D self) (Arr2 m N Df) ->
  holds h (self_E self) (Arr2 m N Ef) ->
  exists Aa h',
    EnKF dgesvd self h = (Val Aa, h')
    /\ preserves h h'
    /\ holds h' Aa
         (Arr2 n N
            (madd Kf
               (mmul m
                  (EnKF_gain dgesvd (self_truncation self)
                     (self_truncation_percent self) m N Kf Hf Ef)
                  (msub Df Hf)))).
Proof.
  intros HK HH HD HE. unfold EnKF.
  do 11 run_step.
  rewrite ?bind_assoc.
  match goal with |- context [@bind _ _ (truncate self ?u ?s) _ ?h] =>
    edestruct (truncate_run self h u s) as (s_ & u_ & h' & Hrun & Hp' & _ & _ & Hs_ & Hu_);
      [solve_holds | solve_holds | ] end.
  rewrite (bind_run _ _ _ _ _ Hrun); clear Hrun; cbv beta iota.
  match type of Hs_ with context [List.length ?k] => set (kept := k) in * end.
  assert (Hkm : (List.length kept <= m)%nat).
  { subst kept. etransitivity; [apply retained_length|].
    unfold energies. rewrite !length_map, length_seq. lia. }
  rewrite (Nat.min_l _ _ Hkm) in Hu_.
  do 9 run_step.
  do 2 eexists. split; [reflexivity|]. split; [solve_preserves|].
  eapply holds_eq; [solve_holds|]. fun_ext2.
  unfold EnKF_gain, gain. cbv zeta. fold kept.
  apply (enkf_chain m N (List.length kept) Kf (centre N Kf) (centre N Hf)).
Qed.

Lemma mmul_zero_r (k : nat) (A B : nat -> nat -> R) (i j : nat) :
  (forall l, (l < k)%nat -> B l j = 0) -> mmul k A B i j = 0.
Proof.
  intros HB. unfold mmul.
  rewrite (Rsum_ext k _ (fun _ => 0)); [apply Rsum_zero|].
  intros l Hl. rewrite HB by exact Hl. lra.
Qed.

Lemma mmul_zero_l (k : nat) (A B : nat -> nat -> R) (i j : nat) :
  (forall l, (l < k)%nat -> A i l = 0) -> mmul k A B i j = 0.
Proof.
  intros HA. unfold mmul.
  rewrite (Rsum_ext k _ (fun _ => 0)); [apply Rsum_zero|].
  intros l Hl. rewrite HA by exact Hl. lra.
Qed.

(** X18.  When the perturbed observations D equal the predictions H,
    entry for entry, [EnKF] returns an ensemble equal to K: without
    innovation nothing is updated, whatever the decomposition and the
    truncation are. *)
Theorem EnKF_without_innovation_returns_K (dgesvd : svd_oracle)
    (self : Analysis) (h : heap) (n m N : nat)
    (Kf Hf Df Ef : nat -> nat -> R) :
  holds h (self_K self) (Arr2 n N Kf) ->
  holds h (self_H self) (Arr2 m N Hf) ->
  holds h (self_D self) (Arr2 m N Df) ->
  holds h (self_E self) (Arr2 m N Ef) ->
  (forall i j, (i < m)%nat -> (j < N)%nat -> Df i j = Hf i j) ->
  exists Aa h' A,
    EnKF dgesvd self h = (Val Aa, h')
    /\ holds h' Aa A
    /\ arr_eq A (Arr2 n N Kf).
Proof.
  intros HK HH HD HE Heq.
  destruct (EnKF_run dgesvd self h n m N Kf Hf Df Ef HK HH HD HE)
    as (Aa & h' & Hrun & _ & HA).
  exists Aa, h'. eexists. split; [exact Hrun|]. split; [exact HA|].
  split; [reflexivity|]. intros i j Hi Hj. cbn [at2 rows2 cols2] in *.
  unfold madd. rewrite mmul_zero_r; [lra|].
  intros l Hl. unfold msub. rewrite Heq by assumption. lra.
Qed.

Lemma EnKF_without_innovation_returns_K_witness :
  exists Aa h' A,
    EnKF unit_oracle (instance "enkf" None) consistent_store = (Val Aa, h')
    /\ holds h' Aa A
    /\ arr_eq A (Arr2 1 2 (fun _ _ => 0)).
Proof.
  apply (EnKF_without_innovation_returns_K unit_oracle (instance "enkf" None)
           consistent_store 1 1 2 (fun _ _ => 0) (fun _ _ => 0)
           (fun _ _ => 0) (fun _ _ => 0));
    [in_store | in_store | in_store | in_store | reflexivity].
Defined.

(** X19.  [EnKF] updates each realization from its own perturbed
    observations: two problem instances that differ only in D, with
    the same column j of D, get the same column j of the analysed
    ensemble. *)
Theorem EnKF_updates_each_realization_from_its_own_column
    (dgesvd : svd_oracle) (self : Analysis) (h : heap) (D' : pyobj)
    (n m N : nat) (Kf Hf Df Df' Ef : nat -> nat -> R) (j : nat) :
  holds h (self_K self) (Arr2 n N Kf) ->
  holds h (self_H self) (Arr2 m N Hf) ->
  holds h (self_D self) (Arr2 m N Df) ->
  holds h (self_E self) (Arr2 m N Ef) ->
  holds h D' (Arr2 m N Df') ->
  (j < N)%nat ->
  (forall c, (c < m)%nat -> Df c j = Df' c j) ->
  exists o1 h1 A1 o2 h2 A2,
    EnKF dgesvd self h = (Val o1, h1)
    /\ holds h1 o1 (Arr2 n N A1)
    /\ EnKF dgesvd (with_D self D') h = (Val o2, h2)
    /\ holds h2 o2 (Arr2 n N A2)
    /\ forall i, (i < n)%nat -> A1 i j = A2 i j.
Proof.
  intros HK HH HD HE HD' Hj Hcol.
  destruct (EnKF_run dgesvd self h n m N Kf Hf Df Ef HK HH HD HE)
    as (o1 & h1 & Hrun1 & _ & HA1).
  destruct (EnKF_run dgesvd (with_D self D') h n m N Kf Hf Df' Ef HK HH HD' HE)
    as (o2 & h2 & Hrun2 & _ & HA2).
  cbn [with_D self_truncation self_truncation_percent] in HA2.
  exists o1, h1. eexists. exists o2, h2. eexists.
  split; [exact Hrun1|]. split; [exact HA1|].
  split; [exact Hrun2|]. split; [exact HA2|].
  intros i _. unfold madd. f_equal.
  apply mmul_ext; [reflexivity|]. intros c Hc.
  unfold msub. rewrite (Hcol c Hc). reflexivity.
Qed.

Lemma EnKF_updates_each_realization_from_its_own_column_witness :
  exists o1 h1 A1 o2 h2 A2,
    EnKF oracle_3_4 (instance "enkf" None) spread_store = (Val o1, h1)
    /\ holds h1 o1 (Arr2 1 2 A1)
    /\ EnKF oracle_3_4 (with_D (instance "enkf" None) (Some 2%nat))
         spread_store = (Val o2, h2)
    /\ holds h2 o2 (Arr2 1 2 A2)
    /\ forall i, (i < 1)%nat -> A1 i 0%nat = A2 i 0%nat.
Proof.
  apply (EnKF_updates_each_realization_from_its_own_column oracle_3_4
           (instance "enkf" None) spread_store (Some 2%nat) 1 1 2
           K_1_m1 K_1_m1 E_2_5 E_2_5 E_2_5 0);
    [in_store | in_store | in_store | in_store | in_store | lia
    | reflexivity].
Defined.

Lemma centre_shift (N : nat) (K : nat -> nat -> R) (c : nat -> R) :
  (0 < N)%nat -> centre N (fun i j => K i j + c i) = centre N K.
Proof.
  intros HN. apply functional_extensionality; intros i.
  apply functional_extensionality; intros j. unfold centre.
  rewrite Rsum_plus, Rsum_const.
  assert (INR N <> 0) by (apply not_0_INR; lia). field. assumption.
Qed.

(** X20.  [EnKF] works on the anomalies of K: adding to every row i of
    K an offset c[i], the same for all realizations, adds c[i] to row i
    of the analysed ensemble and changes nothing else. *)
Theorem EnKF_commutes_with_offsets_of_K
    (dgesvd : svd_oracle) (self : Analysis) (h : heap) (K' : pyobj)
    (n m N : nat) (Kf Hf Df Ef : nat -> nat -> R) (c : nat -> R) :
  holds h (self_K self) (Arr2 n N Kf) ->
  holds h (self_H self) (Arr2 m N Hf) ->
  holds h (self_D self) (Arr2 m N Df) ->
  holds h (self_E self) (Arr2 m N Ef) ->
  holds h K' (Arr2 n N (fun i j => Kf i j + c i)) ->
  (0 < N)%nat ->
  exists o1 h1 A1 o2 h2 A2,
    EnKF dgesvd self h = (Val o1, h1)
    /\ holds h1 o1 (Arr2 n N A1)
    /\ EnKF dgesvd (with_K self K') h = (Val o2, h2)
    /\ holds h2 o2 (Arr2 n N A2)
    /\ forall i j, (i < n)%nat -> (j < N)%nat -> A2 i j = A1 i j + c i.
Proof.
  intros HK HH HD HE HK' HN.
  destruct (EnKF_run dgesvd self h n m N Kf Hf Df Ef HK HH HD HE)
    as (o1 & h1 & Hrun1 & _ & HA1).
  destruct (EnKF_run dgesvd (with_K self K') h n m N _ Hf Df Ef HK' HH HD HE)
    as (o2 & h2 & Hrun2 & _ & HA2).
  cbn [with_K self_truncation self_truncation_percent] in HA2.
  exists o1, h1. eexists. exists o2, h2. eexists.
  split; [exact Hrun1|]. split; [exact HA1|].
  split; [exact Hrun2|]. split; [exact HA2|].
  intros i j _ _. unfold madd, EnKF_gain. cbv zeta.
  rewrite (centre_shift N Kf c HN). lra.
Qed.

Lemma EnKF_commutes_with_offsets_of_K_witness :
  exists o1 h1 A1 o2 h2 A2,
    EnKF oracle_3_4 (instance "enkf" None) offset_store = (Val o1, h1)
    /\ holds h1 o1 (Arr2 1 2 A1)
    /\ EnKF oracle_3_4 (with_K (instance "enkf" None) (Some 5%nat))
         offset_store = (Val o2, h2)
    /\ holds h2 o2 (Arr2 1 2 A2)
    /\ forall i j, (i < 1)%nat -> (j < 2)%nat -> A2 i j = A1 i j + 1.
Proof.
  apply (EnKF_commutes_with_offsets_of_K oracle_3_4 (instance "enkf" None)
           offset_store (Some 5%nat) 1 1 2 K_1_m1 K_1_m1 E_2_5 E_2_5
           (fun _ => 1));
    [in_store | in_store | in_store | in_store | in_store | lia].
Defined.

(** ** Sqrt_KF: the analysed mean and the analysed ensemble *)

Lemma Sqrt_KF_mean_value (dgesvd : svd_oracle) (self : Analysis) (h : heap)
    (n m N : nat) (Kf Hf Ef : nat -> nat -> R) (dv : nat -> R) :
  holds h (self_K self) (Arr2 n N Kf) ->
  holds h (self_H self) (Arr2 m N Hf) ->
  holds h (self_E self) (Arr2 m N Ef) ->
  holds h (self_d self) (Arr1 m dv) ->
  let usv := dgesvd m N (madd (centre N Hf) Ef) in
  let p := List.length
             (retained (self_truncation self) (self_truncation_percent self)
                (energies (map (svd_s usv) (seq 0 (Nat.min m N))))) in
  exists st h',
    Sqrt_KF_mean dgesvd self h = (Val st, h')
    /\ preserves h h'
    /\ st_N st = N /\ st_p st = p
    /\ holds h' (st_H_dash st) (Arr2 m N (centre N Hf))
    /\ holds h' (st_K_dash st) (Arr2 n N (centre N Kf))
    /\ holds h' (st_u_ st) (Arr2 m p (svd_u usv))
    /\ holds h' (st_sig st) (Arr1 (Nat.min m N) (svd_s usv))
    /\ holds h' (st_Ka st)
         (Arr1 n
            (SRKF_mean dgesvd (self_truncation self)
               (self_truncation_percent self) m N Kf Hf Ef dv)).
Proof.
  intros HK HH HE Hd usv p. unfold Sqrt_KF_mean.
  do 15 run_step.
  rewrite ?bind_assoc.
  match goal with
  | |- context [@bind _ _ (truncate self ?u ?s) _ ?h] =>
      edestruct (truncate_run self h u s)
        as (s_ & u_ & h' & Hrun & Hp' & _ & _ & Hs_ & Hu_);
      [solve_holds | solve_holds | ]
  end.
  rewrite (bind_run _ _ _ _ _ Hrun); clear Hrun; cbv beta iota.
  fold usv in Hs_, Hu_.
  match type of Hs_ with context [List.length ?k] => set (kept := k) in * end.
  change (List.length kept) with p in Hs_, Hu_.
  assert (Hpm : (p <= m)%nat).
  { etransitivity; [apply kept_le_min|]. lia. }
  rewrite (Nat.min_l _ _ Hpm) in Hu_.
  do 9 run_step.
  do 2 eexists. split; [reflexivity|].
  cbn [st_N st_p st_H_dash st_K_dash st_u_ st_sig st_Ka].
  split; [solve_preserves|]. split; [reflexivity|]. split; [reflexivity|].
  split; [solve_holds|]. split; [solve_holds|]. split; [solve_holds|].
  split; [solve_holds|].
  eapply holds_eq; [solve_holds|]. f_equal.
  apply functional_extensionality; intros i.
  unfold SRKF_mean. cbv zeta. fold usv. fold kept.
  exact (enkf_chain m N p (fun a _ => row_mean N Kf a) (centre N Kf)
           (centre N Hf) (svd_u usv)
           (fun c _ => dv c - row_mean N Hf c)
           (fun c => 1 / nth c kept 0) i 0%nat).
Qed.

(** The whole of [Sqrt_KF], with the analysed mean written out. *)
Lemma Sqrt_KF_value (dgesvd : svd_oracle) (theta : nat -> nat -> R)
    (self : Analysis) (h : heap)
    (n m N : nat) (Kf Hf Ef : nat -> nat -> R) (dv : nat -> R) :
  holds h (self_K self) (Arr2 n N Kf) ->
  holds h (self_H self) (Arr2 m N Hf) ->
  holds h (self_E self) (Arr2 m N Ef) ->
  holds h (self_d self) (Arr1 m dv) ->
  let T := SRKF_transform dgesvd (self_truncation self)
             (self_truncation_percent self) m N Hf Ef in
  let ka := SRKF_mean dgesvd (self_truncation self)
              (self_truncation_percent self) m N Kf Hf Ef dv in
  exists Aa h',
    Sqrt_KF dgesvd theta self h = (Val Aa, h')
    /\ preserves h h'
    /\ holds h' Aa
         (Arr2 n N
            (fun i j =>
               ka i + mmul N (mmul N (centre N Kf) T) (mtrans theta) i j)).
Proof.
  intros HK HH HE Hd T ka.
  destruct (Sqrt_KF_mean_value dgesvd self h n m N Kf Hf Ef dv HK HH HE Hd)
    as (st & h0 & Hmean & Hp0 & HN & Hp & HHd & HKd & Hu & Hsig & Hka).
  cbv zeta in Hp, Hu, Hsig.
  unfold Sqrt_KF.
  rewrite (bind_run _ _ _ _ _ Hmean).
  destruct (Sqrt_KF_spread_run st h0 m N _ _ _ _ Hp
              ltac:(apply kept_le_min) HHd Hu Hsig)
    as (c_1 & h1 & Hspread & Hp1 & _ & Hc1).
  rewrite (bind_run _ _ _ _ _ Hspread).
  destruct (Sqrt_KF_transform_run dgesvd h1 N c_1 _ Hc1)
    as (x2 & h2 & Htrans & Hp2 & _ & Hx2).
  cbv zeta in Hx2. rewrite HN.
  rewrite (bind_run _ _ _ _ _ Htrans).
  destruct (Sqrt_KF_rotate_run theta st x2 h2 n N (centre N Kf) _ ka HN
              ltac:(solve_holds) Hx2 ltac:(solve_holds))
    as (Aa & h3 & Hrot & Hp3 & HAa & HA).
  exists Aa, h3. split; [exact Hrot|]. split; [solve_preserves|].
  exact HA.
Qed.

(** X21.  On a problem instance with K (n x N), H and E (m x N) and a
    vector d of length m, [Sqrt_KF] returns a new n x N array equal,
    entry by entry, to Ka + K_dash T Theta^T, where
    Ka = mean(K) + K_dash H_dash^T U_p diag(1/S_kept) U_p^T (d - mean(H))
    is the analysed mean, T the transform built from the second
    decomposition and Theta the drawn rotation. *)
Theorem Sqrt_KF_formula_correct (dgesvd : svd_oracle)
    (theta : nat -> nat -> R) (self : Analysis) (h : heap)
    (n m N : nat) (Kf Hf Ef : nat -> nat -> R) (dv : nat -> R) :
  holds h (self_K self) (Arr2 n N Kf) ->
  holds h (self_H self) (Arr2 m N Hf) ->
  holds h (self_E self) (Arr2 m N Ef) ->
  holds h (self_d self) (Arr1 m dv) ->
  let T := SRKF_transform dgesvd (self_truncation self)
             (self_truncation_percent self) m N Hf Ef in
  let ka := SRKF_mean dgesvd (self_truncation self)
              (self_truncation_percent self) m N Kf Hf Ef dv in
  exists Aa h' A,
    Sqrt_KF dgesvd theta self h = (Val Aa, h')
    /\ holds h' Aa A
    /\ arr_eq A
         (Arr2 n N
            (fun i j =>
               ka i + mmul N (mmul N (centre N Kf) T) (mtrans theta) i j)).
Proof.
  intros HK HH HE Hd T ka.
  destruct (Sqrt_KF_value dgesvd theta self h n m N Kf Hf Ef dv HK HH HE Hd)
    as (Aa & h' & Hrun & _ & HA).
  exists Aa, h'. eexists. split; [exact Hrun|]. split; [exact HA|].
  split; [reflexivity|]. intros; reflexivity.
Qed.

Lemma Sqrt_KF_formula_correct_witness :
  exists Aa h' A,
    Sqrt_KF oracle_3_4 flip (instance "sqrtkf" None) spread_store
    = (Val Aa, h')
    /\ holds h' Aa A
    /\ arr_eq A
         (Arr2 1 2
            (fun i j =>
               SRKF_mean oracle_3_4 None (1 / 100) 1 2 K_1_m1 K_1_m1 E_2_5
                 (fun _ => 0) i
               + mmul 2
                   (mmul 2 (centre 2 K_1_m1)
                      (SRKF_transform oracle_3_4 None (1 / 100) 1 2
                         K_1_m1 E_2_5))
                   (mtrans flip) i j)).
Proof.
  apply (Sqrt_KF_formula_correct oracle_3_4 flip (instance "sqrtkf" None)
           spread_store 1 1 2 K_1_m1 K_1_m1 E_2_5 (fun _ => 0));
    in_store.
Defined.

Lemma EnKF_gain_scal (dgesvd : svd_oracle) (tr : option R) (pc : R)
    (m N : nat) (K H E : nat -> nat -> R) :
  EnKF_gain dgesvd tr pc m N K H E
  = gain m N (centre N K) (centre N H)
      (svd_u (dgesvd m N (madd (centre N H) E)))
      (retained tr pc
         (energies (map (svd_s (dgesvd m N (madd (centre N H) E)))
                      (seq 0 (Nat.min m N))))).
Proof. unfold EnKF_gain. cbv zeta. rewrite scal1_fun. reflexivity. Qed.

(** X22.  The two filters agree on the mean: on one problem instance
    whose observation vector d is the mean of the perturbed
    observations D over the realizations, the mean over the
    realizations of the ensemble that [EnKF] returns is the analysed
    mean Ka that [Sqrt_KF] computes. *)
Theorem EnKF_mean_is_Sqrt_KF_mean (dgesvd : svd_oracle)
    (self : Analysis) (h : heap) (n m N : nat)
    (Kf Hf Df Ef : nat -> nat -> R) (dv : nat -> R) :
  holds h (self_K self) (Arr2 n N Kf) ->
  holds h (self_H self) (Arr2 m N Hf) ->
  holds h (self_D self) (Arr2 m N Df) ->
  holds h (self_E self) (Arr2 m N Ef) ->
  holds h (self_d self) (Arr1 m dv) ->
  (forall c, (c < m)%nat -> row_mean N Df c = dv c) ->
  exists Aa h1 A st h2 ka,
    EnKF dgesvd self h = (Val Aa, h1)
    /\ holds h1 Aa (Arr2 n N A)
    /\ Sqrt_KF_mean dgesvd self h = (Val st, h2)
    /\ holds h2 (st_Ka st) (Arr1 n ka)
    /\ forall i, (i < n)%nat -> row_mean N A i = ka i.
Proof.
  intros HK HH HD HE Hd Hmean.
  destruct (EnKF_run dgesvd self h n m N Kf Hf Df Ef HK HH HD HE)
    as (Aa & h1 & Hrun & _ & HA).
  destruct (Sqrt_KF_mean_value dgesvd self h n m N Kf Hf Ef dv HK HH HE Hd)
    as (st & h2 & Hrun2 & _ & _ & _ & _ & _ & _ & _ & Hka).
  exists Aa, h1. eexists. exists st, h2. eexists.
  split; [exact Hrun|]. split; [exact HA|].
  split; [exact Hrun2|]. split; [exact Hka|].
  intros i _. unfold SRKF_mean. cbv zeta. rewrite EnKF_gain_scal.
  set (G := gain _ _ _ _ _ _).
  unfold row_mean at 1. unfold madd.
  rewrite Rsum_plus. unfold mmul at 1.
  rewrite Rsum_swap.
  unfold Rdiv at 1. rewrite Rmult_plus_distr_r. fold (row_mean N Kf i).
  unfold row_mean at 1. f_equal.
  rewrite <- Rsum_scal_r.
  apply Rsum_ext. intros c Hc.
  rewrite Rsum_scal_l. rewrite Rmult_assoc. f_equal.
  rewrite <- (Hmean c Hc). unfold msub, row_mean.
  rewrite Rsum_minus. lra.
Qed.

Lemma EnKF_mean_is_Sqrt_KF_mean_witness :
  exists Aa h1 A st h2 ka,
    EnKF unit_oracle (instance "enkf" None) zero_store = (Val Aa, h1)
    /\ holds h1 Aa (Arr2 1 2 A)
    /\ Sqrt_KF_mean unit_oracle (instance "enkf" None) zero_store
       = (Val st, h2)
    /\ holds h2 (st_Ka st) (Arr1 1 ka)
    /\ forall i, (i < 1)%nat -> row_mean 2 A i = ka i.
Proof.
  apply (EnKF_mean_is_Sqrt_KF_mean unit_oracle (instance "enkf" None)
           zero_store 1 1 2 (fun _ _ => 0) (fun _ _ => 0) (fun _ _ => 0)
           (fun _ _ => 0) (fun _ => 0));
    [in_store | in_store | in_store | in_store | in_store | ].
  intros c _. unfold row_mean. simpl. lra.
Defined.

(** X23.  On a problem instance without an observation vector (d is
    None, as the constructor leaves it when E and D are passed without
    d), [Sqrt_KF] raises TypeError at [self.d - prior_h_mean]
    (line 187): only the two prior means have been computed, no
    decomposition and no product. *)
Theorem Sqrt_KF_without_d_raises_TypeError (dgesvd : svd_oracle)
    (theta : nat -> nat -> R) (self : Analysis) (h : heap)
    (n N m N' : nat) (Kf Hf : nat -> nat -> R) :
  holds h (self_K self) (Arr2 n N Kf) ->
  holds h (self_H self) (Arr2 m N' Hf) ->
  self_d self = None ->
  Sqrt_KF dgesvd theta self h
  = (Exc TypeError,
     (h ++ [Arr1 n (row_mean N Kf); Arr1 m (row_mean N' Hf)])%list).
Proof.
  intros HK HH Hd. unfold Sqrt_KF, Sqrt_KF_mean. rewrite Hd.
  rewrite ?bind_assoc.
  erewrite bind_run by (eapply new1_run; [exact HK|reflexivity]).
  cbv beta. rewrite ?bind_assoc.
  erewrite bind_run
    by (eapply new1_run; [apply holds_app; exact HH|reflexivity]).
  cbv beta. rewrite ?bind_assoc. rewrite <- app_assoc. reflexivity.
Qed.

Lemma Sqrt_KF_without_d_raises_TypeError_witness :
  Sqrt_KF unit_oracle mid (without_d (instance "sqrtkf" None))
    consistent_store
  = (Exc TypeError,
     (consistent_store
      ++ [Arr1 1 (row_mean 2 (fun _ _ => 0));
          Arr1 1 (row_mean 2 (fun _ _ => 0))])%list).
Proof.
  apply (Sqrt_KF_without_d_raises_TypeError unit_oracle mid
           (without_d (instance "sqrtkf" None)) consistent_store 1 2 1 2
           (fun _ _ => 0) (fun _ _ => 0));
    [in_store | in_store | reflexivity].
Defined.

Lemma centre_collapsed (N : nat) (K : nat -> nat -> R) (i j : nat) :
  (0 < N)%nat -> (forall j, (j < N)%nat -> K i j = K i 0%nat) ->
  (j < N)%nat -> centre N K i j = 0.
Proof.
  intros HN HK Hj. unfold centre.
  rewrite (Rsum_ext N (K i) (fun _ => K i 0%nat)) by exact HK.
  rewrite Rsum_const, (HK j Hj).
  assert (INR N <> 0) by (apply not_0_INR; lia). field. assumption.
Qed.

Lemma row_mean_collapsed (N : nat) (K : nat -> nat -> R) (i : nat) :
  (0 < N)%nat -> (forall j, (j < N)%nat -> K i j = K i 0%nat) ->
  row_mean N K i = K i 0%nat.
Proof.
  intros HN HK. unfold row_mean.
  rewrite (Rsum_ext N (K i) (fun _ => K i 0%nat)) by exact HK.
  rewrite Rsum_const.
  assert (INR N <> 0) by (apply not_0_INR; lia). field. assumption.
Qed.

Lemma gain_zero (m N : nat) (Kd Hd U : nat -> nat -> R) (kept : list R)
    (i c : nat) :
  (forall j, (j < N)%nat -> Kd i j = 0) -> gain m N Kd Hd U kept i c = 0.
Proof.
  intros HK. unfold gain. cbv zeta.
  apply mmul_zero_l. intros b _.
  apply mmul_zero_l. intros a _.
  apply mmul_zero_l. intros e _.
  apply mmul_zero_l. exact HK.
Qed.

(** X24.  An ensemble without spread is not updated: when all the
    realizations of K are equal, [EnKF] and [Sqrt_KF] both return an
    ensemble equal to K, whatever the observations, the decomposition
    and the rotation are. *)
Theorem collapsed_ensemble_is_not_updated (dgesvd : svd_oracle)
    (theta : nat -> nat -> R) (self : Analysis) (h : heap) (n m N : nat)
    (Kf Hf Df Ef : nat -> nat -> R) (dv : nat -> R) :
  holds h (self_K self) (Arr2 n N Kf) ->
  holds h (self_H self) (Arr2 m N Hf) ->
  holds h (self_D self) (Arr2 m N Df) ->
  holds h (self_E self) (Arr2 m N Ef) ->
  holds h (self_d self) (Arr1 m dv) ->
  (0 < N)%nat ->
  (forall i j, (i < n)%nat -> (j < N)%nat -> Kf i j = Kf i 0%nat) ->
  exists o1 h1 A1 o2 h2 A2,
    EnKF dgesvd self h = (Val o1, h1)
    /\ holds h1 o1 A1 /\ arr_eq A1 (Arr2 n N Kf)
    /\ Sqrt_KF dgesvd theta self h = (Val o2, h2)
    /\ holds h2 o2 A2 /\ arr_eq A2 (Arr2 n N Kf).
Proof.
  intros HK HH HD HE Hd HN Hcol.
  destruct (EnKF_run dgesvd self h n m N Kf Hf Df Ef HK HH HD HE)
    as (o1 & h1 & Hrun1 & _ & HA1).
  destruct (Sqrt_KF_value dgesvd theta self h n m N Kf Hf Ef dv HK HH HE Hd)
    as (o2 & h2 & Hrun2 & _ & HA2).
  exists o1, h1. eexists. exists o2, h2. eexists.
  split; [exact Hrun1|]. split; [exact HA1|]. split.
  { split; [reflexivity|]. intros i j Hi Hj. cbn [at2 rows2 cols2] in *.
    unfold madd. rewrite mmul_zero_l; [lra|].
    intros c _. unfold EnKF_gain. cbv zeta. apply gain_zero.
    intros j' Hj'. apply centre_collapsed; [exact HN| |exact Hj'].
    intros; apply Hcol; assumption. }
  split; [exact Hrun2|]. split; [exact HA2|].
  split; [reflexivity|]. intros i j Hi Hj. cbn [at2 rows2 cols2] in *.
  rewrite mmul_zero_l.
  2:{ intros l _. apply mmul_zero_l. intros j' Hj'.
      apply centre_collapsed; [exact HN| |exact Hj'].
      intros; apply Hcol; assumption. }
  unfold SRKF_mean. cbv zeta.
  rewrite (Rsum_ext m _ (fun _ => 0)).
  2:{ intros c _. rewrite gain_zero; [lra|].
      intros j' Hj'. apply centre_collapsed; [exact HN| |exact Hj'].
      intros; apply Hcol; assumption. }
  rewrite Rsum_zero, row_mean_collapsed, (Hcol i j Hi Hj);
    [lra|exact HN|intros; apply Hcol; assumption].
Qed.

Lemma collapsed_ensemble_is_not_updated_witness :
  exists o1 h1 A1 o2 h2 A2,
    EnKF unit_oracle (instance "enkf" None) zero_store = (Val o1, h1)
    /\ holds h1 o1 A1 /\ arr_eq A1 (Arr2 1 2 (fun _ _ => 0))
    /\ Sqrt_KF unit_oracle mid (instance "enkf" None) zero_store
       = (Val o2, h2)
    /\ holds h2 o2 A2 /\ arr_eq A2 (Arr2 1 2 (fun _ _ => 0)).
Proof.
  apply (collapsed_ensemble_is_not_updated unit_oracle mid
           (instance "enkf" None) zero_store 1 1 2 (fun _ _ => 0)
           (fun _ _ => 0) (fun _ _ => 0) (fun _ _ => 0) (fun _ => 0));
    [in_store | in_store | in_store | in_store | in_store | lia
    | reflexivity].
Defined.

(** X25.  The transform T that [Sqrt_KF] builds from the second
    decomposition U2 diag(S2) Vt2 (lines 237-244) satisfies
    T T^T = U2 diag(max(S2, 0)) U2^T, as soon as Vt2 is orthogonal. *)
Theorem Sqrt_KF_transform_gram (dgesvd : svd_oracle) (h : heap) (N : nat)
    (c_1 : pyobj) (X : nat -> nat -> R) :
  holds h c_1 (Arr2 N N X) ->
  orthogonal N (svd_vt (dgesvd N N X)) ->
  exists x2 h' T,
    Sqrt_KF_transform dgesvd N c_1 h = (Val x2, h')
    /\ holds h' x2 (Arr2 N N T)
    /\ forall i k, (i < N)%nat -> (k < N)%nat ->
         mmul N T (mtrans T) i k
         = Rsum N (fun b => svd_u (dgesvd N N X) i b
                            * clip (svd_s (dgesvd N N X) b)
                            * svd_u (dgesvd N N X) k b).
Proof.
  intros Hc HV.
  destruct (Sqrt_KF_transform_run dgesvd h N c_1 X Hc)
    as (x2 & h' & Hrun & _ & _ & HT).
  exists x2, h'. eexists. split; [exact Hrun|]. split; [exact HT|].
  intros i k _ _. apply transform_gram. exact HV.
Qed.

Lemma Sqrt_KF_transform_gram_witness :
  exists x2 h' T,
    Sqrt_KF_transform unit_oracle 2 (Some 1%nat) rotate_store = (Val x2, h')
    /\ holds h' x2 (Arr2 2 2 T)
    /\ forall i k, (i < 2)%nat -> (k < 2)%nat ->
         mmul 2 T (mtrans T) i k
         = Rsum 2 (fun b => mid i b * clip 1 * mid k b).
Proof.
  apply (Sqrt_KF_transform_gram unit_oracle rotate_store 2 (Some 1%nat) mid);
    [in_store | exact orthogonal_mid_2].
Defined.

(** X26.  For an orthogonal rotation Theta, the scatter of the
    ensemble that [Sqrt_KF] returns about the analysed mean Ka is
    (K_dash T)(K_dash T)^T: the rotation does not enter it. *)
Theorem Sqrt_KF_scatter_about_analysed_mean (dgesvd : svd_oracle)
    (theta : nat -> nat -> R) (self : Analysis) (h : heap)
    (n m N : nat) (Kf Hf Ef : nat -> nat -> R) (dv : nat -> R) :
  holds h (self_K self) (Arr2 n N Kf) ->
  holds h (self_H self) (Arr2 m N Hf) ->
  holds h (self_E self) (Arr2 m N Ef) ->
  holds h (self_d self) (Arr1 m dv) ->
  orthogonal N theta ->
  let T := SRKF_transform dgesvd (self_truncation self)
             (self_truncation_percent self) m N Hf Ef in
  let X := mmul N (centre N Kf) T in
  let ka := SRKF_mean dgesvd (self_truncation self)
              (self_truncation_percent self) m N Kf Hf Ef dv in
  exists Aa h' A,
    Sqrt_KF dgesvd theta self h = (Val Aa, h')
    /\ holds h' Aa (Arr2 n N A)
    /\ forall i k, (i < n)%nat -> (k < n)%nat ->
         scatter N A ka i k = mmul N X (mtrans X) i k.
Proof.
  intros HK HH HE Hd Hth T X ka.
  destruct (Sqrt_KF_value dgesvd theta self h n m N Kf Hf Ef dv HK HH HE Hd)
    as (Aa & h' & Hrun & _ & HA).
  exists Aa, h'. eexists. split; [exact Hrun|]. split; [exact HA|].
  intros i k _ _. unfold scatter. fold T. fold X. fold ka.
  change (mmul N X (mtrans X) i k) with (Rsum N (fun j => X i j * X k j)).
  rewrite <- (rotation_scatter N theta Hth X i k).
  apply Rsum_ext. intros j _. lra.
Qed.

Lemma Sqrt_KF_scatter_about_analysed_mean_witness :
  exists Aa h' A,
    Sqrt_KF oracle_3_4 flip (instance "sqrtkf" None) spread_store
    = (Val Aa, h')
    /\ holds h' Aa (Arr2 1 2 A)
    /\ forall i k, (i < 1)%nat -> (k < 1)%nat ->
         scatter 2 A
           (SRKF_mean oracle_3_4 None (1 / 100) 1 2 K_1_m1 K_1_m1 E_2_5
              (fun _ => 0)) i k
         = mmul 2
             (mmul 2 (centre 2 K_1_m1)
                (SRKF_transform oracle_3_4 None (1 / 100) 1 2 K_1_m1 E_2_5))
             (mtrans
                (mmul 2 (centre 2 K_1_m1)
                   (SRKF_transform oracle_3_4 None (1 / 100) 1 2
                      K_1_m1 E_2_5))) i k.
Proof.
  apply (Sqrt_KF_scatter_about_analysed_mean oracle_3_4 flip
           (instance "sqrtkf" None) spread_store 1 1 2 K_1_m1 K_1_m1 E_2_5
           (fun _ => 0));
    [in_store | in_store | in_store | in_store | exact orthogonal_flip].
Defined.

(** X27.  Without innovation of the mean, that is, when d is the mean
    of the predictions H over the realizations, [Sqrt_KF] leaves the
    ensemble mean where it was: it returns mean(K) + K_dash T Theta^T. *)
Theorem Sqrt_KF_without_mean_innovation (dgesvd : svd_oracle)
    (theta : nat -> nat -> R) (self : Analysis) (h : heap)
    (n m N : nat) (Kf Hf Ef : nat -> nat -> R) (dv : nat -> R) :
  holds h (self_K self) (Arr2 n N Kf) ->
  holds h (self_H self) (Arr2 m N Hf) ->
  holds h (self_E self) (Arr2 m N Ef) ->
  holds h (self_d self) (Arr1 m dv) ->
  (forall c, (c < m)%nat -> dv c = row_mean N Hf c) ->
  let T := SRKF_transform dgesvd (self_truncation self)
             (self_truncation_percent self) m N Hf Ef in
  exists Aa h' A,
    Sqrt_KF dgesvd theta self h = (Val Aa, h')
    /\ holds h' Aa (Arr2 n N A)
    /\ forall i j, (i < n)%nat -> (j < N)%nat ->
         A i j
         = row_mean N Kf i
           + mmul N (mmul N (centre N Kf) T) (mtrans theta) i j.
Proof.
  intros HK HH HE Hd Hinn T.
  destruct (Sqrt_KF_value dgesvd theta self h n m N Kf Hf Ef dv HK HH HE Hd)
    as (Aa & h' & Hrun & _ & HA).
  exists Aa, h'. eexists. split; [exact Hrun|]. split; [exact HA|].
  intros i j _ _. cbv beta. fold T. f_equal.
  unfold SRKF_mean. cbv zeta.
  rewrite (Rsum_ext m _ (fun _ => 0)).
  - rewrite Rsum_zero. lra.
  - intros c Hc. rewrite (Hinn c Hc). lra.
Qed.

Lemma Sqrt_KF_without_mean_innovation_witness :
  exists Aa h' A,
    Sqrt_KF unit_oracle flip (instance "sqrtkf" None) zero_store
    = (Val Aa, h')
    /\ holds h' Aa (Arr2 1 2 A)
    /\ forall i j, (i < 1)%nat -> (j < 2)%nat ->
         A i j
         = row_mean 2 (fun _ _ => 0) i
           + mmul 2
               (mmul 2 (centre 2 (fun _ _ => 0))
                  (SRKF_transform unit_oracle None (1 / 100) 1 2
                     (fun _ _ => 0) (fun _ _ => 0)))
               (mtrans flip) i j.
Proof.
  apply (Sqrt_KF_without_mean_innovation unit_oracle flip
           (instance "sqrtkf" None) zero_store 1 1 2 (fun _ _ => 0)
           (fun _ _ => 0) (fun _ _ => 0) (fun _ => 0));
    [in_store | in_store | in_store | in_store | ].
  intros c _. unfold row_mean. simpl. lra.
Defined.

(** ** From the constructor to the update *)

(** X28.  A problem built from K, H and the perturbed observations D
    alone can be updated by both filters: the constructor derives
    d = mean(D) and E = D - mean(D), and [update] returns, for the
    method "enkf" (in any letter case), the ensemble
    K + K_dash H_dash^T U_p diag(1/S_kept) U_p^T (D - H) and, for
    "sqrtkf", the ensemble Ka + K_dash T Theta^T, both computed with
    these d and E. *)
Theorem update_from_perturbed_observations_only
    (randn : nat -> nat -> R) (dgesvd : svd_oracle) (theta : nat -> nat -> R)
    (h : heap) (K H D : pyobj) (n m N : nat) (Kf Hf Df : nat -> nat -> R)
    (method : string) (err_std err_perc truncation : option R)
    (truncation_percent : R) (verbose : bool) :
  holds h K (Arr2 n N Kf) -> holds h H (Arr2 m N Hf) ->
  holds h D (Arr2 m N Df) ->
  exists self h1,
    __init__ randn K H D None None method err_std err_perc None truncation
      truncation_percent verbose h = (Val self, h1)
    /\ (lower method = "enkf"%string ->
        exists Aa h2,
          update dgesvd theta self h1 = (Val Aa, h2)
          /\ holds h2 Aa
               (Arr2 n N
                  (EnKF_formula dgesvd truncation truncation_percent m N
                     Kf Hf Df (centre N Df))))
    /\ (lower method = "sqrtkf"%string ->
        exists Aa h2,
          update dgesvd theta self h1 = (Val Aa, h2)
          /\ holds h2 Aa
               (Arr2 n N
                  (fun i j =>
                     SRKF_mean dgesvd truncation truncation_percent m N
                       Kf Hf (centre N Df) (row_mean N Df) i
                     + mmul N
                         (mmul N (centre N Kf)
                            (SRKF_transform dgesvd truncation
                               truncation_percent m N Hf (centre N Df)))
                         (mtrans theta) i j))).
Proof.
  intros HK HH HD. unfold __init__.
  do 4 run_step. cbn [is_None negb].
  do 10 run_step. step_ret. run_step.
  rewrite (holds_some _ _ _ HD). cbv iota. step_ret.
  do 2 eexists. split; [reflexivity|].
  match goal with
  | |- context [update _ _ ?s ?hF] => set (self := s); set (hI := hF)
  end.
  assert (HK1 : holds hI (self_K self) (Arr2 n N Kf))
    by (subst self hI; cbn [self_K]; solve_holds).
  assert (HH1 : holds hI (self_H self) (Arr2 m N Hf))
    by (subst self hI; cbn [self_H]; solve_holds).
  assert (HD1 : holds hI (self_D self) (Arr2 m N Df))
    by (subst self hI; cbn [self_D]; solve_holds).
  assert (HE1 : holds hI (self_E self) (Arr2 m N (centre N Df)))
    by (subst self hI; cbn [self_E]; solve_holds).
  assert (Hd1 : holds hI (self_d self) (Arr1 m (row_mean N Df)))
    by (subst self hI; cbn [self_d]; solve_holds).
  split.
  - intros Hm. unfold update.
    replace (self_method self) with "enkf"%string
      by (subst self; cbn [self_method]; congruence).
    cbn [String.eqb Ascii.eqb Bool.eqb].
    destruct (EnKF_run dgesvd self hI n m N Kf Hf Df _ HK1 HH1 HD1 HE1)
      as (Aa & hU & Hrun & _ & HA).
    exists Aa, hU. split; [exact Hrun|]. exact HA.
  - intros Hm. unfold update.
    replace (self_method self) with "sqrtkf"%string
      by (subst self; cbn [self_method]; congruence).
    cbn [String.eqb Ascii.eqb Bool.eqb].
    destruct (Sqrt_KF_value dgesvd theta self hI n m N Kf Hf _ _ HK1 HH1 HE1 Hd1)
      as (Aa & hU & Hrun & _ & HA).
    exists Aa, hU. split; [exact Hrun|]. exact HA.
Qed.

Lemma update_from_perturbed_observations_only_witness :
  exists self h1,
    __init__ no_draw (Some 0%nat) (Some 1%nat) (Some 3%nat) None None "EnKF"
      None None None None (1 / 100) true consistent_store = (Val self, h1)
    /\ exists Aa h2,
         update unit_oracle mid self h1 = (Val Aa, h2)
         /\ holds h2 Aa
              (Arr2 1 2
                 (EnKF_formula unit_oracle None (1 / 100) 1 2 (fun _ _ => 0)
                    (fun _ _ => 0) (fun _ _ => 0)
                    (centre 2 (fun _ _ => 0)))).
Proof.
  destruct (update_from_perturbed_observations_only no_draw unit_oracle mid
              consistent_store (Some 0%nat) (Some 1%nat) (Some 3%nat) 1 1 2
              (fun _ _ => 0) (fun _ _ => 0) (fun _ _ => 0) "EnKF" None None
              None (1 / 100) true)
    as (self & h1 & Hrun & Henkf & _);
    [in_store | in_store | in_store | ].
  exists self, h1. split; [exact Hrun|]. apply Henkf. reflexivity.
Defined.
